(** * ChatIA (iaserver.py): knowledge matching, ingestion and persistence

  A shallow embedding of the request-handling module [iaserver.py] and of
  the parts of the Python standard library it calls ([str], [re], [json],
  [os.path], text files), followed by the properties of the knowledge
  pipeline and of the session store. *)

From Stdlib Require Import ZArith NArith Ascii String.
From stdpp Require Import gmap strings list.

Open Scope N_scope.

(** ** Python strings

  A [str] is a sequence of Unicode code points.  Literals of the source
  are written with [str "..."]; characters that have no Rocq literal are
  given by their code point. *)

Abbreviation pystr := (list N).

Definition ord (a : ascii) : N := N_of_ascii a.
Definition str (s : string) : pystr := ord <$> list_ascii_of_string s.

Module Py.

(** [str.isspace] on one character: the 29 code points of Unicode white
    space (bidirectional type WS, B or S, or category Zs). *)
Definition isspace (c : N) : bool :=
  (9 <=? c) && (c <=? 13) || (28 <=? c) && (c <=? 32)
  || (c =? 0x85) || (c =? 0xa0) || (c =? 0x1680)
  || (0x2000 <=? c) && (c <=? 0x200a)
  || (c =? 0x2028) || (c =? 0x2029) || (c =? 0x202f) || (c =? 0x205f)
  || (c =? 0x3000).

Fixpoint lstrip (s : pystr) : pystr :=
  match s with
  | c :: s' => if isspace c then lstrip s' else s
  | [] => []
  end.

Fixpoint rstrip (s : pystr) : pystr :=
  match s with
  | c :: s' =>
      match rstrip s' with
      | [] => if isspace c then [] else [c]
      | r => c :: r
      end
  | [] => []
  end.

(** [s.strip()] *)
Definition strip (s : pystr) : pystr := rstrip (lstrip s).

(** [s.startswith(p)] and [s.endswith(p)] *)
Fixpoint startswith (s p : pystr) : bool :=
  match p, s with
  | [], _ => true
  | c :: p', d :: s' => (c =? d) && startswith s' p'
  | _ :: _, [] => false
  end.

Definition endswith (s p : pystr) : bool := startswith (reverse s) (reverse p).

(** [sub in s] for two strings. *)
Fixpoint contains (s sub : pystr) : bool :=
  startswith s sub || match s with _ :: s' => contains s' sub | [] => false end.

(** [s.rfind(c)] for a one-character [c]. *)
Fixpoint rfind (s : pystr) (c : N) : Z :=
  match s with
  | [] => -1
  | d :: s' =>
      let i := rfind s' c in
      if (0 <=? i)%Z then (i + 1)%Z else if d =? c then 0%Z else (-1)%Z
  end.

(** [s[i:j]], [s[:j]] and [s[i:]] for indices that are not negative. *)
Definition slice (s : pystr) (i j : Z) : pystr :=
  take (Z.to_nat j - Z.to_nat i) (drop (Z.to_nat i) s).
Definition slice_to (s : pystr) (j : Z) : pystr := take (Z.to_nat j) s.
Definition slice_from (s : pystr) (i : Z) : pystr := drop (Z.to_nat i) s.

End Py.

(** ** Exceptions and results *)

Inductive exn :=
| JSONDecodeError
| TypeError
| AttributeError
| KeyError
| IndexError
| UnicodeDecodeError
| UnicodeEncodeError
| FileNotFoundError
| RecursionError
| ValueError
| Exception (descr : pystr).

Inductive result (A : Type) :=
| Ok (a : A)
| Raise (e : exn).
Arguments Ok {A} a.
Arguments Raise {A} e.

(** ** Python values

    The values [json.load] produces and [json.dump] accepts.  A float is
    kept as the literal it was read from; a [dict] is the list of its items
    in insertion order, with distinct keys. *)

#[local] Set Warnings "-register-all".

Inductive value :=
  | PyNone
  | PyBool (b : bool)
  | PyInt (z : Z)
  | PyFloat (literal : pystr)
  | PyStr (s : pystr)
  | PyList (items : list value)
  | PyDict (items : list (pystr * value)).

(** [d[k] = v] on a [dict]: a present key keeps its place. *)
Fixpoint dict_set (d : list (pystr * value)) (k : pystr) (v : value)
  : list (pystr * value) :=
  match d with
  | [] => [(k, v)]
  | (k', v') :: d' =>
      if decide (k = k') then (k, v) :: d' else (k', v') :: dict_set d' k v
  end.

Fixpoint dict_get (d : list (pystr * value)) (k : pystr) : option value :=
  match d with
  | [] => None
  | (k', v') :: d' => if decide (k = k') then Some v' else dict_get d' k
  end.

Definition DQUOTE : N := 34.
Definition BACKSLASH : N := 92.
Definition SPACE : N := 32.
Definition NEWLINE : N := 10.

Definition is_digit (c : N) : bool := (48 <=? c) && (c <=? 57).

(** ** The environment of the server

    What the module takes from outside and the source does not spell out:
    the Unicode character database, [repr] of floats, the wall clock, the
    completion service, the markup extractor, the text of the
    interpreter's own error messages and the two limits of the interpreter
    that [json.load] runs into.  The clock and the completion service
    answer differently from one call to the next; they are indexed by the
    number of clock readings made so far.  The limits are taken to be the
    same at every call. *)

Class Env := {
  (** [c.isalnum()] for a character *)
  unicode_isalnum : N → bool;
  (** [s.lower()] *)
  unicode_lower : pystr → pystr;
  (** [repr(float(literal))], with the names [json] gives to nan and the
      infinities *)
  float_repr : pystr → pystr;
  (** [datetime.now().isoformat()] *)
  now_isoformat : nat → pystr;
  (** [datetime.now().strftime(...)] with the format of the archive names *)
  now_strftime : nat → pystr;
  (** [llm.create_completion(prompt=..., max_tokens=150, temperature=0.7)] *)
  create_completion : nat → pystr → result value;
  (** [BeautifulSoup(content, ...).get_text()] *)
  get_text : pystr → pystr;
  (** [str(e)] for an exception the interpreter raises itself *)
  exn_message : exn → pystr;
  (** The recursion limit, as it bears on [json.load]: the scanner enters
      a JSON array or object through [Py_EnterRecursiveCall], and the call
      stack of a handler leaves room for [2 + recursion_headroom] of them,
      one inside the other.  Two levels, those of a session file, are
      taken to be always there. *)
  recursion_headroom : nat;
  (** [sys.get_int_max_str_digits()]: 4300 unless it was changed, 0 when
      the conversions have no limit (and in an interpreter older than the
      limit) *)
  int_max_str_digits : nat
}.

(** ** The [json] module *)

Module Json.

(** *** Decoding ([json.load], with CPython's scanner) *)

Definition is_ws (c : N) : bool :=
  (c =? 32) || (c =? 9) || (c =? 10) || (c =? 13).

(** [WHITESPACE.match(s, end).end()] *)
Fixpoint skip_ws (s : pystr) : pystr :=
  match s with
  | c :: s' => if is_ws c then skip_ws s' else s
  | [] => []
  end.

Definition hex_digit (c : N) : option N :=
  if (48 <=? c) && (c <=? 57) then Some (c - 48)
  else if (97 <=? c) && (c <=? 102) then Some (c - 87)
  else if (65 <=? c) && (c <=? 70) then Some (c - 55)
  else None.

Definition decode_uXXXX (h1 h2 h3 h4 : N) : option N :=
  a ← hex_digit h1; b ← hex_digit h2; c ← hex_digit h3; d ← hex_digit h4;
  Some (((a * 16 + b) * 16 + c) * 16 + d).

(** The table [BACKSLASH] of the one-letter escapes. *)
Definition unescape (esc : N) : option N :=
  if esc =? DQUOTE then Some DQUOTE
  else if esc =? BACKSLASH then Some BACKSLASH
  else if esc =? ord "/" then Some (ord "/")
  else if esc =? ord "b" then Some 8
  else if esc =? ord "f" then Some 12
  else if esc =? ord "n" then Some 10
  else if esc =? ord "r" then Some 13
  else if esc =? ord "t" then Some 9
  else None.

Definition is_high_surrogate (c : N) : bool := (0xd800 <=? c) && (c <=? 0xdbff).
Definition is_low_surrogate (c : N) : bool := (0xdc00 <=? c) && (c <=? 0xdfff).
Definition join_surrogates (hi lo : N) : N :=
  0x10000 + ((hi - 0xd800) * 1024 + (lo - 0xdc00)).

Definition push (c : N) (r : option (pystr * pystr)) : option (pystr * pystr) :=
  match r with
  | Some (t, rest) => Some (c :: t, rest)
  | None => None
  end.

(** [scanstring(s, end, strict=True)]: [s] starts after the opening quote;
    the result is the decoded string and what follows the closing quote,
    [None] when [JSONDecodeError] is raised. *)
Fixpoint scanstring (s : pystr) : option (pystr * pystr) :=
  match s with
  | [] => None
  | c :: s1 =>
      if c =? DQUOTE then Some ([], s1)
      else if c =? BACKSLASH then
        match s1 with
        | [] => None
        | esc :: s2 =>
            if esc =? ord "u" then
              match s2 with
              | h1 :: h2 :: h3 :: h4 :: s6 =>
                  match decode_uXXXX h1 h2 h3 h4 with
                  | None => None
                  | Some uni =>
                      let single := push uni (scanstring s6) in
                      if is_high_surrogate uni then
                        match s6 with
                        | b :: u :: l1 :: l2 :: l3 :: l4 :: s12 =>
                            if (b =? BACKSLASH) && (u =? ord "u") then
                              match decode_uXXXX l1 l2 l3 l4 with
                              | None => None
                              | Some uni2 =>
                                  if is_low_surrogate uni2
                                  then push (join_surrogates uni uni2) (scanstring s12)
                                  else single
                              end
                            else single
                        | _ => single
                        end
                      else single
                  end
              | _ => None
              end
            else
              match unescape esc with
              | Some ch => push ch (scanstring s2)
              | None => None
              end
        end
      else if c <? 32 then None
      else push c (scanstring s1)
  end.

Fixpoint take_digits (s : pystr) : pystr * pystr :=
  match s with
  | c :: s' =>
      if is_digit c then let '(ds, r) := take_digits s' in (c :: ds, r) else ([], s)
  | [] => ([], [])
  end.

(** The number a run of decimal digits writes. *)
Definition digits_value (ds : pystr) : Z :=
  foldl (λ acc d, acc * 10 + Z.of_N (d - 48))%Z 0%Z ds.

(** The fraction [(\.\d+)?] and the exponent [([eE][-+]?\d+)?] of
    [NUMBER_RE]: the matched text (empty when the group does not match)
    and the rest. *)
Definition match_frac (s : pystr) : pystr * pystr :=
  match s with
  | dot :: d :: s' =>
      if (dot =? ord ".") && is_digit d
      then let '(ds, r) := take_digits s' in (dot :: d :: ds, r)
      else ([], s)
  | _ => ([], s)
  end.

Definition match_exp (s : pystr) : pystr * pystr :=
  match s with
  | e :: s1 =>
      if (e =? ord "e") || (e =? ord "E") then
        match s1 with
        | sg :: d :: s2 =>
            if ((sg =? ord "-") || (sg =? ord "+")) && is_digit d
            then let '(ds, r) := take_digits s2 in (e :: sg :: d :: ds, r)
            else if is_digit sg
            then let '(ds, r) := take_digits (d :: s2) in (e :: sg :: ds, r)
            else ([], s)
        | [d] => if is_digit d then ([e; d], []) else ([], s)
        | [] => ([], s)
        end
      else ([], s)
  | [] => ([], s)
  end.

(** What a scan gives: a value and the text that follows it, or
    [JSONDecodeError] ([ScanError], which also stands for the
    [StopIteration] that [decode] turns into it), or another exception
    ([ScanRaise]). *)
Inductive scanned (A : Type) :=
  | Scanned (a : A) (rest : pystr)
  | ScanError
  | ScanRaise (e : exn)
  | OutOfFuel.
Arguments Scanned {A} a rest.
Arguments ScanError {A}.
Arguments ScanRaise {A} e.
Arguments OutOfFuel {A}.

Section Decoder.
Context `{Env}.

(** [int] refuses a decimal text of more than
    [sys.get_int_max_str_digits()] digits; texts of at most 640 digits are
    never refused, and a limit of 0 refuses none. *)
Definition exceeds_int_limit (digits : nat) : bool :=
  (640 <? digits)%nat && (0 <? int_max_str_digits)%nat
  && (int_max_str_digits <? digits)%nat.

(** [int(digits)] for a run of decimal digits: the number, or
    [ValueError] for a run that is too long. *)
Definition int_of_digits (ds : pystr) : result Z :=
  if exceeds_int_limit (length ds) then Raise ValueError
  else Ok (digits_value ds).

(** [NUMBER_RE.match]: an optional minus sign, then 0 or a run of digits
    that does not start with 0, then the optional fraction and exponent;
    [int] of the matched text when it has neither, [float] otherwise.
    [ScanError] here means that the text does not start with a number. *)
Definition match_number (s : pystr) : scanned value :=
  let '(sign, s1) :=
    match s with
    | c :: s' => if c =? ord "-" then ([c], s') else ([], s)
    | [] => ([], s)
    end in
  match s1 with
  | d :: s2 =>
      if is_digit d then
        let '(int_digits, s3) :=
          if d =? ord "0" then ([d], s2)
          else let '(ds, r) := take_digits s2 in (d :: ds, r) in
        let '(frac, s4) := match_frac s3 in
        let '(exp, s5) := match_exp s4 in
        match frac ++ exp with
        | [] =>
            match int_of_digits int_digits with
            | Ok n => Scanned (PyInt (match sign with [] => n | _ => - n end)%Z) s5
            | Raise e => ScanRaise e
            end
        | _ => Scanned (PyFloat (sign ++ int_digits ++ frac ++ exp)) s5
        end
      else ScanError
  | [] => ScanError
  end.

(** [scan_once], [JSONArray] and [JSONObject].  The loops of the two
    parsers are [array_items] and [object_items].  [depth] is the number
    of arrays and objects the scanner may still enter, one inside the
    other, before the interpreter raises [RecursionError]; the check comes
    first, so an empty array counts. *)
Fixpoint scan_once (fuel depth : nat) (s : pystr) : scanned value :=
  match fuel with
  | O => OutOfFuel
  | S fuel =>
      match s with
      | [] => ScanError
      | c :: s1 =>
          if c =? DQUOTE then
            match scanstring s1 with
            | Some (t, rest) => Scanned (PyStr t) rest
            | None => ScanError
            end
          else if c =? ord "{" then
            match depth with
            | O => ScanRaise RecursionError
            | S depth =>
                match skip_ws s1 with
                | c' :: s2 =>
                    if c' =? ord "}" then Scanned (PyDict []) s2
                    else if c' =? DQUOTE then
                      match object_items fuel depth [] s2 with
                      | Scanned d rest => Scanned (PyDict d) rest
                      | ScanError => ScanError
                      | ScanRaise e => ScanRaise e
                      | OutOfFuel => OutOfFuel
                      end
                    else ScanError
                | [] => ScanError
                end
            end
          else if c =? ord "[" then
            match depth with
            | O => ScanRaise RecursionError
            | S depth =>
                match skip_ws s1 with
                | c' :: s2 =>
                    if c' =? ord "]" then Scanned (PyList []) s2
                    else
                      match array_items fuel depth [] (c' :: s2) with
                      | Scanned l rest => Scanned (PyList l) rest
                      | ScanError => ScanError
                      | ScanRaise e => ScanRaise e
                      | OutOfFuel => OutOfFuel
                      end
                | [] => ScanError
                end
            end
          else if Py.startswith s (str "null") then Scanned PyNone (drop 4 s)
          else if Py.startswith s (str "true") then Scanned (PyBool true) (drop 4 s)
          else if Py.startswith s (str "false") then Scanned (PyBool false) (drop 5 s)
          else
            match match_number s with
            | Scanned v rest => Scanned v rest
            | ScanRaise e => ScanRaise e
            | _ =>
                if Py.startswith s (str "NaN") then Scanned (PyFloat (str "NaN")) (drop 3 s)
                else if Py.startswith s (str "Infinity")
                then Scanned (PyFloat (str "Infinity")) (drop 8 s)
                else if Py.startswith s (str "-Infinity")
                then Scanned (PyFloat (str "-Infinity")) (drop 9 s)
                else ScanError
            end
      end
  end
with array_items (fuel depth : nat) (values : list value) (s : pystr)
  : scanned (list value) :=
  match fuel with
  | O => OutOfFuel
  | S fuel =>
      match scan_once fuel depth s with
      | Scanned v rest =>
          match skip_ws rest with
          | c :: s1 =>
              if c =? ord "]" then Scanned (values ++ [v]) s1
              else if c =? ord ","
              then array_items fuel depth (values ++ [v]) (skip_ws s1)
              else ScanError
          | [] => ScanError
          end
      | ScanError => ScanError
      | ScanRaise e => ScanRaise e
      | OutOfFuel => OutOfFuel
      end
  end
with object_items (fuel depth : nat) (pairs : list (pystr * value)) (s : pystr)
  : scanned (list (pystr * value)) :=
  match fuel with
  | O => OutOfFuel
  | S fuel =>
      match scanstring s with
      | Some (key, s1) =>
          match skip_ws s1 with
          | c :: s2 =>
              if c =? ord ":" then
                match scan_once fuel depth (skip_ws s2) with
                | Scanned v rest =>
                    match skip_ws rest with
                    | c' :: s3 =>
                        if c' =? ord "}" then Scanned (dict_set pairs key v) s3
                        else if c' =? ord "," then
                          match skip_ws s3 with
                          | q :: s4 =>
                              if q =? DQUOTE
                              then object_items fuel depth (dict_set pairs key v) s4
                              else ScanError
                          | [] => ScanError
                          end
                        else ScanError
                    | [] => ScanError
                    end
                | ScanError => ScanError
                | ScanRaise e => ScanRaise e
                | OutOfFuel => OutOfFuel
                end
              else ScanError
          | [] => ScanError
          end
      | None => ScanError
      end
  end.

(** The number of arrays and objects, one inside the other, that
    [json.load] can enter. *)
Definition decoder_depth : nat := 2 + recursion_headroom.

(** [json.loads(s)]: the BOM check, then [JSONDecoder.decode].  The fuel
    is more than the scanner uses on a text of this length. *)
Definition loads (s : pystr) : result value :=
  if Py.startswith s [0xfeff] then Raise JSONDecodeError
  else
    match scan_once (2 * length s + 1) decoder_depth (skip_ws s) with
    | Scanned v rest =>
        match skip_ws rest with
        | [] => Ok v
        | _ :: _ => Raise JSONDecodeError
        end
    | ScanRaise e => Raise e
    | _ => Raise JSONDecodeError
    end.

End Decoder.

(** *** Encoding ([json.dump] with [indent=2, ensure_ascii=False]) *)

Definition hex_char (d : N) : N := if d <? 10 then 48 + d else 87 + d.

(** [ESCAPE_DCT] *)
Definition escape_char (c : N) : pystr :=
  if c =? DQUOTE then [BACKSLASH; DQUOTE]
  else if c =? BACKSLASH then [BACKSLASH; BACKSLASH]
  else if c =? 8 then [BACKSLASH; ord "b"]
  else if c =? 12 then [BACKSLASH; ord "f"]
  else if c =? 10 then [BACKSLASH; ord "n"]
  else if c =? 13 then [BACKSLASH; ord "r"]
  else if c =? 9 then [BACKSLASH; ord "t"]
  else if c <? 32 then BACKSLASH :: str "u00" ++ [hex_char (c / 16); hex_char (c mod 16)]
  else [c].

Definition encode_basestring (s : pystr) : pystr :=
  DQUOTE :: (s ≫= escape_char) ++ [DQUOTE].

Fixpoint uint_digits (u : Decimal.uint) : pystr :=
  match u with
  | Decimal.Nil => []
  | Decimal.D0 u => ord "0" :: uint_digits u
  | Decimal.D1 u => ord "1" :: uint_digits u
  | Decimal.D2 u => ord "2" :: uint_digits u
  | Decimal.D3 u => ord "3" :: uint_digits u
  | Decimal.D4 u => ord "4" :: uint_digits u
  | Decimal.D5 u => ord "5" :: uint_digits u
  | Decimal.D6 u => ord "6" :: uint_digits u
  | Decimal.D7 u => ord "7" :: uint_digits u
  | Decimal.D8 u => ord "8" :: uint_digits u
  | Decimal.D9 u => ord "9" :: uint_digits u
  end.

(** [int.__repr__] *)
Definition int_repr (z : Z) : pystr :=
  match z with
  | Z0 => str "0"
  | Zpos p => uint_digits (Pos.to_uint p)
  | Zneg p => ord "-" :: uint_digits (Pos.to_uint p)
  end.

Section Encoder.
Context `{Env}.

(** The text of a value that the encoder yields in one piece. *)
Definition atom (v : value) : option pystr :=
  match v with
  | PyStr s => Some (encode_basestring s)
  | PyNone => Some (str "null")
  | PyBool true => Some (str "true")
  | PyBool false => Some (str "false")
  | PyInt z => Some (int_repr z)
  | PyFloat l => Some (float_repr l)
  | PyList _ | PyDict _ => None
  end.

Definition newline_indent (level : nat) : pystr :=
  NEWLINE :: replicate (2 * level) SPACE.

(** [_iterencode], [_iterencode_list] and [_iterencode_dict]: the chunks
    handed to [fp.write], in order.  In a list, [buf] is the text that
    precedes the item: the bracket or the separator. *)
Fixpoint iterencode (level : nat) (o : value) : list pystr :=
  match o with
  | PyList [] => [str "[]"]
  | PyList lst =>
      (fix items (first : bool) (l : list value) : list pystr :=
         match l with
         | [] => []
         | v :: l' =>
             let buf := (if first then str "[" else str ",") ++ newline_indent (S level) in
             match atom v with
             | Some t => [buf ++ t]
             | None => buf :: iterencode (S level) v
             end ++ items false l'
         end) true lst
      ++ [newline_indent level; str "]"]
  | PyDict [] => [str "{}"]
  | PyDict dct =>
      [str "{"; newline_indent (S level)]
      ++ (fix items (first : bool) (l : list (pystr * value)) : list pystr :=
            match l with
            | [] => []
            | (k, v) :: l' =>
                (if first then [] else [str "," ++ newline_indent (S level)])
                ++ [encode_basestring k; str ": "]
                ++ iterencode (S level) v
                ++ items false l'
            end) true dct
      ++ [newline_indent level; str "}"]
  | _ => match atom o with Some t => [t] | None => [] end
  end.

(** The two loops of [iterencode], by name. *)
Definition list_chunks (level : nat) : bool → list value → list pystr :=
  fix items (first : bool) (l : list value) : list pystr :=
    match l with
    | [] => []
    | v :: l' =>
        let buf := (if first then str "[" else str ",") ++ newline_indent (S level) in
        match atom v with
        | Some t => [buf ++ t]
        | None => buf :: iterencode (S level) v
        end ++ items false l'
    end.

Definition dict_chunks (level : nat) : bool → list (pystr * value) → list pystr :=
  fix items (first : bool) (l : list (pystr * value)) : list pystr :=
    match l with
    | [] => []
    | (k, v) :: l' =>
        (if first then [] else [str "," ++ newline_indent (S level)])
        ++ [encode_basestring k; str ": "]
        ++ iterencode (S level) v
        ++ items false l'
    end.

(** [json.dumps(o, indent=2, ensure_ascii=False)] *)
Definition dumps (o : value) : pystr := concat (iterencode 0 o).

End Encoder.

End Json.

(** ** The [re] module: the three patterns of the source *)

Module Re.

Section Patterns.
Context `{Env}.

(** The class [\w]: alphanumeric or the underscore. *)
Definition isword (c : N) : bool := unicode_isalnum c || (c =? ord "_").

(** [re.findall(r'\b\w+\b', s)]: a match starts at a word boundary, takes
    word characters greedily and must end at a word boundary, so the
    matches are the maximal runs of word characters, left to right.
    [cur] is the run being read. *)
Fixpoint word_runs (cur : pystr) (s : pystr) : list pystr :=
  match s with
  | [] => match cur with [] => [] | _ => [cur] end
  | c :: s' =>
      if isword c then word_runs (cur ++ [c]) s'
      else match cur with [] => [] | _ => [cur] end ++ word_runs [] s'
  end.

Definition findall_words (s : pystr) : list pystr := word_runs [] s.

End Patterns.

Definition is_terminator (c : N) : bool :=
  (c =? ord ".") || (c =? ord "!") || (c =? ord "?").

(** [re.split(r'(?<=[.!?]) +', text)]: a separator is a run of spaces that
    follows a terminator; it is taken greedily, so it is the whole run.
    [cur] is the piece being read, [after_terminator] tells whether the
    previous character is one of [.!?], [in_separator] whether the previous
    character belongs to a separator. *)
Fixpoint split_from (cur : pystr) (after_terminator in_separator : bool)
    (s : pystr) : list pystr :=
  match s with
  | [] => [cur]
  | c :: s' =>
      if c =? SPACE then
        if in_separator then split_from cur false true s'
        else if after_terminator then cur :: split_from [] false true s'
        else split_from (cur ++ [c]) false false s'
      else split_from (cur ++ [c]) (is_terminator c) false s'
  end.

Definition split_sentences (text : pystr) : list pystr :=
  split_from [] false false text.

(** [re.sub(r'\s+', ' ', content)]: every maximal run of white space
    becomes one space. *)
Fixpoint sub_whitespace_from (in_run : bool) (s : pystr) : pystr :=
  match s with
  | [] => []
  | c :: s' =>
      if Py.isspace c
      then (if in_run then [] else [SPACE]) ++ sub_whitespace_from true s'
      else c :: sub_whitespace_from false s'
  end.

Definition sub_whitespace (content : pystr) : pystr :=
  sub_whitespace_from false content.

End Re.

(** ** [os.path] (POSIX) *)

Module OsPath.

(** [os.path.join(a, b)] *)
Definition join (a b : pystr) : pystr :=
  if Py.startswith b (str "/") then b
  else match a with
       | [] => b
       | _ => if Py.endswith a (str "/") then a ++ b else a ++ str "/" ++ b
       end.

(** The loop of [genericpath._splitext] that skips the leading dots of the
    file name: [true] when a character other than the dot is met before
    [dotIndex]. *)
Fixpoint has_non_dot (between : pystr) : bool :=
  match between with
  | [] => false
  | c :: l => if c =? ord "." then has_non_dot l else true
  end.

(** [os.path.splitext(p)] *)
Definition splitext (p : pystr) : pystr * pystr :=
  let sepIndex := Py.rfind p (ord "/") in
  let dotIndex := Py.rfind p (ord ".") in
  if (sepIndex <? dotIndex)%Z then
    let filenameIndex := (sepIndex + 1)%Z in
    if has_non_dot (Py.slice p filenameIndex dotIndex)
    then (Py.slice_to p dotIndex, Py.slice_from p dotIndex)
    else (p, [])
  else (p, []).

End OsPath.

(** ** Files, the clock and the monad of the handlers

    A file that holds UTF-8 carries its decoded text.  For any other file
    only what a reader that ignores decoding errors gets is kept.  Failures
    of the operating system (permissions, a full disk) are not modelled. *)

Inductive file :=
  | Utf8 (text : pystr)
  | NotUtf8 (lenient : pystr).

Record world := World {
  files : gmap pystr file;
  clock_reads : nat
}.

(** A computation returns a value or raises, and leaves a world behind in
    both cases. *)
Definition M (A : Type) : Type := world → result A * world.

Definition ret {A} (a : A) : M A := λ w, (Ok a, w).
Definition raise {A} (e : exn) : M A := λ w, (Raise e, w).
Definition bind {A B} (m : M A) (k : A → M B) : M B :=
  λ w, match m w with
       | (Ok a, w') => k a w'
       | (Raise e, w') => (Raise e, w')
       end.
Definition lift {A} (r : result A) : M A := λ w, (r, w).

(** [try: m  except ...: handler e]; a handler that does not catch [e]
    raises it again. *)
Definition try_except {A} (m : M A) (handler : exn → M A) : M A :=
  λ w, match m w with
       | (Ok a, w') => (Ok a, w')
       | (Raise e, w') => handler e w'
       end.

Declare Scope py_scope.
Delimit Scope py_scope with py.
Notation "x <- m ;; k" := (bind m (λ x, k))
  (at level 100, m at next level, right associativity) : py_scope.
Notation "m ;; k" := (bind m (λ _, k))
  (at level 100, right associativity) : py_scope.
Open Scope py_scope.

(** [for x in l: body x], where the body may update an accumulator. *)
Fixpoint for_each {A B} (body : B → A → M B) (acc : B) (l : list A) : M B :=
  match l with
  | [] => ret acc
  | x :: l' => acc' <- body acc x ;; for_each body acc' l'
  end.

(** The code points the [utf-8] codec encodes: all but the surrogates. *)
Definition encodable (c : N) : bool :=
  (c <? 0xd800) || (0xdfff <? c) && (c <=? 0x10ffff).

(** [f.write(chunk)] for each chunk: a chunk that cannot be encoded raises
    and ends the writing. *)
Fixpoint write_all (written : pystr) (chunks : list pystr) : result unit * pystr :=
  match chunks with
  | [] => (Ok (), written)
  | chunk :: rest =>
      if forallb encodable chunk then write_all (written ++ chunk) rest
      else (Raise UnicodeEncodeError, written)
  end.

(** [with open(path, 'w', encoding='utf-8') as f:] followed by the writes
    of the chunks.  Opening truncates the file; what was written before a
    failure stays in the file. *)
Definition open_write (path : pystr) (chunks : list pystr) : M unit :=
  λ w, let '(r, content) := write_all [] chunks in
       (r, World (<[path := Utf8 content]> (files w)) (clock_reads w)).

(** Text files are read with universal newlines: [\r\n] and [\r] become
    [\n]. *)
Fixpoint universal_newlines (s : pystr) : pystr :=
  match s with
  | [] => []
  | c :: s' =>
      if c =? 13 then
        NEWLINE :: match s' with
                   | d :: s'' => if d =? 10 then universal_newlines s''
                                 else universal_newlines s'
                   | [] => []
                   end
      else c :: universal_newlines s'
  end.

(** [with open(path, 'r', encoding='utf-8') as f: f.read()] *)
Definition open_read (path : pystr) : M pystr :=
  λ w, match files w !! path with
       | Some (Utf8 text) => (Ok (universal_newlines text), w)
       | Some (NotUtf8 _) => (Raise UnicodeDecodeError, w)
       | None => (Raise FileNotFoundError, w)
       end.

(** The same with [errors="ignore"]. *)
Definition open_read_ignore (path : pystr) : M pystr :=
  λ w, match files w !! path with
       | Some (Utf8 text) => (Ok (universal_newlines text), w)
       | Some (NotUtf8 lenient) => (Ok (universal_newlines lenient), w)
       | None => (Raise FileNotFoundError, w)
       end.

(** [os.path.exists(path)] *)
Definition path_exists (path : pystr) : M bool :=
  λ w, (Ok (bool_decide (is_Some (files w !! path))), w).

(** [datetime.now()]: the number of the reading. *)
Definition now : M nat :=
  λ w, (Ok (clock_reads w), World (files w) (S (clock_reads w))).

(** ** Operations on Python values *)

(** [needle in container] for a string [needle]. *)
Definition str_in (needle : pystr) (container : value) : result bool :=
  match container with
  | PyList l =>
      Ok (existsb (λ v, match v with
                        | PyStr s => bool_decide (s = needle)
                        | _ => false
                        end) l)
  | PyDict d => Ok (existsb (λ kv, bool_decide (kv.1 = needle)) d)
  | PyStr s => Ok (Py.contains s needle)
  | _ => Raise TypeError
  end.

(** [iter(v)]: the items of a list, the keys of a dict, the characters of
    a string. *)
Definition py_iter (v : value) : result (list value) :=
  match v with
  | PyList l => Ok l
  | PyDict d => Ok ((λ kv, PyStr kv.1) <$> d)
  | PyStr s => Ok ((λ c, PyStr [c]) <$> s)
  | _ => Raise TypeError
  end.

(** [v[key]] for a string [key], and [v[0]]. *)
Definition getitem_str (v : value) (key : pystr) : result value :=
  match v with
  | PyDict d => match dict_get d key with Some x => Ok x | None => Raise KeyError end
  | _ => Raise TypeError
  end.

Definition getitem_0 (v : value) : result value :=
  match v with
  | PyList (x :: _) => Ok x
  | PyList [] => Raise IndexError
  | PyStr (c :: _) => Ok (PyStr [c])
  | PyStr [] => Raise IndexError
  | PyDict _ => Raise KeyError
  | _ => Raise TypeError
  end.

(** [v[key] = x] for a string [key]. *)
Definition setitem_str (v : value) (key : pystr) (x : value) : result value :=
  match v with
  | PyDict d => Ok (PyDict (dict_set d key x))
  | _ => Raise TypeError
  end.

(** [v.strip()] and [v.lower()] on a value: only strings have them. *)
Definition value_strip (v : value) : result pystr :=
  match v with
  | PyStr s => Ok (Py.strip s)
  | _ => Raise AttributeError
  end.

(** [not v] for an optional string: [None] and the empty string are false. *)
Definition falsy (v : option pystr) : bool :=
  match v with
  | None => true
  | Some [] => true
  | Some (_ :: _) => false
  end.

(** [str(e)] *)
Definition exn_str `{Env} (e : exn) : pystr :=
  match e with
  | Exception descr => descr
  | _ => exn_message e
  end.

(** ** iaserver.py *)

Definition KNOWLEDGE_FILE : pystr := str "knowledge.json".
Definition ALLOWED_EXTENSIONS : gset pystr := {[ str ".txt"; str ".py"; str ".pdf" ]}.
Definition SESSIONS_DIR : pystr := str "sessions".
Definition SESSION_FILE : pystr := OsPath.join SESSIONS_DIR (str "session.json").
Definition UPLOAD_FOLDER : pystr := str "uploads".

(** What a route returns: [jsonify(body), status]. *)
Record response := Response {
  status : nat;
  body : value
}.

Definition jsonify (v : value) : response := Response 200 v.

(** An entry of [request.files]: the name the client gave, the bytes it
    sent as they will be once stored, and what [file.save] raises, if it
    does. *)
Record file_storage := FileStorage {
  filename : pystr;
  payload : file;
  save_raises : option exn
}.

(** [file.save(dst)] *)
Definition file_save (f : file_storage) (dst : pystr) : M unit :=
  λ w, match save_raises f with
       | Some e => (Raise e, w)
       | None => (Ok (), World (<[dst := payload f]> (files w)) (clock_reads w))
       end.

Section Server.
Context `{Env}.

(** *** Knowledge handling *)

Definition load_knowledge : M value :=
  present <- path_exists KNOWLEDGE_FILE ;;
  (if present : bool then ret () else open_write KNOWLEDGE_FILE [str "[]"]) ;;
  text <- open_read KNOWLEDGE_FILE ;;
  try_except (lift (Json.loads text))
    (λ e, match e with
          | JSONDecodeError => ret (PyList [])
          | _ => raise e
          end).

Definition save_knowledge (data : value) : M unit :=
  open_write KNOWLEDGE_FILE (Json.iterencode 0 data).

Definition extract_text (content : pystr) (filename : option pystr) : pystr :=
  let content :=
    match filename with
    | Some (c :: fn) =>
        if Py.endswith (c :: fn) (str ".html") || Py.endswith (c :: fn) (str ".php")
        then get_text content
        else content
    | _ => content
    end in
  Py.strip (Re.sub_whitespace content).

(** [knowledge.extend(new)] *)
Definition list_extend (knowledge : value) (new : list pystr) : result value :=
  match knowledge with
  | PyList l => Ok (PyList (l ++ (PyStr <$> new)))
  | _ => Raise AttributeError
  end.

Definition add_to_knowledge (text : pystr) : M nat :=
  let sentences := Re.split_sentences text in
  let sentences :=
    Py.strip <$> filter (λ s, (5 < length (Py.strip s))%nat) sentences in
  knowledge <- load_knowledge ;;
  new <- for_each (λ new s,
           present <- lift (str_in s knowledge) ;;
           ret (if present : bool then new else new ++ [s])) [] sentences ;;
  knowledge <- lift (list_extend knowledge new) ;;
  save_knowledge knowledge ;;
  ret (length new).

(** *** Session handling *)

Definition load_session : M value :=
  present <- path_exists SESSION_FILE ;;
  if present : bool then
    text <- open_read SESSION_FILE ;;
    try_except (lift (Json.loads text))
      (λ e, match e with
            | JSONDecodeError => ret (PyList [])
            | _ => raise e
            end)
  else ret (PyList []).

(** The body of the loop that gives a timestamp to a message without one. *)
Definition stamp (msg : value) : M value :=
  present <- lift (str_in (str "timestamp") msg) ;;
  if present : bool then ret msg
  else
    n <- now ;;
    lift (setitem_str msg (str "timestamp") (PyStr (now_isoformat n))).

(** [for msg in session_data: ...]: the items of a list are updated in
    place; the keys of a dict and the characters of a string cannot be. *)
Definition stamp_all (session_data : value) : M value :=
  match session_data with
  | PyList l =>
      l' <- for_each (λ done msg, msg' <- stamp msg ;; ret (done ++ [msg'])) [] l ;;
      ret (PyList l')
  | _ =>
      msgs <- lift (py_iter session_data) ;;
      for_each (λ _ msg, stamp msg ;; ret ()) () msgs ;;
      ret session_data
  end.

Definition save_session (session_data : value) : M unit :=
  session_data <- stamp_all session_data ;;
  open_write SESSION_FILE (Json.iterencode 0 session_data).

Definition save_session_timestamped : M pystr :=
  session <- load_session ;;
  session <- stamp_all session ;;
  n <- now ;;
  let timestamp := now_strftime n in
  let filename := OsPath.join SESSIONS_DIR (str "session_" ++ timestamp ++ str ".json") in
  open_write filename (Json.iterencode 0 session) ;;
  ret filename.

(** *** Chat logic *)

(** [set(re.findall(r'\b\w+\b', s.lower()))] *)
Definition words (s : pystr) : gset pystr :=
  list_to_set (Re.findall_words (unicode_lower s)).

(** The body of the loop of [best_knowledge_match], on the pair
    [(best_match, best_score)]. *)
Definition consider (user_words : gset pystr) (best : option pystr * nat)
    (sentence : pystr) : option pystr * nat :=
  let sentence_words := words sentence in
  let overlap := size (user_words ∩ sentence_words) in
  if (best.2 <? overlap)%nat then (Some sentence, overlap) else best.

Definition best_knowledge_match (user_input : pystr) (knowledge : value)
  : M (option pystr) :=
  let user_words := words user_input in
  sentences <- lift (py_iter knowledge) ;;
  best <- for_each (λ best sentence,
            match sentence with
            | PyStr sentence => ret (consider user_words best sentence)
            | _ => raise AttributeError
            end) (None, 0%nat) sentences ;;
  ret (if (3 <=? best.2)%nat then best.1 else None).

(** *** Routes *)

Definition reply_of (text : pystr) : response :=
  jsonify (PyDict [(str "from", PyStr (str "IA")); (str "reply", PyStr text)]).

(** [llm.create_completion(...)] *)
Definition llm_create_completion (prompt : pystr) : M value :=
  λ w, (create_completion (clock_reads w) prompt, w).

(** [request.json.get("message", "")] *)
Definition get_message (request_json : value) : result value :=
  match request_json with
  | PyDict d => Ok (default (PyStr []) (dict_get d (str "message")))
  | _ => Raise AttributeError
  end.

Definition MODEL_ERROR : pystr := [0x26a0; 0xfe0f] ++ str " Model error: ".

Definition chat (request_json : value) : M response :=
  message <- lift (get_message request_json) ;;
  user_input <- lift (value_strip message) ;;
  match user_input with
  | [] => ret (reply_of (str "Say something..."))
  | _ :: _ =>
      knowledge <- load_knowledge ;;
      matched_reply <- best_knowledge_match user_input knowledge ;;
      matched_reply <-
        (if falsy matched_reply then
           try_except
             (completion <- llm_create_completion
                              (str "[INST] " ++ user_input ++ str " [/INST]") ;;
              choices <- lift (getitem_str completion (str "choices")) ;;
              choice <- lift (getitem_0 choices) ;;
              text <- lift (getitem_str choice (str "text")) ;;
              lift (value_strip text))
             (λ e, ret (MODEL_ERROR ++ exn_str e))
         else ret (default [] matched_reply)) ;;
      session <- load_session ;;
      n <- now ;;
      let timestamp_now := now_isoformat n in
      session <-
        match session with
        | PyList l =>
            ret (PyList (l ++ [PyDict [(str "user", PyStr user_input);
                                       (str "bot", PyStr matched_reply);
                                       (str "timestamp", PyStr timestamp_now)]]))
        | _ => raise AttributeError
        end ;;
      save_session session ;;
      ret (reply_of matched_reply)
  end.

Definition error_of (code : nat) (text : pystr) : response :=
  Response code (PyDict [(str "error", PyStr text)]).

Definition message_of (text : pystr) : response :=
  jsonify (PyDict [(str "message", PyStr text)]).

Definition upload_file (file : option file_storage) : M response :=
  match file with
  | None => ret (error_of 400 (str "No file."))
  | Some file =>
      match filename file with
      | [] => ret (error_of 400 (str "No file."))
      | _ :: _ =>
          let name := unicode_lower (filename file) in
          let ext := (OsPath.splitext name).2 in
          if bool_decide (ext ∉ ALLOWED_EXTENSIONS) then
            ret (error_of 403
                   ([0x26d4] ++ str " Unsupported file type '" ++ ext ++ str "'."))
          else
            let save_path := OsPath.join UPLOAD_FOLDER name in
            failed <-
              try_except (file_save file save_path ;; ret None)
                (λ e, ret (Some (error_of 500
                                   ([0x26a0; 0xfe0f] ++ str " Failed to save file: "
                                    ++ exn_str e)))) ;;
            match failed with
            | Some resp => ret resp
            | None =>
                try_except
                  (content <- open_read_ignore save_path ;;
                   let clean := extract_text content (Some name) in
                   added <- add_to_knowledge clean ;;
                   ret (message_of
                          ([0x2705] ++ str " Learned " ++ Json.int_repr (Z.of_nat added)
                           ++ str " new sentences from '" ++ name ++ str "'.")))
                  (λ e, ret (error_of 500
                               ([0x26a0; 0xfe0f] ++ str " Failed to process file: "
                                ++ exn_str e)))
            end
      end
  end.

Definition get_session : M response :=
  session <- load_session ;;
  ret (jsonify session).

Definition save_session_route : M response :=
  filename <- save_session_timestamped ;;
  ret (message_of ([0x1f4be] ++ str " Session saved as " ++ filename ++ str ".")).

End Server.

(** *** The route that learns from a page

    What [learn_url] takes from the network and from the markup parser:
    the page behind a URL and the text a reader sees on it. *)

Class Web := {
  (** [requests.get(url, timeout=15)] followed by [resp.raise_for_status()]:
      [resp.text], or the exception that either call raises; the answer may
      change from one clock reading to the next *)
  requests_get : nat → pystr → result pystr;
  (** [BeautifulSoup(page, "html.parser")], the removal of the tags
      [script], [style], [noscript], [header], [footer], [nav], [form] and
      [aside], then [soup.get_text(separator=' ', strip=True)] *)
  visible_text : pystr → pystr
}.

Section LearnUrl.
Context `{Env} `{Web}.

(** [requests.get(...)] and [resp.raise_for_status()] *)
Definition fetch (url : pystr) : M pystr :=
  λ w, (requests_get (clock_reads w) url, w).

(** [data.get("url", "")] *)
Definition get_url (data : value) : result value :=
  match data with
  | PyDict d => Ok (default (PyStr []) (dict_get d (str "url")))
  | _ => Raise AttributeError
  end.

Definition learn_url (request_json : value) : M response :=
  let data := request_json in
  url <- lift (get_url data) ;;
  url <- lift (value_strip url) ;;
  match url with
  | [] => ret (error_of 400 (str "No URL provided."))
  | _ :: _ =>
      fetched <-
        try_except (page <- fetch url ;; ret (inl page))
          (λ e, ret (inr (error_of 400 (str "Failed to fetch URL: " ++ exn_str e)))) ;;
      match fetched with
      | inr resp => ret resp
      | inl page =>
          let text := visible_text page in
          let clean_text := Py.strip (Re.sub_whitespace text) in
          if (length clean_text <? 20)%nat then
            ret (error_of 400 (str "Extracted content too short to learn from."))
          else
            added <- add_to_knowledge clean_text ;;
            ret (message_of
                   ([0x2705] ++ str " Learned " ++ Json.int_repr (Z.of_nat added)
                    ++ str " new sentences from URL."))
      end
  end.

End LearnUrl.

(** ** An environment for the examples

    ASCII character data, a stopped clock and a completion service that is
    down. *)

Definition ascii_isalnum (c : N) : bool :=
  (48 <=? c) && (c <=? 57) || (65 <=? c) && (c <=? 90) || (97 <=? c) && (c <=? 122).

Definition ascii_lower (c : N) : N :=
  if (65 <=? c) && (c <=? 90) then c + 32 else c.

Definition example_env : Env := {|
  unicode_isalnum := ascii_isalnum;
  unicode_lower := fmap ascii_lower;
  float_repr := λ literal, literal;
  now_isoformat := λ _, str "2025-01-01T00:00:00";
  now_strftime := λ _, str "20250101_000000";
  create_completion := λ _ _, Raise (Exception (str "model not loaded"));
  get_text := λ content, content;
  exn_message := λ _, str "error";
  recursion_headroom := 900;
  int_max_str_digits := 4300
|}.

(** The same with a completion service that answers. *)
Definition answering_env : Env := {|
  unicode_isalnum := ascii_isalnum;
  unicode_lower := fmap ascii_lower;
  float_repr := λ literal, literal;
  now_isoformat := λ _, str "2025-01-01T00:00:00";
  now_strftime := λ _, str "20250101_000000";
  create_completion := λ _ _,
    Ok (PyDict [(str "id", PyStr (str "cmpl-1"));
                (str "choices",
                 PyList [PyDict [(str "text", PyStr (str " Hello there! "));
                                 (str "index", PyInt 0)]])]);
  get_text := λ content, content;
  exn_message := λ _, str "error";
  recursion_headroom := 900;
  int_max_str_digits := 4300
|}.

(** The empty file system, before any clock reading. *)
Definition empty_world : world := World ∅ 0.

(** A network with one page, whose markup is its text. *)
Definition example_web : Web := {|
  requests_get := λ _ url,
    if bool_decide (url = str "http://example.test/page")
    then Ok (str "Rocq is a proof assistant.   It checks   proofs. ok.")
    else Raise (Exception (str "404 Client Error"));
  visible_text := λ page, page
|}.

(** ** Vocabulary of the properties *)

Section Vocabulary.
Context `{Env}.

(** The overlap score of the glossary: the number of distinct lowercase
    word tokens an utterance and a sentence share. *)
Definition score (user_input sentence : pystr) : nat :=
  size (words user_input ∩ words sentence).

(** [sentence], at index [i] of the corpus, has the highest score of the
    corpus and every sentence before it has a strictly lower score. *)
Definition first_best (user_input : pystr) (corpus : list pystr)
    (i : nat) (sentence : pystr) : Prop :=
  corpus !! i = Some sentence
  ∧ (∀ j t, corpus !! j = Some t → (score user_input t ≤ score user_input sentence)%nat)
  ∧ (∀ j t, (j < i)%nat → corpus !! j = Some t →
       (score user_input t < score user_input sentence)%nat).

(** A corpus as [load_knowledge] returns it. *)
Definition corpus_value (corpus : list pystr) : value := PyList (PyStr <$> corpus).

(** The candidates [add_to_knowledge] keeps from a text: the trimmed
    pieces longer than 5 characters, in order. *)
Definition sentences_of (text : pystr) : list pystr :=
  Py.strip <$> filter (λ s, (5 < length (Py.strip s))%nat) (Re.split_sentences text).

(** The chunks [json.dump] writes for the items of a list of strings. *)
Fixpoint corpus_chunks (first : bool) (corpus : list pystr) : list pystr :=
  match corpus with
  | [] => []
  | s :: corpus' =>
      ((if first then str "[" else str ",") ++ Json.newline_indent 1
       ++ Json.encode_basestring s) :: corpus_chunks false corpus'
  end.

(** What [load_knowledge] and [load_session] make of the result of [json.load]. *)
Definition recover (r : result value) : result value :=
  match r with
  | Raise JSONDecodeError => Ok (PyList [])
  | _ => r
  end.

(** A computation that leaves the file at [path] as it found it, whether
    it returns or raises. *)
Definition keeps_file {A} (path : pystr) (m : M A) : Prop :=
  ∀ w, files (m w).2 !! path = files w !! path.

(** Every code point of every string can be encoded in UTF-8. *)
Definition all_encodable (l : list pystr) : Prop :=
  Forall (λ s, forallb encodable s = true) l.

(** Every text [json.dump] writes for the value can be encoded in UTF-8. *)
Fixpoint value_encodable (v : value) : bool :=
  match v with
  | PyStr s => forallb encodable s
  | PyFloat literal => forallb encodable (float_repr literal)
  | PyList l => forallb value_encodable l
  | PyDict d => forallb (λ kv, forallb encodable kv.1 && value_encodable kv.2) d
  | _ => true
  end.

(** A turn of the session log as the session store can keep it: a dict
    whose texts can be encoded in UTF-8. *)
Definition storable_turn (v : value) : bool :=
  match v with
  | PyDict _ => value_encodable v
  | _ => false
  end.

(** The turn [chat] appends to the session. *)
Definition turn_of (user_input reply timestamp : pystr) : value :=
  PyDict [(str "user", PyStr user_input); (str "bot", PyStr reply);
          (str "timestamp", PyStr timestamp)].

(** The two halves of the body of [chat].  First the reply, when the
    knowledge had [matched_reply] for the message: the matched sentence,
    or what the completion service says. *)
Definition reply_to (user_input : pystr) (matched_reply : option pystr) : M pystr :=
  if falsy matched_reply then
    try_except
      (completion <- llm_create_completion
                       (str "[INST] " ++ user_input ++ str " [/INST]") ;;
       choices <- lift (getitem_str completion (str "choices")) ;;
       choice <- lift (getitem_0 choices) ;;
       text <- lift (getitem_str choice (str "text")) ;;
       lift (value_strip text))
      (λ e, ret (MODEL_ERROR ++ exn_str e))
  else ret (default [] matched_reply).

(** Then the recording of the exchange. *)
Definition record (user_input matched_reply : pystr) : M response :=
  session <- load_session ;;
  n <- now ;;
  session <-
    match session with
    | PyList l => ret (PyList (l ++ [turn_of user_input matched_reply (now_isoformat n)]))
    | _ => raise AttributeError
    end ;;
  save_session session ;;
  ret (reply_of matched_reply).

(** The values made of strings, [None], booleans, lists and dicts whose
    keys are distinct: what [json.load] reads back as it was dumped. *)
Fixpoint plain (v : value) : bool :=
  match v with
  | PyNone | PyBool _ | PyStr _ => true
  | PyList l => forallb plain l
  | PyDict d => forallb (λ kv, plain kv.2) d && bool_decide (NoDup (d.*1))
  | PyInt _ | PyFloat _ => false
  end.

(** The value has at most [depth] arrays and objects one inside the
    other. *)
Fixpoint fits (depth : nat) (v : value) {struct v} : bool :=
  match v with
  | PyList l =>
      match depth with
      | O => false
      | S depth => forallb (fits depth) l
      end
  | PyDict d =>
      match depth with
      | O => false
      | S depth => forallb (λ kv, fits depth kv.2) d
      end
  | _ => true
  end.

(** ['timestamp' in d] for the items of a dict. *)
Definition has_timestamp (d : list (pystr * value)) : bool :=
  existsb (λ kv, bool_decide (kv.1 = str "timestamp")) d.

(** Every value of the dict is a string. *)
Definition strings_only (d : list (pystr * value)) : bool :=
  forallb (λ kv, match kv.2 with PyStr _ => true | _ => false end) d.

(** A turn of the session log as the server itself writes it: a dict of
    strings that UTF-8 can encode, with a timestamp. *)
Definition logged_turn (v : value) : bool :=
  match v with
  | PyDict d =>
      strings_only d && bool_decide (NoDup (d.*1)) && value_encodable v && has_timestamp d
  | _ => false
  end.

(** What the loop of [save_session] makes of a message: a message that has
    a timestamp is left as it is, a dict without one gets the time of a
    clock reading as its last item, and nothing else gets through. *)
Definition stamped (msg msg' : value) : Prop :=
  match str_in (str "timestamp") msg with
  | Ok true => msg' = msg
  | Ok false =>
      ∃ d n, msg = PyDict d
             ∧ msg' = PyDict (d ++ [(str "timestamp", PyStr (now_isoformat n))])
  | Raise _ => False
  end.

(** The white space between the words of a text is single spaces: no other
    white space character, no space at either end, no two spaces in a
    row. *)
Fixpoint single_spaced_from (after_space : bool) (s : pystr) : bool :=
  match s with
  | [] => negb after_space
  | c :: s' =>
      if c =? SPACE then negb after_space && single_spaced_from true s'
      else negb (Py.isspace c) && single_spaced_from false s'
  end.

(** The same without the condition on the end of the text. *)
Fixpoint spaced_from (after_space : bool) (s : pystr) : bool :=
  match s with
  | [] => true
  | c :: s' =>
      if c =? SPACE then negb after_space && spaced_from true s'
      else negb (Py.isspace c) && spaced_from false s'
  end.

Definition single_spaced (s : pystr) : bool :=
  match s with
  | [] => true
  | _ => single_spaced_from true s
  end.

End Vocabulary.

(** ** Reasoning about computations *)

Lemma bind_ok {A B} (m : M A) (k : A → M B) w a w' :
  m w = (Ok a, w') → bind m k w = k a w'.
Proof. intros Hm. unfold bind. by rewrite Hm. Qed.

Lemma bind_raise {A B} (m : M A) (k : A → M B) w e w' :
  m w = (Raise e, w') → bind m k w = (Raise e, w').
Proof. intros Hm. unfold bind. by rewrite Hm. Qed.

Lemma for_each_app {A B} (body : B → A → M B) l1 l2 acc w acc' w' :
  for_each body acc l1 w = (Ok acc', w') →
  for_each body acc (l1 ++ l2) w = for_each body acc' l2 w'.
Proof.
  revert acc w. induction l1 as [|x l1 IH]; intros acc w; simpl.
  - unfold ret. by intros [= -> ->].
  - unfold bind. destruct (body acc x w) as [[b|e] w1]; [|done].
    apply IH.
Qed.

(** ** The keyword-overlap matcher *)

Section Matcher.
Context `{Env}.

Lemma match_loop_strings user_words (K : list pystr) best w :
  for_each (λ best sentence,
      match sentence with
      | PyStr sentence => ret (consider user_words best sentence)
      | _ => raise AttributeError
      end) best (PyStr <$> K) w
  = (Ok (foldl (consider user_words) best K), w).
Proof.
  revert best. induction K as [|s K IH]; intros best; simpl; [done|].
  unfold bind at 1, ret at 1. apply IH.
Qed.

Lemma best_knowledge_match_fold user_input K w :
  best_knowledge_match user_input (corpus_value K) w
  = (let best := foldl (consider (words user_input)) (None, 0%nat) K in
     Ok (if (3 <=? best.2)%nat then best.1 else None), w).
Proof.
  unfold best_knowledge_match, corpus_value. simpl.
  unfold bind at 1, lift at 1.
  unfold bind. by rewrite match_loop_strings.
Qed.

(** Sentences that do not beat the best score leave the pair unchanged. *)
Lemma fold_consider_keep u K best :
  (∀ t, t ∈ K → (score u t ≤ best.2)%nat) →
  foldl (consider (words u)) best K = best.
Proof.
  revert best. induction K as [|t K IH]; intros best Hle; simpl; [done|].
  assert (consider (words u) best t = best) as ->.
  { unfold consider. specialize (Hle t (list_elem_of_here _ _)). unfold score in Hle.
    destruct (Nat.ltb_spec best.2 (size (words u ∩ words t))); [lia|done]. }
  apply IH. intros t' Ht'. apply Hle. by right.
Qed.

(** The first sentence with the highest score is the one the loop keeps,
    as soon as its score beats the initial one. *)
Lemma fold_consider_first_best u K i s best :
  first_best u K i s → (best.2 < score u s)%nat →
  foldl (consider (words u)) best K = (Some s, score u s).
Proof.
  revert i best. induction K as [|t K IH]; intros i best (Hi & Hmax & Hbefore) Hlt.
  - done.
  - destruct i as [|i]; simpl in *.
    + injection Hi as ->.
      assert (consider (words u) best s = (Some s, score u s)) as ->.
      { unfold consider. fold (score u s).
        destruct (Nat.ltb_spec best.2 (score u s)); [done|lia]. }
      apply fold_consider_keep. intros t Ht. simpl.
      apply list_elem_of_lookup in Ht as [j Hj]. by apply (Hmax (S j)).
    + apply (IH i).
      * split_and!; [done| |].
        -- intros j t' Hj. by apply (Hmax (S j)).
        -- intros j t' Hj Hl. apply (Hbefore (S j)); [lia|done].
      * assert (score u t < score u s)%nat as Ht by (apply (Hbefore 0%nat); [lia|done]).
        unfold consider. fold (score u t).
        destruct (Nat.ltb_spec best.2 (score u t)); simpl; lia.
Qed.

Lemma first_best_exists u K : K ≠ [] → ∃ i s, first_best u K i s.
Proof.
  induction K as [|t K IH]; [done|]. intros _.
  destruct K as [|t' K].
  { exists 0%nat, t. split_and!; [done| |].
    - intros [|j] t'; simpl; [by intros [= ->]|done].
    - intros j t' Hj; lia. }
  destruct IH as (i & s & Hi & Hmax & Hbefore); [done|].
  destruct (decide (score u s ≤ score u t)%nat) as [Hle|Hgt].
  - exists 0%nat, t. split_and!; [done| |].
    + intros [|j] t''; simpl; [by intros [= ->]|].
      intros Hj. specialize (Hmax j t'' Hj). lia.
    + intros j t'' Hj; lia.
  - exists (S i), s. split_and!; [done| |].
    + intros [|j] t''; simpl; [intros [= ->]; lia|]. apply Hmax.
    + intros [|j] t''; simpl; [intros _ [= ->]; lia|].
      intros Hj. apply Hbefore. lia.
Qed.

(** C1. On a corpus of sentences the matcher returns: for an empty corpus,
    no match; otherwise there is a first sentence with the highest overlap
    score (highest in the corpus, strictly higher than that of every
    earlier sentence), and the matcher returns that sentence if and only if
    its score is at least 3, and no match otherwise.  In particular a best
    score of exactly 2 gives no match and a best score of exactly 3 gives
    the sentence. *)
Theorem best_knowledge_match_first_best (user_input : pystr) (K : list pystr) (w : world) :
  (K = [] → best_knowledge_match user_input (corpus_value K) w = (Ok None, w))
  ∧ (K ≠ [] → ∃ i s, first_best user_input K i s)
  ∧ (∀ i s, first_best user_input K i s →
       best_knowledge_match user_input (corpus_value K) w
       = (Ok (if (3 <=? score user_input s)%nat then Some s else None), w)
       ∧ (score user_input s = 2%nat →
            best_knowledge_match user_input (corpus_value K) w = (Ok None, w))
       ∧ (score user_input s = 3%nat →
            best_knowledge_match user_input (corpus_value K) w = (Ok (Some s), w))).
Proof.
  split_and!.
  - intros ->. by rewrite best_knowledge_match_fold.
  - apply first_best_exists.
  - intros i s Hfb.
    assert (best_knowledge_match user_input (corpus_value K) w
            = (Ok (if (3 <=? score user_input s)%nat then Some s else None), w)) as Heq.
    { rewrite best_knowledge_match_fold.
      destruct (decide (0 < score user_input s)%nat) as [Hpos|Hzero].
      - by rewrite (fold_consider_first_best _ _ i s).
      - rewrite fold_consider_keep.
        + destruct (Nat.leb_spec 3 (score user_input s)); [lia|done].
        + intros t Ht. simpl. destruct Hfb as (_ & Hmax & _).
          apply list_elem_of_lookup in Ht as [j Hj]. specialize (Hmax j t Hj). lia. }
    split_and!; [done| |]; intros Hs; rewrite Heq, Hs; done.
Qed.

End Matcher.

(** ** Decoding what the encoder writes for a list of strings *)

Section StringRoundTrip.

Lemma scanstring_quote r : Json.scanstring (DQUOTE :: r) = Some ([], r).
Proof. done. Qed.

Lemma scanstring_plain c r :
  (c =? DQUOTE) = false → (c =? BACKSLASH) = false → (c <? 32) = false →
  Json.scanstring (c :: r) = Json.push c (Json.scanstring r).
Proof. intros H1 H2 H3. cbn [Json.scanstring]. by rewrite H1, H2, H3. Qed.

Lemma scanstring_letter esc ch r :
  (esc =? ord "u") = false → Json.unescape esc = Some ch →
  Json.scanstring (BACKSLASH :: esc :: r) = Json.push ch (Json.scanstring r).
Proof.
  intros H1 H2. cbn [Json.scanstring].
  change (BACKSLASH =? DQUOTE) with false. change (BACKSLASH =? BACKSLASH) with true.
  cbv iota. by rewrite H1, H2.
Qed.

Lemma scanstring_control h1 h2 h3 h4 uni r :
  Json.decode_uXXXX h1 h2 h3 h4 = Some uni → Json.is_high_surrogate uni = false →
  Json.scanstring (BACKSLASH :: ord "u" :: h1 :: h2 :: h3 :: h4 :: r)
  = Json.push uni (Json.scanstring r).
Proof.
  intros H1 H2. cbn [Json.scanstring].
  change (BACKSLASH =? DQUOTE) with false. change (BACKSLASH =? BACKSLASH) with true.
  change (ord "u" =? ord "u") with true. cbv iota.
  by rewrite H1, H2.
Qed.

Lemma decode_control c :
  c < 32 →
  Json.decode_uXXXX 48 48 (Json.hex_char (c / 16)) (Json.hex_char (c mod 16)) = Some c.
Proof.
  intros Hc.
  assert (c ∈ (N.of_nat <$> seq 0 32)) as Hin.
  { apply list_elem_of_fmap. exists (N.to_nat c). split; [lia|].
    apply elem_of_seq. lia. }
  let l := eval vm_compute in (N.of_nat <$> seq 0 32) in change (c ∈ l) in Hin.
  repeat (apply elem_of_cons in Hin as [->|Hin]; [by vm_compute|]).
  by apply elem_of_nil in Hin.
Qed.

(** The decoder reads back what [encode_basestring] wrote between the
    quotes. *)
Lemma scanstring_escaped s r :
  Json.scanstring ((s ≫= Json.escape_char) ++ DQUOTE :: r) = Some (s, r).
Proof.
  induction s as [|c s IH]; [done|].
  change ((c :: s) ≫= Json.escape_char)
    with (Json.escape_char c ++ (s ≫= Json.escape_char)).
  rewrite <- app_assoc.
  generalize dependent ((s ≫= Json.escape_char) ++ DQUOTE :: r). intros tail IH.
  unfold Json.escape_char.
  destruct (N.eqb_spec c DQUOTE) as [->|Hq].
  { simpl app. rewrite (scanstring_letter _ DQUOTE) by done. by rewrite IH. }
  destruct (N.eqb_spec c BACKSLASH) as [->|Hb].
  { simpl app. rewrite (scanstring_letter _ BACKSLASH) by done. by rewrite IH. }
  destruct (N.eqb_spec c 8) as [->|H8].
  { simpl app. rewrite (scanstring_letter _ 8) by done. by rewrite IH. }
  destruct (N.eqb_spec c 12) as [->|H12].
  { simpl app. rewrite (scanstring_letter _ 12) by done. by rewrite IH. }
  destruct (N.eqb_spec c 10) as [->|H10].
  { simpl app. rewrite (scanstring_letter _ 10) by done. by rewrite IH. }
  destruct (N.eqb_spec c 13) as [->|H13].
  { simpl app. rewrite (scanstring_letter _ 13) by done. by rewrite IH. }
  destruct (N.eqb_spec c 9) as [->|H9].
  { simpl app. rewrite (scanstring_letter _ 9) by done. by rewrite IH. }
  destruct (N.ltb_spec c 32) as [Hlt|Hge].
  - change (BACKSLASH :: str "u00" ++ [Json.hex_char (c / 16); Json.hex_char (c mod 16)])
      with [BACKSLASH; ord "u"; 48; 48; Json.hex_char (c / 16); Json.hex_char (c mod 16)].
    simpl app. rewrite (scanstring_control _ _ _ _ c).
    + by rewrite IH.
    + by apply decode_control.
    + unfold Json.is_high_surrogate. apply andb_false_intro1. apply N.leb_gt. lia.
  - simpl app. rewrite scanstring_plain.
    + by rewrite IH.
    + by apply N.eqb_neq.
    + by apply N.eqb_neq.
    + by apply N.ltb_ge.
Qed.

End StringRoundTrip.

Section CorpusRoundTrip.
Context `{Env}.

Lemma iterencode_corpus s K :
  Json.iterencode 0 (corpus_value (s :: K))
  = corpus_chunks true (s :: K) ++ [Json.newline_indent 0; str "]"].
Proof.
  unfold corpus_value. cbn [fmap list_fmap Json.iterencode]. f_equal.
  match goal with
  | |- _ ++ ?items false _ = _ =>
      assert (∀ first l, items first (PyStr <$> l) = corpus_chunks first l) as Haux
  end.
  { intros first l. revert first. induction l as [|t l IH]; intros first; [done|].
    cbn [fmap list_fmap corpus_chunks Json.atom app]. f_equal.
    - by rewrite app_assoc.
    - apply IH. }
  rewrite Haux. cbn [corpus_chunks Json.atom app]. by rewrite app_assoc.
Qed.

Lemma concat_corpus_chunks first s K :
  concat (corpus_chunks first (s :: K))
  = (if first then str "[" else str ",")
    ++ NEWLINE :: SPACE :: SPACE :: DQUOTE
       :: (s ≫= Json.escape_char) ++ DQUOTE :: concat (corpus_chunks false K).
Proof.
  cbn [corpus_chunks concat]. unfold Json.encode_basestring, Json.newline_indent.
  rewrite <- !app_assoc. f_equal. simpl. by rewrite <- app_assoc.
Qed.

Lemma scan_once_string f depth r :
  Json.scan_once (S f) depth (DQUOTE :: r)
  = match Json.scanstring r with
    | Some (t, rest) => Json.Scanned (PyStr t) rest
    | None => Json.ScanError
    end.
Proof. done. Qed.

Lemma array_items_step f depth vals s :
  Json.array_items (S f) depth vals s
  = match Json.scan_once f depth s with
    | Json.Scanned v rest =>
        match Json.skip_ws rest with
        | c :: s1 =>
            if c =? ord "]" then Json.Scanned (vals ++ [v]) s1
            else if c =? ord ","
            then Json.array_items f depth (vals ++ [v]) (Json.skip_ws s1)
            else Json.ScanError
        | [] => Json.ScanError
        end
    | Json.ScanError => Json.ScanError
    | Json.ScanRaise e => Json.ScanRaise e
    | Json.OutOfFuel => Json.OutOfFuel
    end.
Proof. done. Qed.

(** The loop of [JSONArray] reads the items back, given fuel for one
    iteration per item. *)
Lemma array_items_corpus K s f depth vals :
  (length K + 2 ≤ f)%nat →
  Json.array_items f depth vals
    (DQUOTE :: (s ≫= Json.escape_char)
     ++ DQUOTE :: concat (corpus_chunks false K) ++ [NEWLINE; ord "]"])
  = Json.Scanned (vals ++ (PyStr <$> (s :: K))) [].
Proof.
  revert s f vals. induction K as [|t K IH]; intros s f vals Hf.
  - destruct f as [|[|f]]; [simpl in Hf; lia..|].
    rewrite array_items_step, scan_once_string, scanstring_escaped. done.
  - destruct f as [|[|f]]; [simpl in Hf; lia..|].
    rewrite array_items_step, scan_once_string, scanstring_escaped.
    rewrite concat_corpus_chunks.
    change (Json.skip_ws ((str "," ++ NEWLINE :: SPACE :: SPACE :: DQUOTE
              :: (t ≫= Json.escape_char) ++ DQUOTE :: concat (corpus_chunks false K))
              ++ [NEWLINE; ord "]"]))
      with ((str "," ++ NEWLINE :: SPACE :: SPACE :: DQUOTE
              :: (t ≫= Json.escape_char) ++ DQUOTE :: concat (corpus_chunks false K))
              ++ [NEWLINE; ord "]"]).
    cbn [str fmap list_fmap list_ascii_of_string app].
    change (ord "," =? ord "]") with false. change (ord "," =? ord ",") with true.
    cbv iota.
    change (Json.skip_ws (NEWLINE :: SPACE :: SPACE :: DQUOTE :: ?r)) with (DQUOTE :: r).
    rewrite <- app_assoc. cbn [app].
    rewrite IH by (simpl in Hf; lia).
    by rewrite <- app_assoc.
Qed.

Lemma scan_once_array f depth r :
  Json.scan_once (S f) (S depth) (ord "[" :: NEWLINE :: SPACE :: SPACE :: DQUOTE :: r)
  = match Json.array_items f depth [] (DQUOTE :: r) with
    | Json.Scanned l rest => Json.Scanned (PyList l) rest
    | Json.ScanError => Json.ScanError
    | Json.ScanRaise e => Json.ScanRaise e
    | Json.OutOfFuel => Json.OutOfFuel
    end.
Proof. done. Qed.

Lemma length_concat_corpus_chunks K :
  (length K ≤ length (concat (corpus_chunks false K)))%nat.
Proof.
  induction K as [|s K IH]; [done|].
  rewrite concat_corpus_chunks. simpl. rewrite !length_app. simpl. lia.
Qed.

(** [json.loads] gives back the list of strings [json.dumps] was given. *)
Lemma loads_dumps_corpus K :
  Json.loads (Json.dumps (corpus_value K)) = Ok (corpus_value K).
Proof.
  destruct K as [|s K]; [done|].
  unfold Json.dumps. rewrite iterencode_corpus, concat_app, concat_corpus_chunks.
  change (concat [Json.newline_indent 0; str "]"]) with [NEWLINE; ord "]"].
  cbn [str fmap list_fmap list_ascii_of_string app].
  rewrite <- app_assoc. cbn [app].
  set (r := (s ≫= Json.escape_char) ++ DQUOTE :: concat (corpus_chunks false K)
            ++ [NEWLINE; ord "]"]).
  unfold Json.loads.
  change (Py.startswith (ord "[" :: _) [0xfeff]) with false. cbv iota.
  change (Json.skip_ws (ord "[" :: ?x)) with (ord "[" :: x).
  change Json.decoder_depth with (S (S recursion_headroom)).
  rewrite Nat.add_1_r, scan_once_array. subst r.
  rewrite array_items_corpus; [done|].
  pose proof (length_concat_corpus_chunks K).
  cbn [length]. rewrite !length_app. cbn [length]. rewrite !length_app. lia.
Qed.

Lemma universal_newlines_id s : 13 ∉ s → universal_newlines s = s.
Proof.
  induction s as [|c s IH]; [done|]. intros Hc.
  apply not_elem_of_cons in Hc as [Hc Hs]. cbn [universal_newlines].
  destruct (N.eqb_spec c 13); [done|]. by rewrite IH.
Qed.

Lemma hex_char_not_cr d : Json.hex_char d ≠ 13.
Proof. unfold Json.hex_char. destruct (d <? 10); lia. Qed.

Lemma escape_char_no_cr c : 13 ∉ Json.escape_char c.
Proof.
  pose proof (hex_char_not_cr (c / 16)). pose proof (hex_char_not_cr (c mod 16)).
  unfold Json.escape_char.
  repeat match goal with
         | |- context [if ?b then _ else _] => destruct b eqn:?
         end;
    repeat (apply not_elem_of_cons; split;
            [first [done | congruence
                   | match goal with
                     | Hc : (c =? 13) = false |- _ => apply N.eqb_neq in Hc; congruence
                     end]|]);
    apply not_elem_of_nil.
Qed.

Lemma encode_basestring_no_cr s : 13 ∉ Json.encode_basestring s.
Proof.
  unfold Json.encode_basestring.
  apply not_elem_of_cons; split; [done|].
  apply not_elem_of_app; split; [|by apply not_elem_of_cons; split; [|apply not_elem_of_nil]].
  intros (c & Hc & _)%list_elem_of_bind. by apply escape_char_no_cr in Hc.
Qed.

Lemma corpus_chunks_no_cr first K : 13 ∉ concat (corpus_chunks first K).
Proof.
  revert first. induction K as [|s K IH]; intros first; [apply not_elem_of_nil|].
  cbn [corpus_chunks concat]. rewrite !not_elem_of_app. split_and!.
  - destruct first; by apply not_elem_of_cons; split; [|apply not_elem_of_nil].
  - unfold Json.newline_indent. simpl.
    repeat (apply not_elem_of_cons; split; [done|]). apply not_elem_of_nil.
  - apply encode_basestring_no_cr.
  - apply IH.
Qed.

Lemma dumps_corpus_no_cr K : 13 ∉ Json.dumps (corpus_value K).
Proof.
  destruct K as [|s K].
  - vm_compute. intros Hin. repeat (apply elem_of_cons in Hin as [Hin|Hin]; [done|]).
    by apply elem_of_nil in Hin.
  - unfold Json.dumps. rewrite iterencode_corpus, concat_app.
    apply not_elem_of_app; split; [apply corpus_chunks_no_cr|].
    simpl. repeat (apply not_elem_of_cons; split; [done|]). apply not_elem_of_nil.
Qed.

End CorpusRoundTrip.

(** ** Files *)

Lemma write_all_ok written chunks :
  Forall (λ chunk, forallb encodable chunk = true) chunks →
  write_all written chunks = (Ok (), written ++ concat chunks).
Proof.
  intros Hall. revert written.
  induction Hall as [|chunk chunks Hc _ IH]; intros written; simpl.
  - by rewrite app_nil_r.
  - rewrite Hc, IH. by rewrite app_assoc.
Qed.

Lemma write_all_inv written chunks content :
  write_all written chunks = (Ok (), content) → content = written ++ concat chunks.
Proof.
  revert written. induction chunks as [|chunk chunks IH]; intros written; simpl.
  - intros [= <-]. by rewrite app_nil_r.
  - destruct (forallb encodable chunk); [|done].
    intros ->%IH. by rewrite app_assoc.
Qed.

Lemma open_write_ok path chunks w content :
  write_all [] chunks = (Ok (), content) →
  open_write path chunks w
  = (Ok (), World (<[path := Utf8 content]> (files w)) (clock_reads w)).
Proof. intros Hw. unfold open_write. by rewrite Hw. Qed.

(** ** The knowledge store *)

Section KnowledgeStore.
Context `{Env}.

Lemma load_knowledge_utf8 w text :
  files w !! KNOWLEDGE_FILE = Some (Utf8 text) →
  load_knowledge w = (recover (Json.loads (universal_newlines text)), w).
Proof.
  intros Hf. unfold load_knowledge, bind, path_exists, open_read, try_except, lift, ret.
  rewrite Hf. rewrite bool_decide_eq_true_2 by eauto. cbv beta iota. rewrite Hf.
  unfold raise. destruct (Json.loads (universal_newlines text)) as [v|[]]; done.
Qed.

Lemma load_knowledge_absent w :
  files w !! KNOWLEDGE_FILE = None →
  load_knowledge w
  = (Ok (PyList []),
     World (<[KNOWLEDGE_FILE := Utf8 (str "[]")]> (files w)) (clock_reads w)).
Proof.
  intros Hf. unfold load_knowledge, bind, path_exists, try_except, lift, ret.
  rewrite Hf. rewrite bool_decide_eq_false_2 by (by intros [? ?]).
  unfold open_write, open_read. simpl. by rewrite lookup_insert_eq.
Qed.

Lemma load_knowledge_not_utf8 w lenient :
  files w !! KNOWLEDGE_FILE = Some (NotUtf8 lenient) →
  load_knowledge w = (Raise UnicodeDecodeError, w).
Proof.
  intros Hf. unfold load_knowledge, bind, path_exists, open_read, try_except, lift, ret.
  rewrite Hf. rewrite bool_decide_eq_true_2 by eauto. cbv beta iota. by rewrite Hf.
Qed.

(** Loading a file that holds the dump of a corpus gives the corpus. *)
Lemma load_knowledge_dumped w K :
  files w !! KNOWLEDGE_FILE = Some (Utf8 (Json.dumps (corpus_value K))) →
  load_knowledge w = (Ok (corpus_value K), w).
Proof.
  intros Hf. rewrite (load_knowledge_utf8 _ _ Hf).
  rewrite universal_newlines_id by apply dumps_corpus_no_cr.
  by rewrite loads_dumps_corpus.
Qed.

Lemma str_in_corpus s K : str_in s (corpus_value K) = Ok (bool_decide (s ∈ K)).
Proof.
  unfold str_in, corpus_value. f_equal.
  induction K as [|t K IH]; [done|]. cbn [fmap list_fmap existsb].
  change (list_fmap pystr value PyStr K) with (PyStr <$> K). rewrite IH.
  destruct (decide (t = s)) as [->|Hne].
  - rewrite (bool_decide_eq_true_2 (s = s)) by done.
    by rewrite (bool_decide_eq_true_2 (s ∈ s :: K)) by by left.
  - rewrite (bool_decide_eq_false_2 (t = s)) by done. simpl.
    apply bool_decide_ext. rewrite elem_of_cons.
    split; [by right|by intros [->|?]].
Qed.

(** The loop that selects the new sentences keeps those that are not in
    the corpus as loaded. *)
Lemma select_new K S new w :
  for_each (λ new s,
      present <- lift (str_in s (corpus_value K)) ;;
      ret (if present : bool then new else new ++ [s])) new S w
  = (Ok (new ++ filter (λ s, s ∉ K) S), w).
Proof.
  revert new. induction S as [|s S IH]; intros new; cbn [for_each].
  - by rewrite filter_nil, app_nil_r.
  - unfold bind at 1. unfold bind at 1, lift at 1. rewrite str_in_corpus. unfold ret at 1.
    rewrite IH. destruct (decide (s ∈ K)) as [Hin|Hnin].
    + rewrite bool_decide_eq_true_2 by done.
      by rewrite filter_cons_False by (by intros ?).
    + rewrite bool_decide_eq_false_2 by done. rewrite filter_cons_True by done.
      by rewrite <- app_assoc.
Qed.

(** One run of [add_to_knowledge] on a corpus of sentences. *)
Lemma add_to_knowledge_run text K w w0 :
  load_knowledge w = (Ok (corpus_value K), w0) →
  add_to_knowledge text w
  = let new := filter (λ s, s ∉ K) (sentences_of text) in
    let '(r, content) := write_all [] (Json.iterencode 0 (corpus_value (K ++ new))) in
    (match r with Ok _ => Ok (length new) | Raise e => Raise e end,
     World (<[KNOWLEDGE_FILE := Utf8 content]> (files w0)) (clock_reads w0)).
Proof.
  intros Hload. unfold add_to_knowledge. fold (sentences_of text).
  rewrite (bind_ok _ _ _ _ _ Hload).
  rewrite (bind_ok _ _ _ _ _ (select_new K (sentences_of text) [] w0)).
  cbn [app]. unfold list_extend, corpus_value at 1.
  unfold bind at 1, lift at 1. rewrite <- fmap_app. fold (corpus_value (K ++
    filter (λ s, s ∉ K) (sentences_of text))).
  unfold bind, save_knowledge, open_write, ret. cbv zeta.
  destruct (write_all [] _) as [[[]|e] content]; done.
Qed.

End KnowledgeStore.

(** ** What the encoder writes can be encoded *)

Lemma encodable_ascii c : c < 0xd800 → encodable c = true.
Proof. intros Hc. unfold encodable. apply orb_true_intro. left. by apply N.ltb_lt. Qed.

Lemma hex_char_encodable d : d < 32 → encodable (Json.hex_char d) = true.
Proof.
  intros Hd. apply encodable_ascii. unfold Json.hex_char. destruct (d <? 10); lia.
Qed.

Lemma escape_char_encodable c :
  encodable c = true → forallb encodable (Json.escape_char c) = true.
Proof.
  intros Hc. unfold Json.escape_char.
  repeat match goal with
         | |- context [if ?b then _ else _] => destruct b eqn:?
         end; try done.
  - apply N.ltb_lt in Heqb6. cbn [forallb str fmap list_fmap list_ascii_of_string app].
    rewrite !hex_char_encodable; [done| |].
    + apply N.lt_le_trans with 16; [by apply N.mod_lt|lia].
    + apply N.Div0.div_lt_upper_bound. lia.
  - simpl. by rewrite Hc.
Qed.

Lemma encode_basestring_encodable s :
  forallb encodable s = true → forallb encodable (Json.encode_basestring s) = true.
Proof.
  intros Hs. unfold Json.encode_basestring. cbn [forallb].
  rewrite forallb_app. cbn [forallb]. rewrite !andb_true_r.
  change (encodable DQUOTE) with true. cbn [andb].
  induction s as [|c s IH]; [done|].
  cbn [forallb] in Hs. apply andb_true_iff in Hs as [Hc Hs].
  change ((c :: s) ≫= Json.escape_char)
    with (Json.escape_char c ++ (s ≫= Json.escape_char)).
  rewrite forallb_app, escape_char_encodable by done. by apply IH.
Qed.

Lemma corpus_chunks_encodable first K :
  all_encodable K →
  Forall (λ chunk, forallb encodable chunk = true) (corpus_chunks first K).
Proof.
  intros HK. revert first. induction HK as [|s K Hs _ IH]; intros first; [done|].
  cbn [corpus_chunks]. constructor; [|apply IH].
  rewrite !forallb_app, (encode_basestring_encodable _ Hs).
  by destruct first.
Qed.

Lemma iterencode_corpus_encodable `{Env} K :
  all_encodable K →
  Forall (λ chunk, forallb encodable chunk = true) (Json.iterencode 0 (corpus_value K)).
Proof.
  intros HK. destruct K as [|s K].
  - by repeat constructor.
  - rewrite iterencode_corpus. apply Forall_app. split.
    + by apply corpus_chunks_encodable.
    + by repeat constructor.
Qed.

(** ** Ingestion *)

Section Ingestion.
Context `{Env}.

Lemma lstrip_Forall (P : N → Prop) s : Forall P s → Forall P (Py.lstrip s).
Proof.
  induction 1 as [|c s Hc Hs IH]; simpl; [done|].
  destruct (Py.isspace c); [done|by constructor].
Qed.

Lemma rstrip_Forall (P : N → Prop) s : Forall P s → Forall P (Py.rstrip s).
Proof.
  induction 1 as [|c s Hc Hs IH]; simpl; [done|].
  destruct (Py.rstrip s); [destruct (Py.isspace c); by repeat constructor|].
  by constructor.
Qed.

Lemma strip_Forall (P : N → Prop) s : Forall P s → Forall P (Py.strip s).
Proof. intros Hs. by apply rstrip_Forall, lstrip_Forall. Qed.

Lemma split_from_Forall (P : N → Prop) cur a b s :
  Forall P cur → Forall P s → Forall (Forall P) (Re.split_from cur a b s).
Proof.
  intros Hcur Hs. revert cur a b Hcur.
  induction Hs as [|c s Hc Hs IH]; intros cur a b Hcur; simpl.
  - by repeat constructor.
  - assert (Forall P (cur ++ [c])) by (apply Forall_app; by repeat constructor).
    destruct (c =? SPACE); [destruct b; [|destruct a]|]; auto.
Qed.

Lemma sentences_of_encodable text :
  forallb encodable text = true → all_encodable (sentences_of text).
Proof.
  intros Ht. unfold all_encodable, sentences_of.
  apply Forall_fmap, Forall_forall. intros s (_ & Hs)%list_elem_of_filter. simpl.
  apply forallb_forall. intros c Hc. apply list_elem_of_In in Hc.
  assert (Forall (Forall (λ c, encodable c = true)) (Re.split_sentences text)) as Hall.
  { apply split_from_Forall; [done|].
    apply Forall_forall. intros c' Hc'. apply list_elem_of_In in Hc'.
    by apply (proj1 (forallb_forall _ _) Ht). }
  rewrite Forall_forall in Hall. specialize (Hall s Hs).
  apply (strip_Forall _ _) in Hall. rewrite Forall_forall in Hall. by apply Hall.
Qed.

(** C5, as amended. Saving a corpus of strings that UTF-8 can encode (no
    string holds a lone surrogate) and then loading the knowledge file
    gives the same sequence of strings. *)
Theorem save_knowledge_load_knowledge (corpus : list pystr) (w : world) :
  all_encodable corpus →
  ∃ w', save_knowledge (corpus_value corpus) w = (Ok (), w')
        ∧ load_knowledge w' = (Ok (corpus_value corpus), w').
Proof.
  intros Henc. eexists. split.
  - unfold save_knowledge. apply open_write_ok.
    by apply write_all_ok, iterencode_corpus_encodable.
  - apply load_knowledge_dumped. simpl. by rewrite lookup_insert_eq.
Qed.

Lemma filter_none {A} (P : A → Prop) `{∀ x, Decision (P x)} l :
  (∀ x, x ∈ l → ¬ P x) → filter P l = [].
Proof.
  induction l as [|x l IH]; intros Hl; [done|].
  rewrite filter_cons_False by (apply Hl; by left).
  apply IH. intros y Hy. apply Hl. by right.
Qed.

(** C3, as amended. On a corpus of sentences, a first run of
    [add_to_knowledge] returns whenever UTF-8 can encode the corpus and the
    text, and after a first run that returned a second run on the same text
    returns 0 and leaves every file, the knowledge file included, as the
    first run left it. *)
Theorem add_to_knowledge_idempotent (text : pystr) (K : list pystr) (w w0 : world) :
  load_knowledge w = (Ok (corpus_value K), w0) →
  (all_encodable K → forallb encodable text = true →
     ∃ n w1, add_to_knowledge text w = (Ok n, w1))
  ∧ (∀ n w1, add_to_knowledge text w = (Ok n, w1) →
       add_to_knowledge text w1 = (Ok 0%nat, w1)
       ∧ ∃ new, load_knowledge w1 = (Ok (corpus_value (K ++ new)), w1)
                ∧ length new = n).
Proof.
  intros Hload. rewrite (add_to_knowledge_run _ _ _ _ Hload). cbv zeta.
  set (new := filter (λ s, s ∉ K) (sentences_of text)).
  split.
  - intros HK Ht.
    rewrite write_all_ok; [by eauto|].
    apply iterencode_corpus_encodable, Forall_app. split; [done|].
    apply Forall_forall. intros s (_ & Hs)%list_elem_of_filter.
    pose proof (sentences_of_encodable _ Ht) as Hall.
    unfold all_encodable in Hall. rewrite Forall_forall in Hall. by apply Hall.
  - intros n w1.
    destruct (write_all [] _) as [[[]|e] content] eqn:Hwrite; [|done].
    intros [= <- <-].
    pose proof (write_all_inv _ _ _ Hwrite) as Hcontent. cbn [app] in Hcontent.
    fold (Json.dumps (corpus_value (K ++ new))) in Hcontent. subst content.
    set (w1 := World _ _).
    assert (load_knowledge w1 = (Ok (corpus_value (K ++ new)), w1)) as Hload1.
    { apply load_knowledge_dumped. by apply lookup_insert_eq. }
    split; [|by eauto].
    rewrite (add_to_knowledge_run _ _ _ _ Hload1). cbv zeta.
    rewrite (filter_none (λ s, s ∉ K ++ new)).
    + rewrite app_nil_r, Hwrite. cbn [app]. f_equal.
      subst w1. cbn [files clock_reads]. f_equal. apply insert_insert_eq.
    + intros s Hs Hnot. apply Hnot. apply elem_of_app.
      destruct (decide (s ∈ K)); [by left|right].
      by apply list_elem_of_filter.
Qed.

Lemma filter_not_in_nil (l : list pystr) : filter (λ s, s ∉ []) l = l.
Proof.
  induction l as [|s l IH]; [done|].
  rewrite filter_cons_True by apply not_elem_of_nil. by rewrite IH.
Qed.

(** X6. The corpus stays free of duplicates when the sentences of the text are
    pairwise distinct. *)
Lemma add_to_knowledge_NoDup_distinct (text : pystr) (K : list pystr) (w w0 : world) :
  load_knowledge w = (Ok (corpus_value K), w0) →
  NoDup K → NoDup (sentences_of text) →
  ∀ n w1, add_to_knowledge text w = (Ok n, w1) →
    ∃ K', load_knowledge w1 = (Ok (corpus_value K'), w1) ∧ NoDup K'.
Proof.
  intros Hload HK HS n w1 Hrun.
  rewrite (add_to_knowledge_run _ _ _ _ Hload) in Hrun. cbv zeta in Hrun.
  destruct (write_all [] _) as [[[]|e] content] eqn:Hwrite; [|done].
  injection Hrun as <- <-.
  pose proof (write_all_inv _ _ _ Hwrite) as Hcontent. cbn [app] in Hcontent.
  fold (Json.dumps (corpus_value (K ++ filter (λ s, s ∉ K) (sentences_of text))))
    in Hcontent. subst content.
  eexists. split.
  - apply load_knowledge_dumped. by apply lookup_insert_eq.
  - apply NoDup_app. split_and!; [done| |by apply NoDup_filter].
    intros s Hs (Hnot & _)%list_elem_of_filter. done.
Qed.

(** C2. The corpus can get a duplicate: ingesting, into the empty store, a
    text in which the same qualifying sentence occurs twice stores that
    sentence twice, because the candidates are compared with the corpus as
    it was loaded and not with one another. *)
Theorem add_to_knowledge_stores_repeated_sentence :
  let text := str "Hello world. Hello world." in
  let stored := [str "Hello world."; str "Hello world."] in
  NoDup ([] : list pystr)
  ∧ load_knowledge empty_world
    = (Ok (corpus_value []),
       World (<[KNOWLEDGE_FILE := Utf8 (str "[]")]> ∅) 0)
  ∧ ∃ w1, add_to_knowledge text empty_world = (Ok 2%nat, w1)
          ∧ load_knowledge w1 = (Ok (corpus_value stored), w1)
          ∧ ¬ NoDup stored.
Proof.
  intros text stored.
  assert (load_knowledge empty_world
          = (Ok (corpus_value []),
             World (<[KNOWLEDGE_FILE := Utf8 (str "[]")]> ∅) 0)) as Hload
    by by apply load_knowledge_absent.
  split_and!; [constructor|done|].
  eexists. split_and!.
  - rewrite (add_to_knowledge_run _ _ _ _ Hload).
    assert (sentences_of text = stored) as -> by by vm_compute.
    cbv zeta. rewrite filter_not_in_nil.
    rewrite write_all_ok; [done|].
    apply iterencode_corpus_encodable. by repeat constructor.
  - apply load_knowledge_dumped. cbn [files]. by rewrite lookup_insert_eq.
  - intros Hnd. apply NoDup_cons in Hnd as [Hnot _]. apply Hnot. by left.
Qed.

(** C4, as amended. Ingesting "Hello world. This is fine! Ok?" into an
    empty corpus stores exactly two sentences, "Hello world." and "This is
    fine!", and returns 2: the text is split after a terminator followed by
    spaces into three pieces, each is trimmed, and the piece "Ok?", of
    length 3, is discarded because its length is not above 5. *)
Theorem add_to_knowledge_hello_world (w w0 : world) :
  load_knowledge w = (Ok (corpus_value []), w0) →
  let text := str "Hello world. This is fine! Ok?" in
  Re.split_sentences text = [str "Hello world."; str "This is fine!"; str "Ok?"]
  ∧ length (Py.strip (str "Ok?")) = 3%nat
  ∧ sentences_of text = [str "Hello world."; str "This is fine!"]
  ∧ ∃ w1, add_to_knowledge text w = (Ok 2%nat, w1)
          ∧ load_knowledge w1
            = (Ok (corpus_value [str "Hello world."; str "This is fine!"]), w1).
Proof.
  intros Hload text.
  assert (sentences_of text = [str "Hello world."; str "This is fine!"]) as Hs
    by by vm_compute.
  split_and!; [by vm_compute|done|done|].
  eexists. split.
  - rewrite (add_to_knowledge_run _ _ _ _ Hload), Hs.
    cbv zeta. rewrite filter_not_in_nil.
    rewrite write_all_ok; [done|].
    apply iterencode_corpus_encodable. by repeat constructor.
  - apply load_knowledge_dumped. cbn [files]. by rewrite lookup_insert_eq.
Qed.

(** C6, as amended. When the knowledge file holds UTF-8 text on which
    [json.load] raises [JSONDecodeError], [load_knowledge] returns the
    empty corpus and leaves every file as it is; when the file is absent,
    it creates it holding the empty list and returns the empty corpus. *)
Theorem load_knowledge_invalid_json (w : world) :
  (∀ text, files w !! KNOWLEDGE_FILE = Some (Utf8 text) →
     Json.loads (universal_newlines text) = Raise JSONDecodeError →
     load_knowledge w = (Ok (PyList []), w))
  ∧ (files w !! KNOWLEDGE_FILE = None →
     load_knowledge w
     = (Ok (PyList []),
        World (<[KNOWLEDGE_FILE := Utf8 (str "[]")]> (files w)) (clock_reads w))).
Proof.
  split.
  - intros text Hf Hbad. by rewrite (load_knowledge_utf8 _ _ Hf), Hbad.
  - apply load_knowledge_absent.
Qed.

End Ingestion.

(** C4, as stated, fails: after the ingestion the corpus is not the three
    sentences. *)
Lemma add_to_knowledge_hello_world_not_three :
  let text := str "Hello world. This is fine! Ok?" in
  let w1 := (@add_to_knowledge example_env text empty_world).2 in
  (load_knowledge (H:=example_env) w1).1
  ≠ Ok (corpus_value [str "Hello world."; str "This is fine!"; str "Ok?"]).
Proof. vm_compute. discriminate. Qed.

(** C3, as stated, fails: a corpus can hold a string with a lone surrogate,
    which [json.load] reads from an escape and UTF-8 cannot encode.  The
    first run then raises while it saves and leaves the knowledge file
    empty, and the second run on the same text adds the sentence. *)
Lemma add_to_knowledge_not_idempotent :
  let text := str "Hello world." in
  let stored := str "[" ++ [DQUOTE] ++ str "\ud83d abcdef" ++ [DQUOTE] ++ str "]" in
  let w := World {[ KNOWLEDGE_FILE := Utf8 stored ]} 0 in
  let w1 := (add_to_knowledge (H:=example_env) text w).2 in
  let w2 := (add_to_knowledge (H:=example_env) text w1).2 in
  (load_knowledge (H:=example_env) w).1 = Ok (corpus_value [0xd83d :: str " abcdef"])
  ∧ (add_to_knowledge (H:=example_env) text w).1 = Raise UnicodeEncodeError
  ∧ (add_to_knowledge (H:=example_env) text w1).1 = Ok 1%nat
  ∧ (load_knowledge (H:=example_env) w2).1 = Ok (corpus_value [text]).
Proof. by vm_compute. Qed.

(** C5, as stated, fails: a string with a lone surrogate, which
    [load_knowledge] itself returns for a file that holds the escape, cannot
    be saved; the save raises, and the next load gives the empty corpus. *)
Lemma save_knowledge_surrogate_lost :
  let corpus := [0xd83d :: str " abcdef"] in
  let stored := str "[" ++ [DQUOTE] ++ str "\ud83d abcdef" ++ [DQUOTE] ++ str "]" in
  let w' := (save_knowledge (H:=example_env) (corpus_value corpus) empty_world).2 in
  (load_knowledge (H:=example_env) (World {[ KNOWLEDGE_FILE := Utf8 stored ]} 0)).1
  = Ok (corpus_value corpus)
  ∧ (save_knowledge (H:=example_env) (corpus_value corpus) empty_world).1
    = Raise UnicodeEncodeError
  ∧ (load_knowledge (H:=example_env) w').1 = Ok (PyList [])
  ∧ (load_knowledge (H:=example_env) w').1 ≠ Ok (corpus_value corpus).
Proof. by vm_compute. Qed.

(** C6, as stated, fails: a knowledge file that holds the JSON object [{}]
    is not a corpus, yet it is returned as parsed; a knowledge file that is
    not UTF-8 makes [load_knowledge] raise; and so do a text that opens
    more arrays than the recursion limit allows and a text that holds an
    integer of more digits than [int] converts, neither of which is JSON
    that parses to a corpus. *)
Lemma load_knowledge_not_always_empty :
  let object_world := World {[ KNOWLEDGE_FILE := Utf8 (str "{}") ]} 0 in
  let binary_world := World {[ KNOWLEDGE_FILE := NotUtf8 [] ]} 0 in
  let deep_world := World {[ KNOWLEDGE_FILE := Utf8 (replicate 903 (ord "[")) ]} 0 in
  let digits_world :=
    World {[ KNOWLEDGE_FILE := Utf8 (ord "[" :: replicate 4301 (ord "9")) ]} 0 in
  (∀ K, Json.loads (H:=example_env) (str "{}") ≠ Ok (corpus_value K))
  ∧ (load_knowledge (H:=example_env) object_world).1 = Ok (PyDict [])
  ∧ (load_knowledge (H:=example_env) object_world).1 ≠ Ok (PyList [])
  ∧ (load_knowledge (H:=example_env) binary_world).1 = Raise UnicodeDecodeError
  ∧ (load_knowledge (H:=example_env) deep_world).1 = Raise RecursionError
  ∧ (load_knowledge (H:=example_env) digits_world).1 = Raise ValueError.
Proof.
  split_and!; [|by vm_compute..].
  intros K. by vm_compute.
Qed.

(** ** Frame properties *)

Create HintDb keeps discriminated.

Lemma keeps_file_ret {A} path (a : A) : keeps_file path (ret a).
Proof. done. Qed.

Lemma keeps_file_raise {A} path e : keeps_file path (raise (A:=A) e).
Proof. done. Qed.

Lemma keeps_file_lift {A} path (r : result A) : keeps_file path (lift r).
Proof. done. Qed.

Lemma keeps_file_now path : keeps_file path now.
Proof. done. Qed.

Lemma keeps_file_path_exists path p : keeps_file path (path_exists p).
Proof. done. Qed.

Lemma keeps_file_open_read path p : keeps_file path (open_read p).
Proof. intros w. unfold open_read. by destruct (files w !! p) as [[]|]. Qed.

Lemma keeps_file_open_write path p chunks :
  p ≠ path → keeps_file path (open_write p chunks).
Proof.
  intros Hne w. unfold open_write. destruct (write_all [] chunks). simpl.
  by apply lookup_insert_ne.
Qed.

Lemma keeps_file_bind {A B} path (m : M A) (k : A → M B) :
  keeps_file path m → (∀ a, keeps_file path (k a)) → keeps_file path (bind m k).
Proof.
  intros Hm Hk w. unfold bind. specialize (Hm w).
  destruct (m w) as [[a|e] w1]; simpl in *; [|done]. by rewrite Hk.
Qed.

Lemma keeps_file_try_except {A} path (m : M A) handler :
  keeps_file path m → (∀ e, keeps_file path (handler e)) →
  keeps_file path (try_except m handler).
Proof.
  intros Hm Hh w. unfold try_except. specialize (Hm w).
  destruct (m w) as [[a|e] w1]; simpl in *; [done|]. by rewrite Hh.
Qed.

Lemma keeps_file_for_each {A B} path (body : B → A → M B) acc l :
  (∀ b a, keeps_file path (body b a)) → keeps_file path (for_each body acc l).
Proof.
  intros Hbody. revert acc. induction l as [|x l IH]; intros acc; simpl.
  - apply keeps_file_ret.
  - apply keeps_file_bind; [apply Hbody|apply IH].
Qed.

#[export] Hint Resolve keeps_file_ret keeps_file_raise keeps_file_lift keeps_file_now
  keeps_file_path_exists keeps_file_open_read : keeps.
#[export] Hint Extern 2 (keeps_file _ (bind _ _)) =>
  apply keeps_file_bind; [|intros ?] : keeps.
#[export] Hint Extern 2 (keeps_file _ (try_except _ _)) =>
  apply keeps_file_try_except; [|intros ?] : keeps.
#[export] Hint Extern 2 (keeps_file _ (for_each _ _ _)) =>
  apply keeps_file_for_each; intros ? ? : keeps.
#[export] Hint Extern 3 (keeps_file _ (match ?x with _ => _ end)) => destruct x : keeps.

Section SessionStore.
Context `{Env}.

Lemma keeps_file_load_session path : keeps_file path load_session.
Proof. unfold load_session. auto 10 with keeps. Qed.

Lemma keeps_file_stamp path msg : keeps_file path (stamp msg).
Proof. unfold stamp. auto 10 with keeps. Qed.

Lemma keeps_file_stamp_all path session : keeps_file path (stamp_all session).
Proof.
  pose proof (keeps_file_stamp path).
  unfold stamp_all. destruct session; auto 10 with keeps.
Qed.

Lemma archive_name_not_current timestamp :
  OsPath.join SESSIONS_DIR (str "session_" ++ timestamp ++ str ".json") ≠ SESSION_FILE.
Proof. by vm_compute. Qed.

(** C10. Archiving never writes to the current session file: whatever the
    files hold and whether the archiving returns or raises, the current
    session file is afterwards exactly what it was before, absent if it was
    absent.  Timestamps given during archiving therefore only reach the
    archive. *)
Theorem save_session_timestamped_keeps_current (w : world) :
  files (save_session_timestamped w).2 !! SESSION_FILE = files w !! SESSION_FILE.
Proof.
  revert w. change (keeps_file SESSION_FILE save_session_timestamped).
  unfold save_session_timestamped.
  apply keeps_file_bind; [apply keeps_file_load_session|intros session].
  apply keeps_file_bind; [apply keeps_file_stamp_all|intros session'].
  apply keeps_file_bind; [apply keeps_file_now|intros n].
  apply keeps_file_bind; [|intros _; apply keeps_file_ret].
  apply keeps_file_open_write, archive_name_not_current.
Qed.

End SessionStore.

(** ** Routes *)

Section Routes.
Context `{Env}.

Lemma lstrip_blank s : forallb Py.isspace s = true → Py.lstrip s = [].
Proof.
  induction s as [|c s IH]; [done|]. cbn [forallb Py.lstrip].
  intros [Hc Hs]%andb_true_iff. rewrite Hc. by apply IH.
Qed.

Lemma strip_blank s : forallb Py.isspace s = true → Py.strip s = [].
Proof. intros Hs. unfold Py.strip. by rewrite lstrip_blank. Qed.

(** C8. A [/chat] request whose message is absent, empty or made of white
    space only gets the canned reply, and the handler leaves the world as
    it found it: no file is created or changed, the knowledge file and the
    session file included. *)
Theorem chat_blank_message (request_json : value) (message : pystr) (w : world) :
  get_message request_json = Ok (PyStr message) →
  forallb Py.isspace message = true →
  chat request_json w = (Ok (reply_of (str "Say something...")), w).
Proof.
  intros Hget Hblank. unfold chat.
  unfold bind at 1, lift at 1. rewrite Hget.
  unfold bind at 1, lift at 1. cbn [value_strip].
  by rewrite (strip_blank _ Hblank).
Qed.

(** C9. For an upload that carries a named file, the handler lowercases the
    name before it takes the extension, always answers, and answers 403 if
    and only if the extension of the lowercased name is none of [.txt],
    [.py] and [.pdf]. *)
Theorem upload_file_extension_check (file : file_storage) (w : world) :
  filename file ≠ [] →
  let ext := (OsPath.splitext (unicode_lower (filename file))).2 in
  ∃ resp w', upload_file (Some file) w = (Ok resp, w')
    ∧ (status resp = 403%nat
       ↔ ¬ (ext = str ".txt" ∨ ext = str ".py" ∨ ext = str ".pdf")).
Proof.
  intros Hname. unfold upload_file.
  destruct (filename file) as [|c name] eqn:Hfile; [done|]. rewrite <- Hfile.
  clear c name Hfile Hname.
  set (ext := (OsPath.splitext (unicode_lower (filename file))).2).
  assert (ext ∉ ALLOWED_EXTENSIONS
          ↔ ¬ (ext = str ".txt" ∨ ext = str ".py" ∨ ext = str ".pdf")) as Hallowed.
  { unfold ALLOWED_EXTENSIONS. rewrite !elem_of_union, !elem_of_singleton. tauto. }
  destruct (decide (ext ∉ ALLOWED_EXTENSIONS)) as [Hout|Hin].
  - rewrite bool_decide_eq_true_2 by done. unfold ret.
    eexists _, _. split; [done|]. simpl. by rewrite <- Hallowed.
  - rewrite bool_decide_eq_false_2 by done.
    assert (∀ resp : response, (status resp = 200%nat ∨ status resp = 500%nat) →
              status resp = 403%nat
              ↔ ¬ (ext = str ".txt" ∨ ext = str ".py" ∨ ext = str ".pdf")) as Hother.
    { intros resp Hs. rewrite <- Hallowed. split; [|done]. intros ?. lia. }
    unfold bind at 1. unfold try_except at 1. unfold bind at 1.
    destruct (file_save file _ w) as [[[]|e] w1].
    + unfold ret at 1. unfold try_except. unfold bind at 1.
      destruct (open_read_ignore _ w1) as [[content|e] w2].
      * unfold bind.
        destruct (add_to_knowledge _ w2) as [[added|e] w3]; unfold ret;
          eexists _, _; (split; [done|]); apply Hother; simpl; auto.
      * unfold ret. eexists _, _. split; [done|]. apply Hother. by right.
    + unfold ret. eexists _, _. split; [done|]. apply Hother. by right.
Qed.

End Routes.

(** ** What the encoder writes for any value *)

Lemma value_nested_ind (P : value → Prop) :
  P PyNone → (∀ b, P (PyBool b)) → (∀ z, P (PyInt z)) → (∀ l, P (PyFloat l)) →
  (∀ s, P (PyStr s)) →
  (∀ l, Forall P l → P (PyList l)) →
  (∀ d, Forall (λ kv, P kv.2) d → P (PyDict d)) →
  ∀ v, P v.
Proof.
  intros HN HB HI HF HS HL HD. fix IH 1.
  intros [|b|z|l|s|l|d]; [exact HN|exact (HB b)|exact (HI z)|exact (HF l)|exact (HS s)| |].
  - apply HL. revert l. fix IHl 1. intros [|x l]; constructor; [apply IH|apply IHl].
  - apply HD. revert d. fix IHd 1. intros [|[k x] d]; constructor; [apply IH|apply IHd].
Qed.

Lemma uint_digits_encodable u : forallb encodable (Json.uint_digits u) = true.
Proof. induction u; simpl; auto. Qed.

Lemma int_repr_encodable z : forallb encodable (Json.int_repr z) = true.
Proof. destruct z; simpl; auto using uint_digits_encodable. Qed.

Lemma newline_indent_encodable level :
  forallb encodable (Json.newline_indent level) = true.
Proof.
  unfold Json.newline_indent. cbn [forallb]. change (encodable NEWLINE) with true.
  cbn [andb]. induction (2 * level)%nat as [|n IH]; [done|]. simpl. by rewrite IH.
Qed.

Section EncodableValues.
Context `{Env}.

Abbreviation chunks_encodable := (Forall (λ chunk, forallb encodable chunk = true)).

Lemma atom_encodable v t :
  value_encodable v = true → Json.atom v = Some t → forallb encodable t = true.
Proof.
  destruct v as [|[]| | | | |]; simpl; intros Hv [= <-]; try done.
  - apply int_repr_encodable.
  - by apply encode_basestring_encodable.
Qed.

Lemma iterencode_list level v l :
  Json.iterencode level (PyList (v :: l))
  = Json.list_chunks level true (v :: l) ++ [Json.newline_indent level; str "]"].
Proof. done. Qed.

Lemma iterencode_dict level kv d :
  Json.iterencode level (PyDict (kv :: d))
  = [str "{"; Json.newline_indent (S level)]
    ++ Json.dict_chunks level true (kv :: d) ++ [Json.newline_indent level; str "}"].
Proof. done. Qed.

Lemma iterencode_encodable v :
  ∀ level, value_encodable v = true → chunks_encodable (Json.iterencode level v).
Proof.
  induction v as [|b|z|l|s|l IH|d IH] using value_nested_ind; intros level Hv.
  - by repeat constructor.
  - destruct b; by repeat constructor.
  - repeat constructor. apply int_repr_encodable.
  - by repeat constructor.
  - repeat constructor. by apply encode_basestring_encodable.
  - destruct l as [|v0 l0]; [by repeat constructor|].
    rewrite iterencode_list. apply Forall_app. split.
    2:{ repeat constructor. apply newline_indent_encodable. }
    cbn [value_encodable] in Hv. revert IH Hv. generalize (v0 :: l0). clear v0 l0.
    intros l IH Hv.
    cut (∀ first, chunks_encodable (Json.list_chunks level first l)); [by auto|].
    induction IH as [|v l Hhead _ IHl]; intros first; [constructor|].
    cbn [forallb] in Hv. apply andb_true_iff in Hv as [Hv Hl].
    cbn [Json.list_chunks]. apply Forall_app. split; [|by apply IHl].
    assert (forallb encodable
              ((if first then str "[" else str ",") ++ Json.newline_indent (S level))
            = true) as Hbuf.
    { rewrite forallb_app, newline_indent_encodable. by destruct first. }
    destruct (Json.atom v) as [t|] eqn:Hatom.
    + repeat constructor. rewrite forallb_app, Hbuf. by apply (atom_encodable v).
    + constructor; [done|]. by apply Hhead.
  - destruct d as [|kv0 d0]; [by repeat constructor|].
    rewrite iterencode_dict. rewrite Forall_app. split.
    { repeat constructor. apply newline_indent_encodable. }
    apply Forall_app. split.
    2:{ repeat constructor. apply newline_indent_encodable. }
    cbn [value_encodable] in Hv. revert IH Hv. generalize (kv0 :: d0). clear kv0 d0.
    intros d IH Hv.
    cut (∀ first, chunks_encodable (Json.dict_chunks level first d)); [by auto|].
    induction IH as [|[k v] d Hhead _ IHd]; intros first; [constructor|].
    cbn [forallb] in Hv.
    apply andb_true_iff in Hv as [[Hk Hv]%andb_true_iff Hd]. simpl in Hk, Hv.
    cbn [Json.dict_chunks]. apply Forall_app. split.
    { destruct first; repeat constructor.
      rewrite forallb_app. by rewrite newline_indent_encodable. }
    constructor; [by apply encode_basestring_encodable|].
    constructor; [done|].
    apply Forall_app. split; [by apply Hhead|by apply IHd].
Qed.

End EncodableValues.

(** ** The chat exchange when the completion service fails *)

Section ChatFailure.
Context `{Env}.

Lemma storable_turn_encodable v : storable_turn v = true → value_encodable v = true.
Proof. by destruct v. Qed.

Lemma dict_set_encodable d k x :
  forallb (λ kv, forallb encodable kv.1 && value_encodable kv.2) d = true →
  forallb encodable k = true → value_encodable x = true →
  forallb (λ kv, forallb encodable kv.1 && value_encodable kv.2) (dict_set d k x) = true.
Proof.
  intros Hd Hk Hx. induction d as [|[k' x'] d IH]; simpl.
  - by rewrite Hk, Hx.
  - simpl in Hd. apply andb_true_iff in Hd as [Hkx Hd].
    destruct (decide (k = k')); simpl.
    + by rewrite Hk, Hx, Hd.
    + by rewrite Hkx, IH.
Qed.

(** Stamping a storable turn returns a storable turn and writes no file. *)
Lemma stamp_storable msg w :
  storable_turn msg = true → (∀ n, forallb encodable (now_isoformat n) = true) →
  ∃ msg' w', stamp msg w = (Ok msg', w') ∧ files w' = files w
             ∧ storable_turn msg' = true.
Proof.
  intros Hmsg Hclock. destruct msg as [| | | | | |d]; try done.
  unfold stamp, bind, lift. cbn [str_in].
  destruct (existsb _ d).
  - by eexists _, _.
  - unfold now, ret. cbn [setitem_str]. eexists _, _. split_and!; [done..|].
    simpl. apply dict_set_encodable; [done|done|apply Hclock].
Qed.

Lemma stamp_loop l : ∀ done w,
  Forall (λ turn, storable_turn turn = true) l →
  (∀ n, forallb encodable (now_isoformat n) = true) →
  ∃ l' w', for_each (λ done msg, msg' <- stamp msg ;; ret (done ++ [msg'])) done l w
           = (Ok (done ++ l'), w')
           ∧ files w' = files w
           ∧ Forall (λ turn, storable_turn turn = true) l'.
Proof.
  induction l as [|msg l IH]; intros done w Hl Hclock.
  - exists [], w. by rewrite app_nil_r.
  - apply Forall_cons in Hl as [Hmsg Hl].
    destruct (stamp_storable msg w Hmsg Hclock) as (msg' & w1 & Hstamp & Hfiles & Hmsg').
    destruct (IH (done ++ [msg']) w1 Hl Hclock) as (l' & w2 & Hloop & Hfiles' & Hl').
    exists (msg' :: l'), w2. split_and!.
    + cbn [for_each]. unfold bind at 1. unfold bind at 1. rewrite Hstamp.
      unfold ret at 1. rewrite Hloop. by rewrite <- app_assoc.
    + congruence.
    + by constructor.
Qed.

Lemma turn_of_storable user_input reply timestamp :
  forallb encodable user_input = true → forallb encodable reply = true →
  forallb encodable timestamp = true →
  storable_turn (turn_of user_input reply timestamp) = true.
Proof. intros Hu Hr Ht. simpl. by rewrite Hu, Hr, Ht. Qed.

Lemma stamp_turn_of user_input reply timestamp w :
  stamp (turn_of user_input reply timestamp) w
  = (Ok (turn_of user_input reply timestamp), w).
Proof. done. Qed.

(** Saving a session of storable turns followed by the new turn. *)
Lemma save_session_storable l turn w :
  Forall (λ turn, storable_turn turn = true) l →
  (∀ n, forallb encodable (now_isoformat n) = true) →
  storable_turn turn = true → (∀ w, stamp turn w = (Ok turn, w)) →
  ∃ stored w', save_session (PyList (l ++ [turn])) w = (Ok (), w')
    ∧ files w' !! SESSION_FILE = Some (Utf8 (Json.dumps (PyList (stored ++ [turn])))).
Proof.
  intros Hl Hclock Hturn Hstamp.
  destruct (stamp_loop l [] w Hl Hclock) as (l' & w1 & Hloop & Hfiles & Hl').
  exists l'. eexists. unfold save_session, stamp_all.
  unfold bind at 1. unfold bind at 1.
  rewrite (for_each_app _ _ _ _ _ _ _ Hloop). cbn [for_each app].
  unfold bind at 1. unfold bind at 1. rewrite Hstamp. unfold ret.
  rewrite open_write_ok with (content := Json.dumps (PyList (l' ++ [turn]))).
  - split; [done|]. apply lookup_insert_eq.
  - apply write_all_ok, iterencode_encodable. cbn [value_encodable].
    apply forallb_forall. intros v [Hv|Hv]%in_app_or.
    + apply storable_turn_encodable. rewrite Forall_forall in Hl'.
      by apply Hl', list_elem_of_In.
    + destruct Hv as [<-|[]]. by apply storable_turn_encodable.
Qed.

Lemma strip_encodable s : forallb encodable s = true → forallb encodable (Py.strip s) = true.
Proof.
  intros Hs. apply forallb_forall. intros c Hc.
  assert (Forall (λ c, encodable c = true) (Py.strip s)) as Hall.
  { apply strip_Forall, Forall_forall. intros c' Hc'.
    by apply (proj1 (forallb_forall _ _) Hs), list_elem_of_In. }
  rewrite Forall_forall in Hall. by apply Hall, list_elem_of_In.
Qed.

(** C7, as amended. For a message that is not blank, when the knowledge
    loads and holds no match for it and the completion service raises,
    [chat] catches the exception and answers with a reply that embeds its
    description, and records the exchange with that reply in the session,
    provided the session store can take the turn: [load_session] returns a
    list of dicts, and UTF-8 can encode their texts, the message, the
    description of the exception and the timestamps. *)
Theorem chat_model_error (request_json : value) (message : pystr) (knowledge : value)
    (e : exn) (session : list value) (w w1 : world) :
  get_message request_json = Ok (PyStr message) →
  Py.strip message ≠ [] →
  load_knowledge w = (Ok knowledge, w1) →
  best_knowledge_match (Py.strip message) knowledge w1 = (Ok None, w1) →
  create_completion (clock_reads w1) (str "[INST] " ++ Py.strip message ++ str " [/INST]")
  = Raise e →
  load_session w1 = (Ok (PyList session), w1) →
  Forall (λ turn, storable_turn turn = true) session →
  forallb encodable message = true →
  forallb encodable (exn_str e) = true →
  (∀ n, forallb encodable (now_isoformat n) = true) →
  let reply := MODEL_ERROR ++ exn_str e in
  ∃ stored w',
    chat request_json w = (Ok (reply_of reply), w')
    ∧ files w' !! SESSION_FILE
      = Some (Utf8 (Json.dumps (PyList (stored ++
          [turn_of (Py.strip message) reply (now_isoformat (clock_reads w1))])))).
Proof.
  intros Hget Hnonblank Hload Hmatch Hllm Hsession Hturns Hmsg Herr Hclock reply.
  set (turn := turn_of (Py.strip message) reply (now_isoformat (clock_reads w1))).
  assert (storable_turn turn = true) as Hturn.
  { apply turn_of_storable; [by apply strip_encodable| |apply Hclock].
    unfold reply. by rewrite forallb_app, Herr. }
  destruct (save_session_storable session turn
              (World (files w1) (S (clock_reads w1))) Hturns Hclock Hturn)
    as (stored & w' & Hsave & Hfile); [intros w0; apply stamp_turn_of|].
  exists stored, w'. split; [|done].
  unfold chat. unfold bind at 1, lift at 1. rewrite Hget.
  unfold bind at 1, lift at 1. cbn [value_strip].
  destruct (Py.strip message) as [|c user_input] eqn:Hstrip; [done|].
  rewrite (bind_ok _ _ _ _ _ Hload). rewrite (bind_ok _ _ _ _ _ Hmatch).
  cbn [falsy]. unfold bind at 1. unfold try_except at 1. unfold bind at 1.
  unfold llm_create_completion at 1. rewrite Hllm. unfold ret at 1.
  rewrite (bind_ok _ _ _ _ _ Hsession).
  unfold bind at 1. unfold now at 1. unfold bind at 1. unfold ret at 1.
  fold reply. fold (turn_of (c :: user_input) reply (now_isoformat (clock_reads w1))).
  fold turn. by rewrite (bind_ok _ _ _ _ _ Hsave).
Qed.

End ChatFailure.

(** ** The decoder never runs out of fuel *)

Lemma push_Some c o t r :
  Json.push c o = Some (t, r) → ∃ t', o = Some (t', r).
Proof. destruct o as [[t' r']|]; simpl; [|done]. intros [= _ ->]. eauto. Qed.

Lemma scanstring_shorter s t r :
  Json.scanstring s = Some (t, r) → (length r < length s)%nat.
Proof.
  remember (length s) as n eqn:Hn. revert s t r Hn.
  induction n as [n IH] using lt_wf_ind. intros s t r -> Hscan.
  assert (∀ s' c t r, (length s' < length s)%nat →
            Json.push c (Json.scanstring s') = Some (t, r) →
            (length r < length s')%nat) as Hpush.
  { intros s' c t0 r0 Hlen (t' & Hs')%push_Some. by eapply IH. }
  destruct s as [|c s1]; [done|]. cbn [Json.scanstring] in Hscan.
  destruct (c =? DQUOTE). { injection Hscan as _ <-. simpl. lia. }
  destruct (c =? BACKSLASH).
  - destruct s1 as [|esc s2]; [done|].
    destruct (esc =? ord "u").
    + destruct s2 as [|h1 [|h2 [|h3 [|h4 s6]]]]; try done.
      destruct (Json.decode_uXXXX h1 h2 h3 h4) as [uni|]; [|done].
      assert (Json.push uni (Json.scanstring s6) = Some (t, r) →
              (length r < length (c :: esc :: h1 :: h2 :: h3 :: h4 :: s6))%nat) as Hsingle.
      { intros Hs. apply Hpush in Hs; simpl in *; lia. }
      destruct (Json.is_high_surrogate uni); [|by apply Hsingle].
      destruct s6 as [|b [|u [|l1 [|l2 [|l3 [|l4 s12]]]]]]; try by apply Hsingle.
      destruct ((b =? BACKSLASH) && (u =? ord "u")); [|by apply Hsingle].
      destruct (Json.decode_uXXXX l1 l2 l3 l4) as [uni2|]; [|done].
      destruct (Json.is_low_surrogate uni2); [|by apply Hsingle].
      apply Hpush in Hscan; simpl in *; lia.
    + destruct (Json.unescape esc); [|done].
      apply Hpush in Hscan; simpl in *; lia.
  - destruct (c <? 32); [done|].
    apply Hpush in Hscan; simpl in *; lia.
Qed.

Lemma skip_ws_length s : (length (Json.skip_ws s) ≤ length s)%nat.
Proof.
  induction s as [|c s IH]; simpl; [done|]. destruct (Json.is_ws c); simpl; lia.
Qed.

Lemma take_digits_length s ds r :
  Json.take_digits s = (ds, r) → (length r ≤ length s)%nat.
Proof.
  revert ds r. induction s as [|c s IH]; intros ds r; simpl.
  - by intros [= _ <-].
  - destruct (is_digit c); [|by intros [= _ <-]].
    destruct (Json.take_digits s) as [ds' r'] eqn:Hs. intros [= _ <-].
    specialize (IH _ _ eq_refl). lia.
Qed.

Lemma match_frac_length s t r : Json.match_frac s = (t, r) → (length r ≤ length s)%nat.
Proof.
  unfold Json.match_frac. destruct s as [|dot [|d s']]; try by intros [= _ <-].
  destruct ((dot =? ord ".") && is_digit d); [|by intros [= _ <-]].
  destruct (Json.take_digits s') as [ds r'] eqn:Hs. intros [= _ <-].
  apply take_digits_length in Hs. simpl. lia.
Qed.

Lemma match_exp_length s t r : Json.match_exp s = (t, r) → (length r ≤ length s)%nat.
Proof.
  unfold Json.match_exp. destruct s as [|e s1]; [by intros [= _ <-]|].
  destruct ((e =? ord "e") || (e =? ord "E")); [|by intros [= _ <-]].
  destruct s1 as [|sg [|d s2]].
  - by intros [= _ <-].
  - destruct (is_digit sg); intros [= _ <-]; simpl; lia.
  - destruct (((sg =? ord "-") || (sg =? ord "+")) && is_digit d).
    + destruct (Json.take_digits s2) as [ds r'] eqn:Hs. intros [= _ <-].
      apply take_digits_length in Hs. simpl. lia.
    + destruct (is_digit sg); [|by intros [= _ <-]].
      destruct (Json.take_digits (d :: s2)) as [ds r'] eqn:Hs. intros [= _ <-].
      apply take_digits_length in Hs. simpl in *. lia.
Qed.

Section DecoderFuel.
Context `{Env}.

Lemma match_number_shorter s v r :
  Json.match_number s = Json.Scanned v r → (length r < length s)%nat.
Proof.
  unfold Json.match_number.
  set (p := match s with
            | c :: s' => if c =? ord "-" then ([c], s') else ([], s)
            | [] => ([], s)
            end).
  assert (length p.2 ≤ length s)%nat as Hp.
  { subst p. destruct s as [|c s']; [done|]. destruct (c =? ord "-"); simpl; lia. }
  destruct p as [sign s1]. simpl in Hp.
  destruct s1 as [|d s2]; [done|]. destruct (is_digit d); [|done].
  set (q := if d =? ord "0" then ([d], s2)
            else let '(ds, r) := Json.take_digits s2 in (d :: ds, r)).
  assert (length q.2 ≤ length s2)%nat as Hq.
  { subst q. destruct (d =? ord "0"); [done|].
    destruct (Json.take_digits s2) as [ds r'] eqn:Hs.
    apply take_digits_length in Hs. done. }
  destruct q as [int_digits s3]. simpl in Hq.
  destruct (Json.match_frac s3) as [frac s4] eqn:Hfrac.
  destruct (Json.match_exp s4) as [exp s5] eqn:Hexp.
  apply match_frac_length in Hfrac. apply match_exp_length in Hexp.
  destruct (frac ++ exp); [destruct (Json.int_of_digits _); [|done]|];
    intros [= _ <-]; simpl in *; lia.
Qed.

Lemma match_number_fuel s : Json.match_number s ≠ Json.OutOfFuel.
Proof.
  unfold Json.match_number.
  destruct (match s with
            | c :: s' => if c =? ord "-" then ([c], s') else ([], s)
            | [] => ([], s)
            end) as [sign s1].
  destruct s1 as [|d s2]; [done|]. destruct (is_digit d); [|done].
  destruct (if d =? ord "0" then ([d], s2)
            else let '(ds, r) := Json.take_digits s2 in (d :: ds, r))
    as [int_digits s3].
  destruct (Json.match_frac s3) as [frac s4]. destruct (Json.match_exp s4) as [exp s5].
  destruct (frac ++ exp); [|done]. by destruct (Json.int_of_digits _).
Qed.

Lemma scan_shorter f :
  (∀ depth s v r, Json.scan_once f depth s = Json.Scanned v r →
     (length r < length s)%nat)
  ∧ (∀ depth vals s l r, Json.array_items f depth vals s = Json.Scanned l r →
       (length r < length s)%nat)
  ∧ (∀ depth pairs s d r, Json.object_items f depth pairs s = Json.Scanned d r →
       (length r < length s)%nat).
Proof.
  induction f as [|f (IHscan & IHarray & IHobject)]; [done|]. split_and!.
  - intros depth s v r. destruct s as [|c s1]; [done|]. cbn [Json.scan_once].
    destruct (c =? DQUOTE).
    { destruct (Json.scanstring s1) as [[t rest]|] eqn:Hs; [|done].
      intros [= _ <-]. apply scanstring_shorter in Hs. simpl. lia. }
    pose proof (skip_ws_length s1) as Hws.
    destruct (c =? ord "{").
    { destruct depth as [|depth]; [done|].
      destruct (Json.skip_ws s1) as [|c' s2]; [done|]. simpl in Hws.
      destruct (c' =? ord "}"); [intros [= _ <-]; simpl; lia|].
      destruct (c' =? DQUOTE); [|done].
      destruct (Json.object_items f depth [] s2) as [d rest| | |] eqn:Ho; [|done..].
      intros [= _ <-]. apply IHobject in Ho. simpl. lia. }
    destruct (c =? ord "[").
    { destruct depth as [|depth]; [done|].
      destruct (Json.skip_ws s1) as [|c' s2]; [done|]. simpl in Hws.
      destruct (c' =? ord "]"); [intros [= _ <-]; simpl; lia|].
      destruct (Json.array_items f depth [] (c' :: s2)) as [l rest| | |] eqn:Ha;
        [|done..].
      intros [= _ <-]. apply IHarray in Ha. simpl in *. lia. }
    repeat (destruct (Py.startswith (c :: s1) _);
            [intros [= _ <-]; rewrite ?length_drop; simpl; lia|]).
    destruct (Json.match_number (c :: s1)) as [v' rest| |e|] eqn:Hn.
    { intros [= _ <-]. by apply match_number_shorter in Hn. }
    all: try done.
    all: repeat (destruct (Py.startswith (c :: s1) _);
            [intros [= _ <-]; rewrite ?length_drop; simpl; lia|]).
    all: done.
  - intros depth vals s l r. cbn [Json.array_items].
    destruct (Json.scan_once f depth s) as [v rest| | |] eqn:Hv; [|done..].
    apply IHscan in Hv. pose proof (skip_ws_length rest) as Hws.
    destruct (Json.skip_ws rest) as [|c s1]; [done|]. simpl in Hws.
    destruct (c =? ord "]"); [intros [= _ <-]; lia|].
    destruct (c =? ord ","); [|done].
    intros Ha%IHarray. pose proof (skip_ws_length s1). lia.
  - intros depth pairs s d r. cbn [Json.object_items].
    destruct (Json.scanstring s) as [[key s1]|] eqn:Hk; [|done].
    apply scanstring_shorter in Hk. pose proof (skip_ws_length s1) as Hws.
    destruct (Json.skip_ws s1) as [|c s2]; [done|]. simpl in Hws.
    destruct (c =? ord ":"); [|done].
    destruct (Json.scan_once f depth (Json.skip_ws s2)) as [v rest| | |] eqn:Hv;
      [|done..].
    apply IHscan in Hv. pose proof (skip_ws_length s2) as Hws2.
    pose proof (skip_ws_length rest) as Hws3.
    destruct (Json.skip_ws rest) as [|c' s3]; [done|]. simpl in Hws3.
    destruct (c' =? ord "}"); [intros [= _ <-]; lia|].
    destruct (c' =? ord ","); [|done].
    pose proof (skip_ws_length s3) as Hws4.
    destruct (Json.skip_ws s3) as [|q s4]; [done|]. simpl in Hws4.
    destruct (q =? DQUOTE); [|done].
    intros Ho%IHobject. lia.
Qed.

(** With the fuel [loads] gives it, the scanner stops on its own: what the
    model reports as an error is an error of the decoder. *)
Lemma scan_fuel f :
  (∀ depth s, (2 * length s + 1 ≤ f)%nat → Json.scan_once f depth s ≠ Json.OutOfFuel)
  ∧ (∀ depth vals s, (2 * length s + 2 ≤ f)%nat →
       Json.array_items f depth vals s ≠ Json.OutOfFuel)
  ∧ (∀ depth pairs s, (2 * length s + 2 ≤ f)%nat →
       Json.object_items f depth pairs s ≠ Json.OutOfFuel).
Proof.
  induction f as [|f (IHscan & IHarray & IHobject)].
  { split_and!; intros; lia. }
  split_and!.
  - intros depth s Hf. destruct s as [|c s1]; [done|]. cbn [Json.scan_once].
    simpl in Hf. pose proof (skip_ws_length s1) as Hws.
    destruct (c =? DQUOTE). { by destruct (Json.scanstring s1) as [[t rest]|]. }
    destruct (c =? ord "{").
    { destruct depth as [|depth]; [done|].
      destruct (Json.skip_ws s1) as [|c' s2]; [done|]. simpl in Hws.
      destruct (c' =? ord "}"); [done|]. destruct (c' =? DQUOTE); [|done].
      destruct (Json.object_items f depth [] s2) as [d rest| | |] eqn:Ho; [done..|].
      exfalso. revert Ho. apply IHobject. lia. }
    destruct (c =? ord "[").
    { destruct depth as [|depth]; [done|].
      destruct (Json.skip_ws s1) as [|c' s2]; [done|]. simpl in Hws.
      destruct (c' =? ord "]"); [done|].
      destruct (Json.array_items f depth [] (c' :: s2)) as [l rest| | |] eqn:Ha;
        [done..|].
      exfalso. revert Ha. apply IHarray. simpl. lia. }
    repeat (destruct (Py.startswith (c :: s1) _); [done|]).
    pose proof (match_number_fuel (c :: s1)) as Hn.
    destruct (Json.match_number (c :: s1)) as [v' rest| |e|]; [done| |done|done].
    repeat (destruct (Py.startswith (c :: s1) _); [done|]).
    done.
  - intros depth vals s Hf. cbn [Json.array_items].
    destruct (Json.scan_once f depth s) as [v rest| | |] eqn:Hv; [|done|done|].
    + apply scan_shorter in Hv. pose proof (skip_ws_length rest) as Hws.
      destruct (Json.skip_ws rest) as [|c s1]; [done|]. simpl in Hws.
      destruct (c =? ord "]"); [done|]. destruct (c =? ord ","); [|done].
      apply IHarray. pose proof (skip_ws_length s1). lia.
    + exfalso. revert Hv. apply IHscan. lia.
  - intros depth pairs s Hf. cbn [Json.object_items].
    destruct (Json.scanstring s) as [[key s1]|] eqn:Hk; [|done].
    apply scanstring_shorter in Hk. pose proof (skip_ws_length s1) as Hws.
    destruct (Json.skip_ws s1) as [|c s2]; [done|]. simpl in Hws.
    destruct (c =? ord ":"); [|done].
    pose proof (skip_ws_length s2) as Hws2.
    destruct (Json.scan_once f depth (Json.skip_ws s2)) as [v rest| | |] eqn:Hv;
      [|done|done|].
    + apply scan_shorter in Hv. pose proof (skip_ws_length rest) as Hws3.
      destruct (Json.skip_ws rest) as [|c' s3]; [done|]. simpl in Hws3.
      destruct (c' =? ord "}"); [done|]. destruct (c' =? ord ","); [|done].
      pose proof (skip_ws_length s3) as Hws4.
      destruct (Json.skip_ws s3) as [|q s4]; [done|]. simpl in Hws4.
      destruct (q =? DQUOTE); [|done].
      apply IHobject. lia.
    + exfalso. revert Hv. apply IHscan. lia.
Qed.

Lemma loads_fuel depth s :
  Json.scan_once (2 * length s + 1) depth (Json.skip_ws s) ≠ Json.OutOfFuel.
Proof. apply scan_fuel. pose proof (skip_ws_length s). lia. Qed.

End DecoderFuel.

(** ** The model at work on examples *)

Section Examples.
#[local] Existing Instance example_env.

Example split_sentences_keeps_terminators :
  Re.split_sentences (str "One. Two!   Three? four.five")
  = [str "One."; str "Two!"; str "Three?"; str "four.five"].
Proof. reflexivity. Qed.

Example split_sentences_needs_a_terminator :
  Re.split_sentences (str "no split  here.") = [str "no split  here."].
Proof. reflexivity. Qed.

Example findall_words_runs :
  Re.findall_words (unicode_lower (str "Hello, wor_ld! 12ab--X"))
  = [str "hello"; str "wor_ld"; str "12ab"; str "x"].
Proof. reflexivity. Qed.

Example score_counts_distinct_words :
  score (str "the the THE cat") (str "The cat and the other cat") = 2%nat.
Proof. reflexivity. Qed.

Example splitext_leading_dot : OsPath.splitext (str ".txt") = (str ".txt", []).
Proof. reflexivity. Qed.

Example splitext_last_dot :
  OsPath.splitext (str "archive.tar.pdf") = (str "archive.tar", str ".pdf").
Proof. reflexivity. Qed.

Example session_file_path : SESSION_FILE = str "sessions/session.json".
Proof. reflexivity. Qed.

Example loads_surrogate_pair :
  Json.loads ([DQUOTE; BACKSLASH] ++ str "ud83d" ++ [BACKSLASH] ++ str "ude00" ++ [DQUOTE])
  = Ok (PyStr [0x1f600]).
Proof. reflexivity. Qed.

Example loads_dumps_object :
  Json.loads (Json.dumps (PyDict [(str "a", PyInt 1); (str "b", PyNone)])
              ++ str " ")
  = Ok (PyDict [(str "a", PyInt 1); (str "b", PyNone)]).
Proof. reflexivity. Qed.

(** A repeated key keeps its first place and takes the last value. *)
Example loads_repeated_key :
  let key k := [DQUOTE] ++ str k ++ [DQUOTE] in
  Json.loads (str "{" ++ key "a" ++ str ":1," ++ key "b" ++ str ":2," ++ key "a"
              ++ str ":3}")
  = Ok (PyDict [(str "a", PyInt 3); (str "b", PyInt 2)]).
Proof. reflexivity. Qed.

Example loads_trailing_comma : Json.loads (str "[1,]") = Raise JSONDecodeError.
Proof. reflexivity. Qed.

Example loads_extra_data : Json.loads (str "[] []") = Raise JSONDecodeError.
Proof. reflexivity. Qed.

(** A string with a lone surrogate stops the writing: the chunks written
    before it stay in the file. *)
Example open_write_stops_at_surrogate :
  open_write KNOWLEDGE_FILE
    (Json.iterencode 0 (corpus_value [str "ok"; [0xd83d]; str "later"])) empty_world
  = (Raise UnicodeEncodeError,
     World {[ KNOWLEDGE_FILE :=
                Utf8 (str "[" ++ [NEWLINE] ++ str "  " ++ Json.encode_basestring (str "ok")) ]}
       0).
Proof. reflexivity. Qed.

(** Archiving stamps the turn that has no timestamp in the archive only. *)
Example archive_stamps_the_copy :
  let current := Json.dumps (PyList [PyDict [(str "user", PyStr (str "hi"))]]) in
  let w := World {[ SESSION_FILE := Utf8 current ]} 0 in
  let '(r, w') := save_session_timestamped w in
  r = Ok (str "sessions/session_20250101_000000.json")
  ∧ files w' !! str "sessions/session_20250101_000000.json"
    = Some (Utf8 (Json.dumps
        (PyList [PyDict [(str "user", PyStr (str "hi"));
                         (str "timestamp", PyStr (str "2025-01-01T00:00:00"))]])))
  ∧ files w' !! SESSION_FILE = Some (Utf8 current).
Proof. vm_compute. done. Qed.

(** Two exchanges are two turns in the session file, in call order. *)
Example chat_twice :
  let request text := PyDict [(str "message", PyStr text)] in
  let '(_, w1) := chat (request (str "hi")) empty_world in
  let '(_, w2) := chat (request (str "again")) w1 in
  ∃ reply,
    load_session w2
    = (Ok (PyList [turn_of (str "hi") reply (str "2025-01-01T00:00:00");
                   turn_of (str "again") reply (str "2025-01-01T00:00:00")]), w2).
Proof. vm_compute. eexists. reflexivity. Qed.

End Examples.

(** C7, as stated, fails: the exception of the completion service is
    caught, but the exchange still ends without a reply when the turn cannot
    be recorded.  A message that holds a lone surrogate, which a JSON body
    can carry, cannot be written to the session file; and a session file
    that holds the JSON object [{}] has no [append]. *)
Lemma chat_model_error_can_fail :
  let request text := PyDict [(str "message", PyStr text)] in
  let prompt text := str "[INST] " ++ text ++ str " [/INST]" in
  let object_session := World {[ SESSION_FILE := Utf8 (str "{}") ]} 0 in
  (Py.strip [0xd83d] ≠ []
   ∧ (best_knowledge_match (H:=example_env) [0xd83d] (PyList []) empty_world).1 = Ok None
   ∧ (∃ e, create_completion (Env:=example_env) 0%nat (prompt [0xd83d]) = Raise e)
   ∧ (chat (H:=example_env) (request [0xd83d]) empty_world).1 = Raise UnicodeEncodeError)
  ∧ (Py.strip (str "hi") ≠ []
     ∧ (best_knowledge_match (H:=example_env) (str "hi") (PyList []) object_session).1
       = Ok None
     ∧ (∃ e, create_completion (Env:=example_env) 0%nat (prompt (str "hi")) = Raise e)
     ∧ (chat (H:=example_env) (request (str "hi")) object_session).1
       = Raise AttributeError).
Proof.
  split; (split_and!; [by vm_compute|by vm_compute|by eexists|by vm_compute]).
Qed.

(** ** The properties at work on examples *)

Lemma best_knowledge_match_first_best_witness :
  let u := str "the QUICK brown cat" in
  let K := [str "A brown dog. quick"; str "The quick brown fox."; str "quick the brown"] in
  first_best (H:=example_env) u K 1 (str "The quick brown fox.")
  ∧ score (H:=example_env) u (str "The quick brown fox.") = 3%nat
  ∧ best_knowledge_match (H:=example_env) u (corpus_value K) empty_world
    = (Ok (Some (str "The quick brown fox.")), empty_world).
Proof.
  intros u K.
  assert (first_best (H:=example_env) u K 1 (str "The quick brown fox.")) as Hfb.
  { split_and!; [reflexivity| |].
    - intros [|[|[|j]]] t Hj; simpl in Hj; [| | |discriminate];
        injection Hj as <-; vm_compute; lia.
    - intros [|j] t Hlt Hj; [|lia]. injection Hj as <-. vm_compute. lia. }
  split_and!; [exact Hfb|reflexivity|].
  destruct (best_knowledge_match_first_best (H:=example_env) u K empty_world)
    as (_ & _ & Hspec).
  destruct (Hspec 1%nat _ Hfb) as (_ & _ & Hthree). apply Hthree. reflexivity.
Defined.

Lemma add_to_knowledge_idempotent_witness :
  let text := str "Hello world. This is fine! Ok?" in
  ∃ n w1, add_to_knowledge (H:=example_env) text empty_world = (Ok n, w1)
          ∧ add_to_knowledge (H:=example_env) text w1 = (Ok 0%nat, w1).
Proof.
  intros text.
  destruct (add_to_knowledge_idempotent (H:=example_env) text [] empty_world
              (World (<[KNOWLEDGE_FILE := Utf8 (str "[]")]> ∅) 0) eq_refl)
    as [Hfirst Hsecond].
  destruct Hfirst as (n & w1 & Hrun); [constructor|reflexivity|].
  exists n, w1. split; [exact Hrun|]. exact (proj1 (Hsecond n w1 Hrun)).
Defined.

Lemma add_to_knowledge_hello_world_witness :
  ∃ w1, add_to_knowledge (H:=example_env) (str "Hello world. This is fine! Ok?")
          empty_world = (Ok 2%nat, w1)
        ∧ load_knowledge (H:=example_env) w1
          = (Ok (corpus_value [str "Hello world."; str "This is fine!"]), w1).
Proof.
  exact (proj2 (proj2 (proj2
    (add_to_knowledge_hello_world (H:=example_env) empty_world
       (World (<[KNOWLEDGE_FILE := Utf8 (str "[]")]> ∅) 0) eq_refl)))).
Defined.

Lemma save_knowledge_load_knowledge_witness :
  let corpus := [str "Hello world."; [0x4e2d; 0x6587; 10; 34; 92]; str "Hello world."] in
  ∃ w', save_knowledge (H:=example_env) (corpus_value corpus) empty_world = (Ok (), w')
        ∧ load_knowledge (H:=example_env) w' = (Ok (corpus_value corpus), w').
Proof.
  intros corpus.
  apply (save_knowledge_load_knowledge (H:=example_env) corpus empty_world).
  repeat constructor.
Defined.

Lemma load_knowledge_invalid_json_witness :
  let w := World {[ KNOWLEDGE_FILE := Utf8 (str "[1, 2") ]} 0 in
  load_knowledge (H:=example_env) w = (Ok (PyList []), w)
  ∧ load_knowledge (H:=example_env) empty_world
    = (Ok (PyList []), World (<[KNOWLEDGE_FILE := Utf8 (str "[]")]> ∅) 0).
Proof.
  intros w. split.
  - apply (proj1 (load_knowledge_invalid_json w) (str "[1, 2")); reflexivity.
  - apply (proj2 (load_knowledge_invalid_json empty_world)). reflexivity.
Defined.

Lemma chat_model_error_witness :
  let request_json := PyDict [(str "message", PyStr (str " hi there "))] in
  ∃ stored w',
    chat (H:=example_env) request_json empty_world
    = (Ok (reply_of (MODEL_ERROR ++ str "model not loaded")), w')
    ∧ files w' !! SESSION_FILE
      = Some (Utf8 (Json.dumps (H:=example_env) (PyList (stored ++
          [turn_of (str "hi there") (MODEL_ERROR ++ str "model not loaded")
             (str "2025-01-01T00:00:00")])))).
Proof.
  intros request_json.
  apply (chat_model_error (H:=example_env) request_json (str " hi there ") (PyList [])
           (Exception (str "model not loaded")) [] empty_world
           (World (<[KNOWLEDGE_FILE := Utf8 (str "[]")]> ∅) 0));
    first [reflexivity | discriminate | constructor].
Defined.

Lemma chat_blank_message_witness :
  chat (H:=example_env) (PyDict [(str "message", PyStr [32; 9; 10; 32])]) empty_world
  = (Ok (reply_of (str "Say something...")), empty_world).
Proof.
  apply (chat_blank_message (H:=example_env) _ [32; 9; 10; 32]); reflexivity.
Defined.

Lemma upload_file_extension_check_witness :
  let file := FileStorage (str "NOTES.TXT") (Utf8 (str "The quick brown fox.")) None in
  ∃ resp w', upload_file (H:=example_env) (Some file) empty_world = (Ok resp, w')
             ∧ status resp ≠ 403%nat.
Proof.
  intros file.
  destruct (upload_file_extension_check (H:=example_env) file empty_world)
    as (resp & w' & Hrun & Hiff); [vm_compute; discriminate|].
  exists resp, w'. split; [exact Hrun|].
  intros H403. apply Hiff in H403. apply H403. left. reflexivity.
Defined.

(** ** More about the knowledge store *)

Section KnowledgeStoreMore.
Context `{Env}.

Lemma keeps_file_load_knowledge path :
  path ≠ KNOWLEDGE_FILE → keeps_file path load_knowledge.
Proof.
  intros Hne. unfold load_knowledge.
  apply keeps_file_bind; [apply keeps_file_path_exists|intros present].
  apply keeps_file_bind.
  { destruct present; [apply keeps_file_ret|by apply keeps_file_open_write]. }
  intros _. auto 10 with keeps.
Qed.

Lemma keeps_file_add_to_knowledge path text :
  path ≠ KNOWLEDGE_FILE → keeps_file path (add_to_knowledge text).
Proof.
  intros Hne. unfold add_to_knowledge.
  apply keeps_file_bind; [by apply keeps_file_load_knowledge|intros knowledge].
  apply keeps_file_bind; [auto 10 with keeps|intros new].
  apply keeps_file_bind; [apply keeps_file_lift|intros knowledge'].
  apply keeps_file_bind; [|intros _; apply keeps_file_ret].
  by apply keeps_file_open_write.
Qed.

(** X1. [load_knowledge] creates the knowledge file when it is absent and
    changes nothing when it is there; it never touches another file, and a
    second call gives the answer of the first and changes nothing. *)
Theorem load_knowledge_settles (w : world) :
  let r := (load_knowledge w).1 in
  let w1 := (load_knowledge w).2 in
  is_Some (files w1 !! KNOWLEDGE_FILE)
  ∧ (is_Some (files w !! KNOWLEDGE_FILE) → w1 = w)
  ∧ (∀ path, path ≠ KNOWLEDGE_FILE → files w1 !! path = files w !! path)
  ∧ load_knowledge w1 = (r, w1).
Proof.
  intros r w1. subst r w1.
  destruct (files w !! KNOWLEDGE_FILE) as [[text|lenient]|] eqn:Hf.
  - rewrite (load_knowledge_utf8 _ _ Hf). cbn [fst snd].
    split_and!; [by rewrite Hf|done|done|apply (load_knowledge_utf8 _ _ Hf)].
  - rewrite (load_knowledge_not_utf8 _ _ Hf). cbn [fst snd].
    split_and!; [by rewrite Hf|done|done|apply (load_knowledge_not_utf8 _ _ Hf)].
  - rewrite (load_knowledge_absent _ Hf). cbn [fst snd files].
    split_and!.
    + rewrite lookup_insert_eq. eauto.
    + by intros [? ?].
    + intros path Hne. by apply lookup_insert_ne.
    + by apply (load_knowledge_utf8 _ (str "[]")), lookup_insert_eq.
Qed.

(** X2. A run of [add_to_knowledge] that returns keeps every sentence of the
    corpus in its place and appends, in the order of the text, exactly the
    candidates that the corpus did not hold; it returns their number. *)
Theorem add_to_knowledge_appends (text : pystr) (K : list pystr) (w w0 : world) :
  load_knowledge w = (Ok (corpus_value K), w0) →
  ∀ n w1, add_to_knowledge text w = (Ok n, w1) →
    let new := filter (λ s, s ∉ K) (sentences_of text) in
    n = length new ∧ load_knowledge w1 = (Ok (corpus_value (K ++ new)), w1).
Proof.
  intros Hload n w1 Hrun new.
  rewrite (add_to_knowledge_run _ _ _ _ Hload) in Hrun. cbv zeta in Hrun. fold new in Hrun.
  destruct (write_all [] _) as [[[]|e] content] eqn:Hwrite; [|done].
  injection Hrun as <- <-. split; [done|].
  pose proof (write_all_inv _ _ _ Hwrite) as Hcontent. cbn [app] in Hcontent.
  fold (Json.dumps (corpus_value (K ++ new))) in Hcontent. subst content.
  apply load_knowledge_dumped. by apply lookup_insert_eq.
Qed.

Lemma lstrip_head c s : Py.lstrip s = c :: tl (Py.lstrip s) → Py.isspace c = false.
Proof.
  induction s as [|d s IH]; simpl; [done|].
  destruct (Py.isspace d) eqn:Hd; [done|]. simpl. by intros [= <-].
Qed.

Lemma lstrip_unspaced c s : Py.isspace c = false → Py.lstrip (c :: s) = c :: s.
Proof. intros Hc. simpl. by rewrite Hc. Qed.

Lemma rstrip_rstrip s : Py.rstrip (Py.rstrip s) = Py.rstrip s.
Proof.
  induction s as [|c s IH]; [done|]. simpl.
  destruct (Py.rstrip s) as [|d r] eqn:Hr.
  - destruct (Py.isspace c) eqn:Hc; [done|]. simpl. by rewrite Hc.
  - change (Py.rstrip (c :: d :: r))
      with (match Py.rstrip (d :: r) with
            | [] => if Py.isspace c then [] else [c]
            | r' => c :: r'
            end).
    by rewrite IH.
Qed.

Lemma rstrip_head c s : Py.isspace c = false → ∃ r, Py.rstrip (c :: s) = c :: r.
Proof.
  intros Hc. simpl. destruct (Py.rstrip s); rewrite ?Hc; eauto.
Qed.

(** Stripping what is stripped changes nothing. *)
Lemma strip_strip s : Py.strip (Py.strip s) = Py.strip s.
Proof.
  unfold Py.strip.
  destruct (Py.lstrip s) as [|c t] eqn:Hl; [done|].
  assert (Py.isspace c = false) as Hc by (apply (lstrip_head c s); by rewrite Hl).
  destruct (rstrip_head c t Hc) as [r Hr]. rewrite Hr.
  rewrite (lstrip_unspaced _ _ Hc), <- Hr. apply rstrip_rstrip.
Qed.

Lemma sentences_of_spec text s :
  s ∈ sentences_of text → (5 < length s)%nat ∧ Py.strip s = s.
Proof.
  unfold sentences_of. intros (piece & -> & Hpiece)%list_elem_of_fmap.
  apply list_elem_of_filter in Hpiece as [Hlen _]. split; [done|apply strip_strip].
Qed.

(** X3. Every sentence a run of [add_to_knowledge] adds to a corpus is longer
    than 5 characters, has no white space at either end and was not in the
    corpus. *)
Theorem add_to_knowledge_adds_trimmed (text : pystr) (K : list pystr) (w w0 : world) :
  load_knowledge w = (Ok (corpus_value K), w0) →
  ∀ n w1, add_to_knowledge text w = (Ok n, w1) →
    ∃ new, load_knowledge w1 = (Ok (corpus_value (K ++ new)), w1)
           ∧ ∀ s, s ∈ new → (5 < length s)%nat ∧ Py.strip s = s ∧ s ∉ K.
Proof.
  intros Hload n w1 Hrun.
  rewrite (add_to_knowledge_run _ _ _ _ Hload) in Hrun. cbv zeta in Hrun.
  destruct (write_all [] _) as [[[]|e] content] eqn:Hwrite; [|done].
  injection Hrun as <- <-.
  pose proof (write_all_inv _ _ _ Hwrite) as Hcontent. cbn [app] in Hcontent.
  fold (Json.dumps (corpus_value (K ++ filter (λ s, s ∉ K) (sentences_of text))))
    in Hcontent. subst content.
  eexists. split.
  - apply load_knowledge_dumped. by apply lookup_insert_eq.
  - intros s (Hnot & Hs)%list_elem_of_filter.
    destruct (sentences_of_spec _ _ Hs). done.
Qed.

Lemma select_world (body : pystr → result bool) (S : list pystr) (new : list pystr) w :
  (for_each (λ new s,
      present <- lift (body s) ;;
      ret (if present : bool then new else new ++ [s])) new S w).2 = w.
Proof.
  revert new. induction S as [|s S IH]; intros new; cbn [for_each]; [done|].
  unfold bind at 1. unfold bind at 1, lift at 1.
  destruct (body s) as [b|e]; [|done]. unfold ret at 1. apply IH.
Qed.

(** X4. When the knowledge file holds JSON that is not a list, [add_to_knowledge]
    raises and saves nothing: the world is as [load_knowledge] left it. *)
Theorem add_to_knowledge_not_a_list (text : pystr) (knowledge : value) (w w0 : world) :
  load_knowledge w = (Ok knowledge, w0) →
  (∀ l, knowledge ≠ PyList l) →
  ∃ e, add_to_knowledge text w = (Raise e, w0).
Proof.
  intros Hload Hnot. unfold add_to_knowledge. rewrite (bind_ok _ _ _ _ _ Hload).
  unfold bind at 1.
  match goal with
  | |- context [for_each ?body [] ?S w0] =>
      pose proof (select_world (λ s, str_in s knowledge) S [] w0) as Hw;
      destruct (for_each body [] S w0) as [[new|e] w'] eqn:Hloop
  end; simpl in Hw; subst w'.
  - unfold bind at 1, lift at 1.
    destruct knowledge; try (eexists; reflexivity). by destruct (Hnot items).
  - by eexists.
Qed.

(** X5. [add_to_knowledge] never touches a file other than the knowledge file,
    whether it returns or raises. *)
Theorem add_to_knowledge_only_knowledge_file (text : pystr) (path : pystr) (w : world) :
  path ≠ KNOWLEDGE_FILE →
  files (add_to_knowledge text w).2 !! path = files w !! path.
Proof. intros Hne. by apply keeps_file_add_to_knowledge. Qed.

End KnowledgeStoreMore.

(** ** Text normalization *)

Section Normalization.
Context `{Env}.

Lemma isspace_SPACE c : (c =? SPACE) = true → Py.isspace c = true.
Proof. by intros ->%N.eqb_eq. Qed.

Lemma sub_whitespace_spaced in_run s :
  spaced_from in_run (Re.sub_whitespace_from in_run s) = true.
Proof.
  revert in_run. induction s as [|c s IH]; intros in_run; [done|].
  cbn [Re.sub_whitespace_from]. destruct (Py.isspace c) eqn:Hc.
  - destruct in_run; cbn [app]; [apply IH|].
    cbn [spaced_from]. change (SPACE =? SPACE) with true. cbn [negb andb]. apply IH.
  - cbn [spaced_from]. rewrite Hc.
    destruct (c =? SPACE) eqn:Hsp; [by rewrite (isspace_SPACE _ Hsp) in Hc|].
    cbn [negb andb]. apply IH.
Qed.

Lemma lstrip_spaced a s : spaced_from a s = true → spaced_from true (Py.lstrip s) = true.
Proof.
  revert a. induction s as [|c s IH]; intros a; [done|].
  cbn [spaced_from Py.lstrip].
  destruct (c =? SPACE) eqn:Hsp.
  - rewrite (isspace_SPACE _ Hsp). intros [_ Hs]%andb_true_iff. by apply (IH true).
  - destruct (Py.isspace c) eqn:Hc; [done|]. cbn [spaced_from]. by rewrite Hsp, Hc.
Qed.

Lemma rstrip_single_spaced a s :
  spaced_from a s = true →
  Py.rstrip s = [] ∨ single_spaced_from a (Py.rstrip s) = true.
Proof.
  revert a. induction s as [|c s IH]; intros a; [by left|].
  cbn [spaced_from Py.rstrip]. intros Hs.
  destruct (Py.rstrip s) as [|d r] eqn:Hr.
  - destruct (Py.isspace c) eqn:Hc; [by left|right].
    cbn [single_spaced_from]. rewrite Hc.
    by destruct (c =? SPACE) eqn:Hsp; [rewrite (isspace_SPACE _ Hsp) in Hc|].
  - right. cbn [single_spaced_from]. fold (single_spaced_from).
    destruct (c =? SPACE) eqn:Hsp.
    + apply andb_true_iff in Hs as [-> Hs]. destruct (IH true Hs) as [|Hd]; done.
    + apply andb_true_iff in Hs as [-> Hs]. destruct (IH false Hs) as [|Hd]; done.
Qed.

Lemma strip_single_spaced a s :
  spaced_from a s = true → single_spaced (Py.strip s) = true.
Proof.
  intros Hs. unfold Py.strip.
  destruct (rstrip_single_spaced true _ (lstrip_spaced _ _ Hs)) as [->|Hr]; [done|].
  unfold single_spaced. by destruct (Py.rstrip _).
Qed.

Lemma normalized_single_spaced s :
  single_spaced (Py.strip (Re.sub_whitespace s)) = true.
Proof. apply (strip_single_spaced false), sub_whitespace_spaced. Qed.

(** X7. What [extract_text] returns is single-spaced: the only white space in
    it is single spaces between other characters. *)
Theorem extract_text_single_spaced (content : pystr) (filename : option pystr) :
  single_spaced (extract_text content filename) = true.
Proof. unfold extract_text. apply normalized_single_spaced. Qed.

Lemma single_spaced_sub_whitespace a s :
  single_spaced_from a s = true → Re.sub_whitespace_from a s = s.
Proof.
  revert a. induction s as [|c s IH]; intros a; [done|].
  cbn [single_spaced_from Re.sub_whitespace_from].
  destruct (c =? SPACE) eqn:Hsp.
  - rewrite (isspace_SPACE _ Hsp). apply N.eqb_eq in Hsp as ->.
    intros [Ha Hs]%andb_true_iff. destruct a; [done|]. cbn [app]. by rewrite (IH true).
  - intros [Hc Hs]%andb_true_iff. apply negb_true_iff in Hc. rewrite Hc.
    by rewrite (IH false).
Qed.

Lemma single_spaced_rstrip a s :
  single_spaced_from a s = true → s ≠ [] → Py.rstrip s = s.
Proof.
  revert a. induction s as [|c s IH]; intros a Hs _; [done|].
  cbn [single_spaced_from] in Hs. cbn [Py.rstrip].
  destruct s as [|d s].
  - destruct (c =? SPACE); [by destruct a|].
    apply andb_true_iff in Hs as [Hc _]. apply negb_true_iff in Hc.
    cbn [Py.rstrip]. by rewrite Hc.
  - assert (Py.rstrip (d :: s) = d :: s) as ->; [|done].
    destruct (c =? SPACE); apply andb_true_iff in Hs as [_ Hs]; by eapply IH.
Qed.

Lemma single_spaced_fixed s :
  single_spaced s = true → Py.strip (Re.sub_whitespace s) = s.
Proof.
  destruct s as [|c s]; [done|]. cbn [single_spaced]. intros Hs.
  assert (Py.isspace c = false ∧ single_spaced_from false s = true) as [Hc Hs'].
  { cbn [single_spaced_from] in Hs. destruct (c =? SPACE); [done|].
    apply andb_true_iff in Hs as [Hc ?]. by apply negb_true_iff in Hc. }
  unfold Re.sub_whitespace. cbn [Re.sub_whitespace_from]. rewrite Hc.
  rewrite (single_spaced_sub_whitespace false) by done.
  unfold Py.strip. rewrite (lstrip_unspaced _ _ Hc).
  by apply (single_spaced_rstrip true).
Qed.

(** X8. Normalizing a text that [extract_text] returned gives the same text. *)
Theorem extract_text_idempotent (content : pystr) (filename : option pystr) :
  extract_text (extract_text content filename) None = extract_text content filename.
Proof.
  unfold extract_text at 1. apply single_spaced_fixed.
  unfold extract_text. apply normalized_single_spaced.
Qed.

End Normalization.

(** ** More about the matcher *)

Section MatcherMore.
Context `{Env}.

Lemma score_le_words u s : (score u s ≤ size (words u))%nat.
Proof. unfold score. apply subseteq_size, intersection_subseteq_l. Qed.

Lemma fold_consider_bound u K best bound :
  (best.2 ≤ bound)%nat → (∀ t, t ∈ K → (score u t ≤ bound)%nat) →
  ((foldl (consider (words u)) best K).2 ≤ bound)%nat.
Proof.
  revert best. induction K as [|t K IH]; intros best Hbest HK; [done|].
  cbn [foldl]. apply IH.
  - unfold consider. fold (score u t).
    destruct (best.2 <? score u t)%nat; [|done]. simpl. apply HK. by left.
  - intros t' Ht'. apply HK. by right.
Qed.

(** X9. An utterance with fewer than three distinct words never matches,
    whatever the corpus holds. *)
Theorem best_knowledge_match_few_words (user_input : pystr) (K : list pystr) (w : world) :
  (size (words user_input) < 3)%nat →
  best_knowledge_match user_input (corpus_value K) w = (Ok None, w).
Proof.
  intros Hfew. rewrite best_knowledge_match_fold. cbv zeta.
  pose proof (fold_consider_bound user_input K (None, 0%nat) (size (words user_input))
                (Nat.le_0_l _) (λ t _, score_le_words user_input t)) as Hle.
  destruct (Nat.leb_spec 3 (foldl (consider (words user_input)) (None, 0%nat) K).2);
    [lia|done].
Qed.

Lemma match_loop_raises user_words (l : list value) best w :
  (∃ v, v ∈ l ∧ ∀ s, v ≠ PyStr s) →
  for_each (λ best sentence,
      match sentence with
      | PyStr sentence => ret (consider user_words best sentence)
      | _ => raise AttributeError
      end) best l w
  = (Raise AttributeError, w).
Proof.
  revert best. induction l as [|x l IH]; intros best (v & Hv & Hnot).
  - by apply elem_of_nil in Hv.
  - cbn [for_each]. unfold bind at 1.
    destruct x as [| | | |s| |]; try done.
    unfold ret at 1. apply IH. exists v. split; [|done].
    apply elem_of_cons in Hv as [->|Hv]; [by destruct (Hnot s)|done].
Qed.

(** X10. A knowledge list that holds an item that is not a string makes the
    matcher raise [AttributeError], even when a sentence before it
    matches. *)
Theorem best_knowledge_match_not_a_string (user_input : pystr) (l : list value)
    (v : value) (w : world) :
  v ∈ l → (∀ s, v ≠ PyStr s) →
  best_knowledge_match user_input (PyList l) w = (Raise AttributeError, w).
Proof.
  intros Hv Hnot. unfold best_knowledge_match. cbn [py_iter].
  unfold bind at 1, lift at 1. unfold bind. rewrite match_loop_raises; [done|eauto].
Qed.

End MatcherMore.

(** ** Reading back what was dumped *)

Section MoreFuel.
Context `{Env}.

(** More fuel does not change what the scanner finds. *)
Lemma scan_more_fuel f :
  (∀ depth s, Json.scan_once f depth s ≠ Json.OutOfFuel →
        Json.scan_once (S f) depth s = Json.scan_once f depth s)
  ∧ (∀ depth vals s, Json.array_items f depth vals s ≠ Json.OutOfFuel →
        Json.array_items (S f) depth vals s = Json.array_items f depth vals s)
  ∧ (∀ depth pairs s, Json.object_items f depth pairs s ≠ Json.OutOfFuel →
        Json.object_items (S f) depth pairs s = Json.object_items f depth pairs s).
Proof.
  induction f as [|f (IHscan & IHarray & IHobject)]; [done|].
  remember (S f) as g eqn:Hg. split_and!.
  - intros depth s. remember (Json.scan_once g depth s) as R eqn:HR. intros HOOF.
    rewrite Hg in HR. destruct s as [|c s1]; [by subst R|].
    cbn [Json.scan_once] in HR. cbn [Json.scan_once].
    destruct (c =? DQUOTE); [done|].
    destruct (c =? ord "{").
    { destruct depth as [|depth]; [done|].
      destruct (Json.skip_ws s1) as [|c' s2]; [done|].
      destruct (c' =? ord "}"); [done|]. destruct (c' =? DQUOTE); [|done].
      rewrite IHobject; [done|]. intros Ho. rewrite Ho in HR. by subst R. }
    destruct (c =? ord "[").
    { destruct depth as [|depth]; [done|].
      destruct (Json.skip_ws s1) as [|c' s2]; [done|].
      destruct (c' =? ord "]"); [done|].
      rewrite IHarray; [done|]. intros Ha. rewrite Ha in HR. by subst R. }
    done.
  - intros depth vals s. remember (Json.array_items g depth vals s) as R eqn:HR.
    intros HOOF.
    rewrite Hg in HR. cbn [Json.array_items] in HR. cbn [Json.array_items].
    rewrite IHscan; [|intros Hv; rewrite Hv in HR; by subst R].
    destruct (Json.scan_once f depth s) as [v rest| | |]; [|done..].
    destruct (Json.skip_ws rest) as [|c s1]; [done|].
    destruct (c =? ord "]"); [done|]. destruct (c =? ord ","); [|done].
    rewrite IHarray; [done|]. intros Ha. rewrite Ha in HR. by subst R.
  - intros depth pairs s. remember (Json.object_items g depth pairs s) as R eqn:HR.
    intros HOOF.
    rewrite Hg in HR. cbn [Json.object_items] in HR. cbn [Json.object_items].
    destruct (Json.scanstring s) as [[key s1]|]; [|done].
    destruct (Json.skip_ws s1) as [|c s2]; [done|].
    destruct (c =? ord ":"); [|done].
    rewrite IHscan; [|intros Hv; rewrite Hv in HR; by subst R].
    destruct (Json.scan_once f depth (Json.skip_ws s2)) as [v rest| | |]; [|done..].
    destruct (Json.skip_ws rest) as [|c' s3]; [done|].
    destruct (c' =? ord "}"); [done|]. destruct (c' =? ord ","); [|done].
    destruct (Json.skip_ws s3) as [|q s4]; [done|].
    destruct (q =? DQUOTE); [|done].
    rewrite IHobject; [done|]. intros Ho. rewrite Ho in HR. by subst R.
Qed.

Lemma scan_fuel_le f f' :
  (f ≤ f')%nat →
  (∀ depth s v r, Json.scan_once f depth s = Json.Scanned v r →
     Json.scan_once f' depth s = Json.Scanned v r)
  ∧ (∀ depth vals s l r, Json.array_items f depth vals s = Json.Scanned l r →
        Json.array_items f' depth vals s = Json.Scanned l r)
  ∧ (∀ depth pairs s d r, Json.object_items f depth pairs s = Json.Scanned d r →
        Json.object_items f' depth pairs s = Json.Scanned d r).
Proof.
  induction 1 as [|f' _ (IHscan & IHarray & IHobject)]; [done|].
  destruct (scan_more_fuel f') as (Hscan & Harray & Hobject).
  split_and!.
  - intros depth s v r Hs%IHscan. rewrite Hscan; [done|by rewrite Hs].
  - intros depth vals s l r Hs%IHarray. rewrite Harray; [done|by rewrite Hs].
  - intros depth pairs s d r Hs%IHobject. rewrite Hobject; [done|by rewrite Hs].
Qed.

(** A result the scanner reached is the result for any larger fuel. *)
Lemma scan_once_stable f f' depth s :
  (f ≤ f')%nat → Json.scan_once f depth s ≠ Json.OutOfFuel →
  Json.scan_once f' depth s = Json.scan_once f depth s.
Proof.
  induction 1 as [|f' _ IH]; [done|]. intros Hs.
  rewrite (proj1 (scan_more_fuel f')); [by apply IH|]. by rewrite IH.
Qed.

End MoreFuel.

Lemma skip_ws_newline_indent level x :
  Json.skip_ws (Json.newline_indent level ++ x) = Json.skip_ws x.
Proof.
  unfold Json.newline_indent. cbn [app Json.skip_ws].
  change (Json.is_ws NEWLINE) with true. cbv iota.
  induction (2 * level)%nat as [|n IH]; [done|]. simpl replicate. cbn [app Json.skip_ws].
  change (Json.is_ws SPACE) with true. by cbv iota.
Qed.

Lemma skip_ws_head c t : Json.is_ws c = false → Json.skip_ws (c :: t) = c :: t.
Proof. intros Hc. cbn [Json.skip_ws]. by rewrite Hc. Qed.

Lemma dict_set_fresh pairs k v :
  k ∉ pairs.*1 → dict_set pairs k v = pairs ++ [(k, v)].
Proof.
  induction pairs as [|[k' v'] pairs IH]; [done|]. cbn [fmap list_fmap fst].
  intros [Hne Hk]%not_elem_of_cons. cbn [dict_set app].
  destruct (decide (k = k')); [done|]. by rewrite IH.
Qed.

Section ReadBack.
Context `{Env}.

Local Abbreviation encode level v := (concat (Json.iterencode level v)).

Lemma iterencode_atom level v t : Json.atom v = Some t → Json.iterencode level v = [t].
Proof. destruct v as [|[]| | | |[]|[]]; simpl; by intros [= ->]. Qed.

Lemma concat_list_chunks level first v l :
  concat (Json.list_chunks level first (v :: l))
  = (if first then str "[" else str ",") ++ Json.newline_indent (S level)
    ++ encode (S level) v ++ concat (Json.list_chunks level false l).
Proof.
  cbn [Json.list_chunks]. rewrite concat_app.
  destruct (Json.atom v) as [t|] eqn:Hatom.
  - rewrite (iterencode_atom _ _ _ Hatom). cbn [concat].
    by rewrite !app_nil_r, <- !app_assoc.
  - cbn [concat]. by rewrite <- !app_assoc.
Qed.

Lemma concat_dict_chunks level first k v d :
  concat (Json.dict_chunks level first ((k, v) :: d))
  = (if first then [] else str "," ++ Json.newline_indent (S level))
    ++ Json.encode_basestring k ++ str ": "
    ++ encode (S level) v ++ concat (Json.dict_chunks level false d).
Proof.
  cbn [Json.dict_chunks]. rewrite !concat_app. cbn [concat].
  destruct first; cbn [concat app]; by rewrite ?app_nil_r, <- ?app_assoc.
Qed.

(** What is written for a plain value starts with a character that is
    neither white space, nor a closing bracket, nor the byte order mark. *)
Lemma encode_head level v :
  plain v = true →
  ∃ c t, encode level v = c :: t
         ∧ Json.is_ws c = false ∧ (c =? ord "]") = false ∧ (0xfeff =? c) = false.
Proof.
  destruct v as [|[]|z|f|s|[|v l]|[|[k v] d]]; intros Hv.
  - by exists (ord "n"), (str "ull").
  - by exists (ord "t"), (str "rue").
  - by exists (ord "f"), (str "alse").
  - done.
  - done.
  - eexists DQUOTE, _. split; [reflexivity|done].
  - by exists (ord "["), (str "]").
  - rewrite iterencode_list, concat_app, concat_list_chunks.
    eexists (ord "["), _. split; [reflexivity|done].
  - by exists (ord "{"), (str "}").
  - rewrite iterencode_dict.
    eexists (ord "{"), _. split; [reflexivity|done].
Qed.

Lemma scan_once_open_array f depth level c t l r :
  Json.is_ws c = false → (c =? ord "]") = false →
  Json.array_items f depth [] (c :: t) = Json.Scanned l r →
  Json.scan_once (S f) (S depth) (str "[" ++ Json.newline_indent level ++ c :: t)
  = Json.Scanned (PyList l) r.
Proof.
  intros Hws Hclose Hitems.
  change (str "[" ++ Json.newline_indent level ++ c :: t)
    with (ord "[" :: (Json.newline_indent level ++ c :: t)).
  cbn [Json.scan_once].
  change (ord "[" =? DQUOTE) with false. change (ord "[" =? ord "{") with false.
  change (ord "[" =? ord "[") with true. cbv iota.
  rewrite skip_ws_newline_indent, (skip_ws_head _ _ Hws), Hclose. by rewrite Hitems.
Qed.

Lemma scan_once_open_object f depth level y d r :
  Json.object_items f depth [] y = Json.Scanned d r →
  Json.scan_once (S f) (S depth) (str "{" ++ Json.newline_indent level ++ DQUOTE :: y)
  = Json.Scanned (PyDict d) r.
Proof.
  intros Hitems.
  change (str "{" ++ Json.newline_indent level ++ DQUOTE :: y)
    with (ord "{" :: (Json.newline_indent level ++ DQUOTE :: y)).
  cbn [Json.scan_once].
  change (ord "{" =? DQUOTE) with false. change (ord "{" =? ord "{") with true.
  cbv iota. rewrite skip_ws_newline_indent, (skip_ws_head DQUOTE) by done.
  change (DQUOTE =? ord "}") with false. change (DQUOTE =? DQUOTE) with true.
  cbv iota. by rewrite Hitems.
Qed.

(** The loop of [JSONArray] on what is written for the items of a list. *)
Lemma array_items_encoded depth level rest l :
  Forall (λ v, ∀ level rest, ∃ f,
            Json.scan_once f depth (encode level v ++ rest) = Json.Scanned v rest) l →
  forallb plain l = true →
  ∀ v vals,
    (∀ level rest, ∃ f,
       Json.scan_once f depth (encode level v ++ rest) = Json.Scanned v rest) →
    ∃ f, Json.array_items f depth vals
           (encode (S level) v ++ concat (Json.list_chunks level false l)
            ++ Json.newline_indent level ++ str "]" ++ rest)
         = Json.Scanned (vals ++ v :: l) rest.
Proof.
  induction 1 as [|v' l Hv' _ IH]; intros Hplain v vals Hv.
  - destruct (Hv (S level) (Json.newline_indent level ++ str "]" ++ rest)) as [f Hf].
    exists (S f). rewrite array_items_step. cbn [Json.list_chunks concat app]. rewrite Hf.
    rewrite skip_ws_newline_indent. done.
  - cbn [forallb] in Hplain. apply andb_true_iff in Hplain as [Hp Hplain].
    destruct (IH Hplain v' (vals ++ [v]) Hv') as [f2 Hf2].
    rewrite concat_list_chunks. rewrite <- !app_assoc.
    destruct (Hv (S level)
                (str "," ++ Json.newline_indent (S level) ++ encode (S level) v'
                 ++ concat (Json.list_chunks level false l)
                 ++ Json.newline_indent level ++ str "]" ++ rest)) as [f1 Hf1].
    exists (S (f1 `max` f2)). rewrite array_items_step.
    rewrite (proj1 (scan_fuel_le f1 (f1 `max` f2) (Nat.le_max_l _ _)) _ _ _ _ Hf1).
    change (str "," ++ ?x) with (ord "," :: x).
    change (Json.skip_ws (ord "," :: ?x)) with (ord "," :: x). cbv beta iota.
    change (ord "," =? ord "]") with false. change (ord "," =? ord ",") with true.
    cbv iota. rewrite skip_ws_newline_indent.
    destruct (encode_head (S level) v' Hp) as (c & t & Henc & Hws & _).
    rewrite Henc. cbn [app]. rewrite (skip_ws_head _ _ Hws).
    change (c :: t ++ ?x) with ((c :: t) ++ x). rewrite <- Henc.
    rewrite (proj1 (proj2 (scan_fuel_le f2 (f1 `max` f2) (Nat.le_max_r _ _)))
               _ _ _ _ _ Hf2).
    by rewrite <- app_assoc.
Qed.

Lemma object_items_step f depth pairs k s1 :
  Json.object_items (S f) depth pairs
    ((k ≫= Json.escape_char) ++ DQUOTE :: str ": " ++ s1)
  = match Json.scan_once f depth (Json.skip_ws s1) with
    | Json.Scanned v rest =>
        match Json.skip_ws rest with
        | c' :: s3 =>
            if c' =? ord "}" then Json.Scanned (dict_set pairs k v) s3
            else if c' =? ord "," then
              match Json.skip_ws s3 with
              | q :: s4 =>
                  if q =? DQUOTE
                  then Json.object_items f depth (dict_set pairs k v) s4
                  else Json.ScanError
              | [] => Json.ScanError
              end
            else Json.ScanError
        | [] => Json.ScanError
        end
    | Json.ScanError => Json.ScanError
    | Json.ScanRaise e => Json.ScanRaise e
    | Json.OutOfFuel => Json.OutOfFuel
    end.
Proof.
  cbn [Json.object_items]. rewrite scanstring_escaped.
  change (str ": " ++ s1) with (ord ":" :: SPACE :: s1).
  change (Json.skip_ws (ord ":" :: SPACE :: s1)) with (ord ":" :: SPACE :: s1).
  cbv beta iota. change (ord ":" =? ord ":") with true. cbv iota.
  change (Json.skip_ws (SPACE :: s1)) with (Json.skip_ws s1). done.
Qed.

(** The loop of [JSONObject] on what is written for the items of a dict
    whose keys are distinct. *)
Lemma object_items_encoded depth level rest d :
  Forall (λ kv : pystr * value, ∀ level rest, ∃ f,
            Json.scan_once f depth (encode level kv.2 ++ rest)
            = Json.Scanned kv.2 rest) d →
  forallb (λ kv : pystr * value, plain kv.2) d = true →
  ∀ k v pairs,
    (∀ level rest, ∃ f,
       Json.scan_once f depth (encode level v ++ rest) = Json.Scanned v rest) →
    plain v = true →
    NoDup ((pairs ++ (k, v) :: d).*1) →
    ∃ f, Json.object_items f depth pairs
           ((k ≫= Json.escape_char) ++ DQUOTE :: str ": "
            ++ encode (S level) v ++ concat (Json.dict_chunks level false d)
            ++ Json.newline_indent level ++ str "}" ++ rest)
         = Json.Scanned (pairs ++ (k, v) :: d) rest.
Proof.
  induction 1 as [|[k' v'] d Hv' _ IH]; intros Hplain k v pairs Hv Hp Hkeys.
  - destruct (Hv (S level) (Json.newline_indent level ++ str "}" ++ rest)) as [f Hf].
    destruct (encode_head (S level) v Hp) as (c & t & Henc & Hws & _).
    exists (S f). rewrite object_items_step. cbn [Json.dict_chunks concat app].
    rewrite Henc. cbn [app]. rewrite (skip_ws_head _ _ Hws).
    change (c :: t ++ ?x) with ((c :: t) ++ x). rewrite <- Henc, Hf.
    rewrite skip_ws_newline_indent.
    change (Json.skip_ws (str "}" ++ rest)) with (ord "}" :: rest). cbv beta iota.
    change (ord "}" =? ord "}") with true. cbv iota.
    rewrite dict_set_fresh; [done|].
    rewrite fmap_app in Hkeys. apply NoDup_app in Hkeys as (_ & Hfresh & _).
    intros Hin. apply (Hfresh _ Hin). cbn [fmap list_fmap fst]. apply elem_of_cons. by left.
  - cbn [forallb snd] in Hplain. apply andb_true_iff in Hplain as [Hp' Hplain].
    assert (Hfresh : k ∉ pairs.*1).
    { rewrite fmap_app in Hkeys. apply NoDup_app in Hkeys as (_ & Hfresh & _).
      intros Hin. apply (Hfresh _ Hin). cbn [fmap list_fmap fst].
      apply elem_of_cons. by left. }
    destruct (IH Hplain k' v' (pairs ++ [(k, v)]) Hv' Hp') as [f2 Hf2].
    { by rewrite <- app_assoc. }
    rewrite concat_dict_chunks. unfold Json.encode_basestring. rewrite <- !app_assoc.
    destruct (Hv (S level)
                (str "," ++ Json.newline_indent (S level)
                 ++ DQUOTE :: ((k' ≫= Json.escape_char) ++ [DQUOTE]) ++ str ": "
                 ++ encode (S level) v' ++ concat (Json.dict_chunks level false d)
                 ++ Json.newline_indent level ++ str "}" ++ rest)) as [f1 Hf1].
    destruct (encode_head (S level) v Hp) as (c & t & Henc & Hws & _).
    exists (S (f1 `max` f2)). rewrite object_items_step.
    rewrite Henc. cbn [app]. rewrite (skip_ws_head _ _ Hws).
    change (c :: t ++ ?x) with ((c :: t) ++ x). rewrite <- Henc.
    rewrite (proj1 (scan_fuel_le f1 (f1 `max` f2) (Nat.le_max_l _ _)) _ _ _ _ Hf1).
    change (str "," ++ ?x) with (ord "," :: x).
    change (Json.skip_ws (ord "," :: ?x)) with (ord "," :: x). cbv beta iota.
    change (ord "," =? ord "}") with false. change (ord "," =? ord ",") with true.
    cbv iota. rewrite skip_ws_newline_indent.
    rewrite (skip_ws_head DQUOTE) by done.
    change (DQUOTE =? DQUOTE) with true. cbv iota.
    rewrite (dict_set_fresh _ _ _ Hfresh), <- (app_assoc (k' ≫= Json.escape_char)).
    cbn [app].
    rewrite (proj2 (proj2 (scan_fuel_le f2 (f1 `max` f2) (Nat.le_max_r _ _)))
               _ _ _ _ _ Hf2).
    by rewrite <- app_assoc.
Qed.

(** The scanner reads a plain value back from what the encoder wrote for
    it, at any indentation and whatever follows, when it may enter as many
    arrays and objects as the value nests. *)
Lemma scan_encoded v :
  plain v = true →
  ∀ depth, fits depth v = true →
  ∀ level rest, ∃ f,
    Json.scan_once f depth (encode level v ++ rest) = Json.Scanned v rest.
Proof.
  induction v as [|b|z|l|s|l IH|d IH] using value_nested_ind;
    intros Hv depth Hfits level rest.
  - exists 1%nat. by destruct rest.
  - exists 1%nat. by destruct b, rest.
  - done.
  - done.
  - exists 1%nat. cbn [Json.iterencode Json.atom concat]. rewrite app_nil_r.
    unfold Json.encode_basestring. cbn [app]. rewrite <- app_assoc.
    rewrite scan_once_string. cbn [app]. by rewrite scanstring_escaped.
  - destruct depth as [|depth]; [done|]. cbn [fits] in Hfits.
    destruct l as [|v l]; [by exists 1%nat|].
    cbn [plain forallb] in Hv. apply andb_true_iff in Hv as [Hp Hl].
    cbn [forallb] in Hfits. apply andb_true_iff in Hfits as [Hfv Hfl].
    apply Forall_cons in IH as [IHv IHl].
    assert (IHl' : Forall (λ v, ∀ level rest, ∃ f,
                Json.scan_once f depth (encode level v ++ rest)
                = Json.Scanned v rest) l).
    { apply Forall_forall. intros x Hx. rewrite Forall_forall in IHl.
      apply (IHl x Hx).
      - rewrite forallb_forall in Hl. apply Hl. by apply list_elem_of_In.
      - rewrite forallb_forall in Hfl. apply Hfl. by apply list_elem_of_In. }
    destruct (array_items_encoded depth level rest l IHl' Hl v [] (IHv Hp depth Hfv))
      as [f Hf].
    exists (S f). rewrite iterencode_list, concat_app, concat_list_chunks.
    cbn [concat]. rewrite app_nil_r, <- !app_assoc.
    destruct (encode_head (S level) v Hp) as (c & t & Henc & Hws & Hclose & _).
    rewrite Henc in Hf |- *. cbn [app] in Hf |- *.
    by apply scan_once_open_array.
  - destruct depth as [|depth]; [done|]. cbn [fits] in Hfits.
    destruct d as [|[k v] d]; [by exists 1%nat|].
    cbn [plain forallb snd] in Hv. apply andb_true_iff in Hv as [Hv Hkeys].
    apply andb_true_iff in Hv as [Hp Hd]. apply bool_decide_eq_true in Hkeys.
    cbn [forallb snd] in Hfits. apply andb_true_iff in Hfits as [Hfv Hfd].
    apply Forall_cons in IH as [IHv IHd]. cbn [snd] in IHv.
    assert (IHd' : Forall (λ kv : pystr * value, ∀ level rest, ∃ f,
                Json.scan_once f depth (encode level kv.2 ++ rest)
                = Json.Scanned kv.2 rest) d).
    { apply Forall_forall. intros x Hx. rewrite Forall_forall in IHd.
      apply (IHd x Hx).
      - rewrite forallb_forall in Hd. apply Hd. by apply list_elem_of_In.
      - rewrite forallb_forall in Hfd. apply (Hfd x). by apply list_elem_of_In. }
    destruct (object_items_encoded depth level rest d IHd' Hd k v []
                (IHv Hp depth Hfv) Hp Hkeys) as [f Hf].
    exists (S f). rewrite iterencode_dict, !concat_app, concat_dict_chunks.
    cbn [concat]. rewrite app_nil_r. unfold Json.encode_basestring.
    rewrite <- !app_assoc. cbn [app].
    change (ord "{" :: Json.newline_indent (S level) ++ DQUOTE :: ?y)
      with (str "{" ++ Json.newline_indent (S level) ++ DQUOTE :: y).
    apply scan_once_open_object. rewrite <- app_assoc. exact Hf.
Qed.

End ReadBack.

Section ReadBackPlain.
Context `{Env}.

(** [json.loads] gives back the plain value [json.dumps] was given, when
    the value nests no deeper than the decoder can go. *)
Lemma loads_dumps_plain v :
  plain v = true → fits Json.decoder_depth v = true →
  Json.loads (Json.dumps v) = Ok v.
Proof.
  intros Hv Hfits. unfold Json.loads, Json.dumps.
  destruct (encode_head 0 v Hv) as (c & t & Henc & Hws & _ & Hbom).
  destruct (scan_encoded v Hv _ Hfits 0%nat []) as [f Hf]. rewrite app_nil_r in Hf.
  pose proof (loads_fuel Json.decoder_depth (concat (Json.iterencode 0 v))) as Hfuel.
  rewrite Henc in Hf, Hfuel |- *. cbn [Py.startswith]. rewrite Hbom. cbn [andb].
  rewrite (skip_ws_head _ _ Hws) in Hfuel |- *.
  set (g := (2 * length (c :: t) + 1)%nat) in *.
  assert (Json.scan_once g Json.decoder_depth (c :: t) = Json.Scanned v []) as ->;
    [|done].
  destruct (Nat.le_ge_cases f g) as [Hle|Hle].
  - by apply (proj1 (scan_fuel_le f g Hle)).
  - by rewrite <- (scan_once_stable g f _ _ Hle Hfuel).
Qed.

Lemma newline_indent_no_cr level : 13 ∉ Json.newline_indent level.
Proof.
  unfold Json.newline_indent. apply not_elem_of_cons. split; [done|].
  by intros [Hc _]%elem_of_replicate.
Qed.

(** What is written for a plain value holds no carriage return: a reader
    in text mode gets it as it was written. *)
Lemma encode_no_cr v : plain v = true → ∀ level, 13 ∉ concat (Json.iterencode level v).
Proof.
  induction v as [|b|z|l|s|l IH|d IH] using value_nested_ind; intros Hv level.
  - by apply not_elem_of_cons; split; [|repeat (apply not_elem_of_cons; split; [done|]);
                                         apply not_elem_of_nil].
  - destruct b; repeat (apply not_elem_of_cons; split; [done|]); apply not_elem_of_nil.
  - done.
  - done.
  - cbn [Json.iterencode Json.atom concat]. rewrite app_nil_r.
    apply encode_basestring_no_cr.
  - destruct l as [|v l].
    { repeat (apply not_elem_of_cons; split; [done|]). apply not_elem_of_nil. }
    rewrite iterencode_list, concat_app. cbn [plain] in Hv. apply not_elem_of_app. split.
    + generalize true. revert IH Hv. generalize (v :: l). clear v l.
      induction l as [|v l IHl]; intros IH Hv first; [apply not_elem_of_nil|].
      apply Forall_cons in IH as [IHv IH]. cbn [forallb] in Hv.
      apply andb_true_iff in Hv as [Hp Hv].
      rewrite concat_list_chunks, !not_elem_of_app. split_and!.
      * destruct first; by apply not_elem_of_cons; split; [|apply not_elem_of_nil].
      * apply newline_indent_no_cr.
      * by apply IHv.
      * by apply IHl.
    + cbn [concat]. rewrite app_nil_r. apply not_elem_of_app. split.
      * apply newline_indent_no_cr.
      * by apply not_elem_of_cons; split; [|apply not_elem_of_nil].
  - destruct d as [|kv d].
    { repeat (apply not_elem_of_cons; split; [done|]). apply not_elem_of_nil. }
    rewrite iterencode_dict, !concat_app. cbn [plain] in Hv.
    apply andb_true_iff in Hv as [Hv _].
    rewrite !not_elem_of_app. split_and!.
    + cbn [concat]. rewrite app_nil_r. apply not_elem_of_app. split.
      * by apply not_elem_of_cons; split; [|apply not_elem_of_nil].
      * apply newline_indent_no_cr.
    + generalize true. revert IH Hv. generalize (kv :: d). clear kv d.
      induction l as [|[k v] d IHd]; intros IH Hv first; [apply not_elem_of_nil|].
      apply Forall_cons in IH as [IHv IH]. cbn [forallb snd] in Hv.
      apply andb_true_iff in Hv as [Hp Hv].
      rewrite concat_dict_chunks, !not_elem_of_app. split_and!.
      * destruct first; [apply not_elem_of_nil|]. apply not_elem_of_app. split.
        -- by apply not_elem_of_cons; split; [|apply not_elem_of_nil].
        -- apply newline_indent_no_cr.
      * apply encode_basestring_no_cr.
      * repeat (apply not_elem_of_cons; split; [done|]). apply not_elem_of_nil.
      * by apply IHv.
      * by apply IHd.
    + cbn [concat]. rewrite app_nil_r. apply not_elem_of_app. split.
      * apply newline_indent_no_cr.
      * by apply not_elem_of_cons; split; [|apply not_elem_of_nil].
Qed.

(** Reading in text mode what [json.dump] wrote for a plain value, and
    parsing it, gives the value back. *)
Lemma loads_read_dumps v :
  plain v = true → fits Json.decoder_depth v = true →
  Json.loads (universal_newlines (Json.dumps v)) = Ok v.
Proof.
  intros Hv Hfits. rewrite universal_newlines_id; [by apply loads_dumps_plain|].
  by apply encode_no_cr.
Qed.

End ReadBackPlain.

(** ** More on the session store *)

Section SessionStoreMore.
Context `{Env}.

Lemma load_session_utf8 w text :
  files w !! SESSION_FILE = Some (Utf8 text) →
  load_session w = (recover (Json.loads (universal_newlines text)), w).
Proof.
  intros Hf. unfold load_session, bind, path_exists, open_read, try_except, lift, ret.
  rewrite Hf. rewrite bool_decide_eq_true_2 by eauto. cbv beta iota. rewrite Hf.
  unfold raise. destruct (Json.loads (universal_newlines text)) as [v|[]]; done.
Qed.

Lemma load_session_not_utf8 w lenient :
  files w !! SESSION_FILE = Some (NotUtf8 lenient) →
  load_session w = (Raise UnicodeDecodeError, w).
Proof.
  intros Hf. unfold load_session, bind, path_exists, open_read.
  rewrite Hf. rewrite bool_decide_eq_true_2 by eauto. cbv beta iota. by rewrite Hf.
Qed.

Lemma load_session_absent w :
  files w !! SESSION_FILE = None → load_session w = (Ok (PyList []), w).
Proof.
  intros Hf. unfold load_session, bind, path_exists.
  rewrite Hf. rewrite bool_decide_eq_false_2; [done|]. by intros [? ?].
Qed.

(** X11. [load_session] only reads: it leaves the world as it is, clock
    included, and does not create the session file; without a session
    file, and with one on whose text [json.load] raises
    [JSONDecodeError], the session is empty. *)
Theorem load_session_only_reads (w : world) :
  (load_session w).2 = w
  ∧ (files w !! SESSION_FILE = None → (load_session w).1 = Ok (PyList []))
  ∧ (∀ text, files w !! SESSION_FILE = Some (Utf8 text) →
       Json.loads (universal_newlines text) = Raise JSONDecodeError →
       (load_session w).1 = Ok (PyList [])).
Proof.
  destruct (files w !! SESSION_FILE) as [[text|lenient]|] eqn:Hf.
  - rewrite (load_session_utf8 _ _ Hf). cbn [fst snd]. split_and!; [done|done|].
    by intros ? [= <-] ->.
  - by rewrite (load_session_not_utf8 _ _ Hf).
  - by rewrite (load_session_absent _ Hf).
Qed.

Lemma stamp_logged msg w : logged_turn msg = true → stamp msg w = (Ok msg, w).
Proof.
  destruct msg as [| | | | | |d]; try done. unfold logged_turn.
  intros [_ Hstamp]%andb_true_iff.
  unfold stamp, bind, lift. cbn [str_in]. unfold has_timestamp in Hstamp.
  by rewrite Hstamp.
Qed.

Lemma stamp_loop_logged l : ∀ done w,
  Forall (λ turn, logged_turn turn = true) l →
  for_each (λ done msg, msg' <- stamp msg ;; ret (done ++ [msg'])) done l w
  = (Ok (done ++ l), w).
Proof.
  induction l as [|msg l IH]; intros done w Hl.
  - by rewrite app_nil_r.
  - apply Forall_cons in Hl as [Hmsg Hl]. cbn [for_each].
    unfold bind at 1. unfold bind at 1. rewrite (stamp_logged _ _ Hmsg).
    unfold ret at 1. rewrite (IH _ _ Hl). by rewrite <- app_assoc.
Qed.

Lemma logged_turns_plain l :
  Forall (λ turn, logged_turn turn = true) l → plain (PyList l) = true.
Proof.
  intros Hl. cbn [plain]. apply forallb_forall. intros v Hv%list_elem_of_In.
  rewrite Forall_forall in Hl. specialize (Hl v Hv).
  destruct v as [| | | | | |d]; try done. unfold logged_turn in Hl.
  apply andb_true_iff in Hl as [[[Hd Hkeys]%andb_true_iff _]%andb_true_iff _].
  cbn [plain]. rewrite Hkeys, andb_true_r. apply forallb_forall. intros [k x] Hx.
  apply (proj1 (forallb_forall _ _) Hd) in Hx. by destruct x.
Qed.

(** A list of logged turns has two levels, which the decoder can always
    enter. *)
Lemma logged_turns_fit l :
  Forall (λ turn, logged_turn turn = true) l →
  fits Json.decoder_depth (PyList l) = true.
Proof.
  intros Hl. change Json.decoder_depth with (S (S recursion_headroom)).
  cbn [fits]. apply forallb_forall. intros v Hv%list_elem_of_In.
  rewrite Forall_forall in Hl. specialize (Hl v Hv).
  destruct v as [| | | | | |d]; try done. unfold logged_turn in Hl.
  apply andb_true_iff in Hl as [[[Hd _]%andb_true_iff _]%andb_true_iff _].
  cbn [fits]. apply forallb_forall. intros [k x] Hx.
  apply (proj1 (forallb_forall _ _) Hd) in Hx. cbn [snd] in Hx |- *.
  by destruct x.
Qed.

Lemma logged_turns_encodable l :
  Forall (λ turn, logged_turn turn = true) l → value_encodable (PyList l) = true.
Proof.
  intros Hl. cbn [value_encodable]. apply forallb_forall. intros v Hv%list_elem_of_In.
  rewrite Forall_forall in Hl. specialize (Hl v Hv).
  destruct v; try done. unfold logged_turn in Hl.
  by apply andb_true_iff in Hl as [[_ ?]%andb_true_iff _].
Qed.

(** Saving a session of logged turns writes its dump and nothing else. *)
Lemma save_session_logged l w :
  Forall (λ turn, logged_turn turn = true) l →
  save_session (PyList l) w
  = (Ok (), World (<[SESSION_FILE := Utf8 (Json.dumps (PyList l))]> (files w))
              (clock_reads w)).
Proof.
  intros Hl. unfold save_session, stamp_all.
  unfold bind at 1. unfold bind at 1. rewrite (stamp_loop_logged l [] w Hl).
  unfold ret. apply open_write_ok.
  by apply write_all_ok, iterencode_encodable, logged_turns_encodable.
Qed.

Lemma load_session_dumped l w :
  Forall (λ turn, logged_turn turn = true) l →
  files w !! SESSION_FILE = Some (Utf8 (Json.dumps (PyList l))) →
  load_session w = (Ok (PyList l), w).
Proof.
  intros Hl Hf. rewrite (load_session_utf8 _ _ Hf).
  by rewrite loads_read_dumps
    by first [by apply logged_turns_plain | by apply logged_turns_fit].
Qed.

(** X12. What [save_session] stored is what [load_session] and the route
    [/session] give back: for a session whose turns are dicts of strings
    with a timestamp, as [chat] logs them, saving returns, changes only
    the session file, and the next load returns the same turns in the same
    order. *)
Theorem save_session_load_session (l : list value) (w : world) :
  Forall (λ turn, logged_turn turn = true) l →
  ∃ w1, save_session (PyList l) w = (Ok (), w1)
        ∧ (∀ path, path ≠ SESSION_FILE → files w1 !! path = files w !! path)
        ∧ load_session w1 = (Ok (PyList l), w1)
        ∧ get_session w1 = (Ok (jsonify (PyList l)), w1).
Proof.
  intros Hl. eexists. split; [by apply save_session_logged|].
  assert (load_session
            (World (<[SESSION_FILE := Utf8 (Json.dumps (PyList l))]> (files w))
               (clock_reads w))
          = (Ok (PyList l),
             World (<[SESSION_FILE := Utf8 (Json.dumps (PyList l))]> (files w))
               (clock_reads w))) as Hload.
  { apply load_session_dumped; [done|]. apply lookup_insert_eq. }
  split_and!.
  - intros path Hne. by apply lookup_insert_ne.
  - done.
  - unfold get_session. by rewrite (bind_ok _ _ _ _ _ Hload).
Qed.

(** X13. Archiving a session file that [save_session] wrote makes an exact copy
    of it, in the file whose name the route reports, and changes no other
    file. *)
Theorem save_session_timestamped_copies (l : list value) (w : world) :
  Forall (λ turn, logged_turn turn = true) l →
  files w !! SESSION_FILE = Some (Utf8 (Json.dumps (PyList l))) →
  let name := OsPath.join SESSIONS_DIR
                (str "session_" ++ now_strftime (clock_reads w) ++ str ".json") in
  ∃ w1, save_session_timestamped w = (Ok name, w1)
        ∧ save_session_route w
          = (Ok (message_of ([0x1f4be] ++ str " Session saved as " ++ name ++ str ".")), w1)
        ∧ files w1 !! name = files w !! SESSION_FILE
        ∧ (∀ path, path ≠ name → files w1 !! path = files w !! path).
Proof.
  intros Hl Hf name.
  assert (save_session_timestamped w
          = (Ok name, World (<[name := Utf8 (Json.dumps (PyList l))]> (files w))
                        (S (clock_reads w)))) as Hrun.
  { unfold save_session_timestamped.
    rewrite (bind_ok _ _ _ _ _ (load_session_dumped l w Hl Hf)).
    unfold stamp_all. unfold bind at 1. unfold bind at 1.
    rewrite (stamp_loop_logged l [] w Hl). unfold ret at 1.
    unfold bind at 1. unfold now at 1. unfold bind at 1.
    rewrite open_write_ok with (content := Json.dumps (PyList l)); [done|].
    by apply write_all_ok, iterencode_encodable, logged_turns_encodable. }
  eexists. split_and!; [exact Hrun| | |].
  - unfold save_session_route. by rewrite (bind_ok _ _ _ _ _ Hrun).
  - cbn [files]. by rewrite lookup_insert_eq.
  - intros path Hne. cbn [files]. by rewrite lookup_insert_ne.
Qed.

End SessionStoreMore.

(** ** What the session file holds after a save *)

Section SessionLog.
Context `{Env}.

Lemma existsb_key_fresh (d : list (pystr * value)) k :
  existsb (λ kv, bool_decide (kv.1 = k)) d = false → k ∉ d.*1.
Proof.
  induction d as [|[k' v] d IH]; [intros _; apply not_elem_of_nil|].
  cbn [existsb fst]. intros [Hk Hd]%orb_false_iff. cbn [fmap list_fmap fst].
  apply not_elem_of_cons. split; [|by apply IH].
  apply bool_decide_eq_false in Hk. congruence.
Qed.

Lemma stamp_inv msg w msg' w' :
  stamp msg w = (Ok msg', w') → files w' = files w ∧ stamped msg msg'.
Proof.
  unfold stamp, stamped, bind, lift.
  destruct (str_in (str "timestamp") msg) as [[]|e] eqn:Hin; [by intros [= <- <-]| |done].
  unfold now. destruct msg as [| | | | | |d]; try done. cbn [setitem_str].
  intros [= <- <-]. split; [done|]. exists d, (clock_reads w). split; [done|].
  cbn [str_in] in Hin. injection Hin as Hin.
  by rewrite dict_set_fresh by by apply existsb_key_fresh.
Qed.

Lemma stamp_loop_inv l : ∀ done w r w',
  for_each (λ done msg, msg' <- stamp msg ;; ret (done ++ [msg'])) done l w = (Ok r, w') →
  ∃ l', r = done ++ l' ∧ files w' = files w ∧ Forall2 stamped l l'.
Proof.
  induction l as [|msg l IH]; intros done w r w'.
  - intros [= <- <-]. exists []. by rewrite app_nil_r.
  - cbn [for_each]. unfold bind at 1. unfold bind at 1.
    destruct (stamp msg w) as [[msg'|e] w1] eqn:Hstamp; [|done].
    unfold ret at 1. intros (l' & -> & Hfiles & Hl')%IH.
    apply stamp_inv in Hstamp as [Hfiles1 Hmsg].
    exists (msg' :: l'). rewrite <- app_assoc. split_and!; [done|congruence|by constructor].
Qed.

Lemma save_session_inv l w w' :
  save_session (PyList l) w = (Ok (), w') →
  ∃ l', files w' = <[SESSION_FILE := Utf8 (Json.dumps (PyList l'))]> (files w)
        ∧ Forall2 stamped l l'.
Proof.
  unfold save_session, stamp_all. unfold bind at 1. unfold bind at 1.
  destruct (for_each _ [] l w) as [[r|e] w1] eqn:Hloop; [|done].
  apply stamp_loop_inv in Hloop as (l' & -> & Hfiles & Hl').
  unfold ret, open_write.
  destruct (write_all [] _) as [[[]|e] content] eqn:Hwrite; [|done].
  intros [= <-]. apply write_all_inv in Hwrite as ->.
  exists l'. cbn [files app]. by rewrite Hfiles.
Qed.

(** X14. A save that returns leaves a session file in which every message has a
    timestamp: the messages that had one are stored as they were, the
    others are dicts that got the time of the save as their last item. *)
Theorem save_session_stamps (l : list value) (w w' : world) :
  save_session (PyList l) w = (Ok (), w') →
  ∃ l', files w' = <[SESSION_FILE := Utf8 (Json.dumps (PyList l'))]> (files w)
        ∧ length l' = length l
        ∧ Forall2 stamped l l'.
Proof.
  intros (l' & Hfiles & Hl')%save_session_inv. exists l'. split_and!; [done| |done].
  symmetry. by apply (Forall2_length stamped).
Qed.


End SessionLog.

(** ** More on the chat route *)

Section ChatMore.
Context `{Env}.

Lemma chat_nonblank request_json message :
  get_message request_json = Ok (PyStr message) → Py.strip message ≠ [] →
  chat request_json
  = (knowledge <- load_knowledge ;;
     matched_reply <- best_knowledge_match (Py.strip message) knowledge ;;
     matched_reply <- reply_to (Py.strip message) matched_reply ;;
     record (Py.strip message) matched_reply).
Proof.
  intros Hget Hnonblank. unfold chat. unfold bind at 1, lift at 1. rewrite Hget.
  unfold bind at 1, lift at 1. cbn [value_strip].
  by destruct (Py.strip message).
Qed.

Lemma load_session_world w : (load_session w).2 = w.
Proof.
  destruct (files w !! SESSION_FILE) as [[text|lenient]|] eqn:Hf.
  - by rewrite (load_session_utf8 _ _ Hf).
  - by rewrite (load_session_not_utf8 _ _ Hf).
  - by rewrite (load_session_absent _ Hf).
Qed.

Lemma turn_of_has_timestamp user_input reply timestamp :
  str_in (str "timestamp") (turn_of user_input reply timestamp) = Ok true.
Proof. done. Qed.

(** An exchange that was recorded is the last turn of the session file. *)
Lemma record_inv user_input reply w resp w' :
  record user_input reply w = (Ok resp, w') →
  resp = reply_of reply
  ∧ ∃ stored n,
      files w' = <[SESSION_FILE :=
                     Utf8 (Json.dumps (PyList (stored ++
                             [turn_of user_input reply (now_isoformat n)])))]> (files w).
Proof.
  unfold record. unfold bind at 1. pose proof (load_session_world w) as Hw.
  destruct (load_session w) as [[session|e] w1]; [|done]. cbn [snd] in Hw. subst w1.
  unfold bind at 1, now at 1. unfold bind at 1.
  destruct session as [| | | | |l|]; try done. unfold ret at 1.
  unfold bind at 1.
  destruct (save_session _ _) as [[[]|e] w2] eqn:Hsave; [|done].
  intros [= <- <-]. split; [done|].
  apply save_session_inv in Hsave as (l' & Hfiles & Hl').
  apply Forall2_app_inv_l in Hl' as (stored & last & _ & Hlast & ->).
  apply Forall2_cons_inv_l in Hlast as (turn & rest & Hturn & Hrest & ->).
  apply Forall2_nil_inv_l in Hrest as ->.
  unfold stamped in Hturn. rewrite turn_of_has_timestamp in Hturn. subst turn.
  exists stored, (clock_reads w). by rewrite Hfiles.
Qed.

Lemma record_ok user_input reply session w :
  load_session w = (Ok (PyList session), w) →
  Forall (λ turn, storable_turn turn = true) session →
  (∀ n, forallb encodable (now_isoformat n) = true) →
  forallb encodable user_input = true → forallb encodable reply = true →
  ∃ stored w',
    record user_input reply w = (Ok (reply_of reply), w')
    ∧ files w' !! SESSION_FILE
      = Some (Utf8 (Json.dumps (PyList (stored ++
          [turn_of user_input reply (now_isoformat (clock_reads w))])))).
Proof.
  intros Hsession Hturns Hclock Hu Hr.
  set (turn := turn_of user_input reply (now_isoformat (clock_reads w))).
  assert (storable_turn turn = true) as Hturn by by apply turn_of_storable.
  destruct (save_session_storable session turn
              (World (files w) (S (clock_reads w))) Hturns Hclock Hturn)
    as (stored & w' & Hsave & Hfile); [intros w0; apply stamp_turn_of|].
  exists stored, w'. split; [|done].
  unfold record. rewrite (bind_ok _ _ _ _ _ Hsession).
  unfold bind at 1. unfold now at 1. unfold bind at 1. unfold ret at 1.
  fold turn. by rewrite (bind_ok _ _ _ _ _ Hsave).
Qed.

(** A run of [chat] in which every step returns. *)
Lemma chat_run request_json message knowledge matched_reply reply session w w1 :
  get_message request_json = Ok (PyStr message) →
  Py.strip message ≠ [] →
  load_knowledge w = (Ok knowledge, w1) →
  best_knowledge_match (Py.strip message) knowledge w1 = (Ok matched_reply, w1) →
  reply_to (Py.strip message) matched_reply w1 = (Ok reply, w1) →
  load_session w1 = (Ok (PyList session), w1) →
  Forall (λ turn, storable_turn turn = true) session →
  (∀ n, forallb encodable (now_isoformat n) = true) →
  forallb encodable message = true → forallb encodable reply = true →
  ∃ stored w',
    chat request_json w = (Ok (reply_of reply), w')
    ∧ files w' !! SESSION_FILE
      = Some (Utf8 (Json.dumps (PyList (stored ++
          [turn_of (Py.strip message) reply (now_isoformat (clock_reads w1))])))).
Proof.
  intros Hget Hnonblank Hload Hmatch Hreply Hsession Hturns Hclock Hmsg Hr.
  rewrite (chat_nonblank _ _ Hget Hnonblank).
  rewrite (bind_ok _ _ _ _ _ Hload), (bind_ok _ _ _ _ _ Hmatch),
    (bind_ok _ _ _ _ _ Hreply).
  apply (record_ok _ _ session); try done. by apply strip_encodable.
Qed.

(** X16. Whenever [chat] answers a message that is not blank, the exchange is
    the last turn of the session file, with the reply the client got: no
    reply is given without being logged. *)
Theorem chat_records_turn (request_json : value) (message : pystr) (w w' : world)
    (resp : response) :
  get_message request_json = Ok (PyStr message) →
  Py.strip message ≠ [] →
  chat request_json w = (Ok resp, w') →
  ∃ reply stored n,
    resp = reply_of reply
    ∧ files w' !! SESSION_FILE
      = Some (Utf8 (Json.dumps (PyList (stored ++
          [turn_of (Py.strip message) reply (now_isoformat n)])))).
Proof.
  intros Hget Hnonblank. rewrite (chat_nonblank _ _ Hget Hnonblank).
  unfold bind at 1. destruct (load_knowledge w) as [[knowledge|e] w1]; [|done].
  unfold bind at 1.
  destruct (best_knowledge_match _ knowledge w1) as [[matched_reply|e] w2]; [|done].
  unfold bind at 1.
  destruct (reply_to _ matched_reply w2) as [[reply|e] w3]; [|done].
  intros (-> & stored & n & Hfiles)%record_inv.
  exists reply, stored, n. split; [done|]. rewrite Hfiles. apply lookup_insert_eq.
Qed.

(** X17. A sentence of the knowledge that matches is the reply, word for word,
    whatever the completion service would say or raise; the exchange is
    logged with it. *)
Theorem chat_knowledge_reply (request_json : value) (message sentence : pystr)
    (knowledge : value) (session : list value) (w w1 : world) :
  get_message request_json = Ok (PyStr message) →
  Py.strip message ≠ [] →
  load_knowledge w = (Ok knowledge, w1) →
  best_knowledge_match (Py.strip message) knowledge w1 = (Ok (Some sentence), w1) →
  sentence ≠ [] →
  load_session w1 = (Ok (PyList session), w1) →
  Forall (λ turn, storable_turn turn = true) session →
  (∀ n, forallb encodable (now_isoformat n) = true) →
  forallb encodable message = true → forallb encodable sentence = true →
  ∃ stored w',
    chat request_json w = (Ok (reply_of sentence), w')
    ∧ files w' !! SESSION_FILE
      = Some (Utf8 (Json.dumps (PyList (stored ++
          [turn_of (Py.strip message) sentence (now_isoformat (clock_reads w1))])))).
Proof.
  intros Hget Hnonblank Hload Hmatch Hsentence Hsession Hturns Hclock Hmsg Hs.
  apply (chat_run _ _ knowledge (Some sentence) sentence session w w1); try done.
  by destruct sentence.
Qed.

(** X18. Without a match, the reply is the text of the first choice of the
    completion, trimmed; the exchange is logged with it. *)
Theorem chat_completion_reply (request_json : value) (message text : pystr)
    (knowledge : value) (completion choice : list (pystr * value)) (others : list value)
    (session : list value) (w w1 : world) :
  get_message request_json = Ok (PyStr message) →
  Py.strip message ≠ [] →
  load_knowledge w = (Ok knowledge, w1) →
  best_knowledge_match (Py.strip message) knowledge w1 = (Ok None, w1) →
  create_completion (clock_reads w1) (str "[INST] " ++ Py.strip message ++ str " [/INST]")
  = Ok (PyDict completion) →
  dict_get completion (str "choices") = Some (PyList (PyDict choice :: others)) →
  dict_get choice (str "text") = Some (PyStr text) →
  load_session w1 = (Ok (PyList session), w1) →
  Forall (λ turn, storable_turn turn = true) session →
  (∀ n, forallb encodable (now_isoformat n) = true) →
  forallb encodable message = true → forallb encodable text = true →
  ∃ stored w',
    chat request_json w = (Ok (reply_of (Py.strip text)), w')
    ∧ files w' !! SESSION_FILE
      = Some (Utf8 (Json.dumps (PyList (stored ++
          [turn_of (Py.strip message) (Py.strip text)
             (now_isoformat (clock_reads w1))])))).
Proof.
  intros Hget Hnonblank Hload Hmatch Hllm Hchoices Htext Hsession Hturns Hclock Hmsg Ht.
  apply (chat_run _ _ knowledge None (Py.strip text) session w w1); try done.
  - unfold reply_to. cbn [falsy]. unfold try_except, bind, llm_create_completion, lift.
    rewrite Hllm. cbn [getitem_str]. rewrite Hchoices. cbn [getitem_0 getitem_str].
    by rewrite Htext.
  - by apply strip_encodable.
Qed.

(** X19. A body that is not an object, or whose message is not a string, makes
    [chat] raise [AttributeError] before it reads or writes anything. *)
Theorem chat_bad_request (request_json : value) (w : world) :
  (∀ message, get_message request_json ≠ Ok (PyStr message)) →
  chat request_json w = (Raise AttributeError, w).
Proof.
  intros Hget. unfold chat. unfold bind at 1, lift at 1.
  destruct request_json as [| | | | | |d]; try done. cbn [get_message] in *.
  unfold bind at 1, lift at 1.
  destruct (default (PyStr []) (dict_get d (str "message"))) as [| | | |message| |];
    try done.
  by destruct (Hget message).
Qed.

Lemma keeps_file_best_knowledge_match path user_input knowledge :
  keeps_file path (best_knowledge_match user_input knowledge).
Proof. unfold best_knowledge_match. auto 10 with keeps. Qed.

Lemma keeps_file_llm_create_completion path prompt :
  keeps_file path (llm_create_completion prompt).
Proof. done. Qed.

Lemma keeps_file_reply_to path user_input matched_reply :
  keeps_file path (reply_to user_input matched_reply).
Proof.
  pose proof (keeps_file_llm_create_completion path).
  unfold reply_to. destruct (falsy matched_reply); auto 10 with keeps.
Qed.

Lemma keeps_file_save_session path session_data :
  path ≠ SESSION_FILE → keeps_file path (save_session session_data).
Proof.
  intros Hne. unfold save_session.
  apply keeps_file_bind; [apply keeps_file_stamp_all|intros session].
  by apply keeps_file_open_write.
Qed.

Lemma keeps_file_record path user_input reply :
  path ≠ SESSION_FILE → keeps_file path (record user_input reply).
Proof.
  intros Hne. unfold record.
  apply keeps_file_bind; [apply keeps_file_load_session|intros session].
  apply keeps_file_bind; [apply keeps_file_now|intros n].
  apply keeps_file_bind; [destruct session; auto with keeps|intros session'].
  apply keeps_file_bind; [by apply keeps_file_save_session|intros _].
  apply keeps_file_ret.
Qed.

Lemma load_knowledge_present w :
  is_Some (files w !! KNOWLEDGE_FILE) → (load_knowledge w).2 = w.
Proof.
  intros [[text|lenient] Hf].
  - by rewrite (load_knowledge_utf8 _ _ Hf).
  - by rewrite (load_knowledge_not_utf8 _ _ Hf).
Qed.

(** X20. [chat] writes to the session file and to no other file, except that it
    creates the knowledge file when there is none: a knowledge file that
    exists is never changed by a chat, whatever the request and whether
    the route answers or raises. *)
Theorem chat_writes_session_only (request_json : value) (w : world) :
  (∀ path, path ≠ KNOWLEDGE_FILE → path ≠ SESSION_FILE →
     files (chat request_json w).2 !! path = files w !! path)
  ∧ (is_Some (files w !! KNOWLEDGE_FILE) →
     files (chat request_json w).2 !! KNOWLEDGE_FILE = files w !! KNOWLEDGE_FILE).
Proof.
  assert (Hrest : ∀ path message knowledge, path ≠ SESSION_FILE →
            keeps_file path
              (matched_reply <- best_knowledge_match (Py.strip message) knowledge ;;
               matched_reply <- reply_to (Py.strip message) matched_reply ;;
               record (Py.strip message) matched_reply)).
  { intros path message knowledge Hne.
    apply keeps_file_bind; [apply keeps_file_best_knowledge_match|intros m].
    apply keeps_file_bind; [apply keeps_file_reply_to|intros reply].
    by apply keeps_file_record. }
  destruct (get_message request_json) as [v|e] eqn:Hget;
    [|by unfold chat, bind, lift; rewrite Hget].
  destruct v as [| | | |message| |];
    try by unfold chat, bind, lift; rewrite Hget.
  destruct (Py.strip message) as [|c u] eqn:Hstrip;
    [by unfold chat, bind, lift; rewrite Hget; cbn [value_strip]; rewrite Hstrip|].
  rewrite (chat_nonblank _ _ Hget) by by rewrite Hstrip.
  split.
  - intros path Hk Hs.
    apply (keeps_file_bind path load_knowledge);
      [by apply keeps_file_load_knowledge|intros knowledge; by apply Hrest].
  - intros Hpresent. apply load_knowledge_present in Hpresent.
    unfold bind at 1. destruct (load_knowledge w) as [[knowledge|e] w1]; cbn [snd] in *;
      subst w1; [|done].
    by apply (Hrest KNOWLEDGE_FILE message knowledge).
Qed.

End ChatMore.

(** ** More on the upload route *)

Section UploadMore.
Context `{Env}.

(** The extension [os.path.splitext] gives is the end of the name. *)
Lemma splitext_suffix p : ∃ root, p = root ++ (OsPath.splitext p).2.
Proof.
  unfold OsPath.splitext.
  destruct (_ <? _)%Z; [|exists p; by rewrite app_nil_r].
  destruct (OsPath.has_non_dot _); [|exists p; by rewrite app_nil_r].
  cbn [snd]. unfold Py.slice_from. eexists. symmetry. apply take_drop.
Qed.

(** A name with an allowed extension ends neither in [.html] nor in
    [.php]. *)
Lemma allowed_not_markup name :
  (OsPath.splitext name).2 ∈ ALLOWED_EXTENSIONS →
  Py.endswith name (str ".html") || Py.endswith name (str ".php") = false.
Proof.
  destruct (splitext_suffix name) as [root Hname].
  unfold ALLOWED_EXTENSIONS. rewrite !elem_of_union, !elem_of_singleton.
  intros [[Hext|Hext]|Hext]; rewrite Hext in Hname; rewrite Hname;
    unfold Py.endswith; rewrite reverse_app; reflexivity.
Qed.

Lemma join_upload_folder_not_knowledge name :
  OsPath.join UPLOAD_FOLDER name ≠ KNOWLEDGE_FILE.
Proof.
  unfold OsPath.join. destruct (Py.startswith name (str "/")) eqn:Hslash.
  - intros ->. done.
  - done.
Qed.

(** The part of [upload_file] that follows a save that went well. *)
Lemma upload_file_saved file w :
  filename file ≠ [] →
  let name := unicode_lower (filename file) in
  (OsPath.splitext name).2 ∈ ALLOWED_EXTENSIONS →
  save_raises file = None →
  let save_path := OsPath.join UPLOAD_FOLDER name in
  upload_file (Some file) w
  = try_except
      (content <- open_read_ignore save_path ;;
       let clean := extract_text content (Some name) in
       added <- add_to_knowledge clean ;;
       ret (message_of
              ([0x2705] ++ str " Learned " ++ Json.int_repr (Z.of_nat added)
               ++ str " new sentences from '" ++ name ++ str "'.")))
      (λ e, ret (error_of 500
                   ([0x26a0; 0xfe0f] ++ str " Failed to process file: " ++ exn_str e)))
      (World (<[save_path := payload file]> (files w)) (clock_reads w)).
Proof.
  intros Hname. unfold upload_file.
  destruct (filename file) as [|c fn] eqn:Hfile; [done|]. rewrite <- Hfile.
  clear c fn Hfile Hname. intros Hext Hsave.
  rewrite bool_decide_eq_false_2 by (intros Hout; by apply Hout).
  unfold bind at 1. unfold try_except at 1. unfold bind at 1.
  unfold file_save. by rewrite Hsave.
Qed.

(** X21. An upload that is answered 400 or 403 stores nothing: the world is
    left as it was. *)
Theorem upload_file_refusal_stores_nothing (file : option file_storage) (w w' : world)
    (resp : response) :
  upload_file file w = (Ok resp, w') →
  status resp = 400%nat ∨ status resp = 403%nat →
  w' = w.
Proof.
  unfold upload_file. destruct file as [file|]; [|by intros [= <- <-]].
  destruct (filename file) as [|c fn] eqn:Hfile; [by intros [= <- <-]|].
  rewrite <- Hfile. destruct (bool_decide _); [by intros [= <- <-]|].
  unfold bind at 1. unfold try_except at 1. unfold bind at 1.
  destruct (file_save file _ w) as [[[]|e] w1].
  - unfold ret at 1. unfold try_except. unfold bind at 1.
    destruct (open_read_ignore _ w1) as [[content|e] w2].
    + unfold bind. destruct (add_to_knowledge _ w2) as [[added|e] w3]; unfold ret;
        intros [= <- <-]; cbn [status error_of message_of jsonify]; lia.
    + unfold ret. intros [= <- <-]. cbn [status error_of]. lia.
  - unfold ret. intros [= <- <-]. cbn [status error_of]. lia.
Qed.

(** X22. For every name [upload_file] accepts, [extract_text] leaves the markup
    filter alone: the names it filters end in [.html] or [.php], which are
    not allowed extensions. *)
Theorem extract_text_of_upload (content name : pystr) :
  (OsPath.splitext name).2 ∈ ALLOWED_EXTENSIONS →
  extract_text content (Some name) = Py.strip (Re.sub_whitespace content).
Proof.
  intros Hext. unfold extract_text. destruct name as [|c fn]; [done|].
  by rewrite (allowed_not_markup _ Hext).
Qed.

(** X23. An accepted upload whose save goes well is in the file system
    afterwards, under the name joined to the upload folder, whatever
    happens when its text is learned. *)
Theorem upload_file_stores_payload (file : file_storage) (w : world) :
  filename file ≠ [] →
  let name := unicode_lower (filename file) in
  (OsPath.splitext name).2 ∈ ALLOWED_EXTENSIONS →
  save_raises file = None →
  files (upload_file (Some file) w).2 !! OsPath.join UPLOAD_FOLDER name
  = Some (payload file).
Proof.
  intros Hname name Hext Hsave.
  rewrite (upload_file_saved file w Hname Hext Hsave). fold name.
  set (save_path := OsPath.join UPLOAD_FOLDER name).
  set (w1 := World _ _).
  assert (files w1 !! save_path = Some (payload file)) as <-
    by apply lookup_insert_eq.
  revert w1. apply keeps_file_try_except; [|intros e; apply keeps_file_ret].
  apply keeps_file_bind; [by intros w1; unfold open_read_ignore; repeat case_match|].
  intros content. apply keeps_file_bind; [|intros added; apply keeps_file_ret].
  apply keeps_file_add_to_knowledge, join_upload_folder_not_knowledge.
Qed.

(** X24. The upload folder does not confine the uploads: the name the client
    gave is joined as it is, so an accepted name that starts with a slash
    is stored under that very path. *)
Theorem upload_file_absolute_name (file : file_storage) (w : world) :
  let name := unicode_lower (filename file) in
  filename file ≠ [] →
  Py.startswith name (str "/") = true →
  (OsPath.splitext name).2 ∈ ALLOWED_EXTENSIONS →
  save_raises file = None →
  files (upload_file (Some file) w).2 !! name = Some (payload file).
Proof.
  intros name Hname Hslash Hext Hsave.
  rewrite (upload_file_saved file w Hname Hext Hsave). fold name.
  assert (OsPath.join UPLOAD_FOLDER name = name) as Hjoin
    by by unfold OsPath.join; rewrite Hslash.
  rewrite Hjoin. set (w1 := World _ _).
  assert (files w1 !! name = Some (payload file)) as <- by apply lookup_insert_eq.
  revert w1. apply keeps_file_try_except; [|intros e; apply keeps_file_ret].
  apply keeps_file_bind; [by intros w1; unfold open_read_ignore; repeat case_match|].
  intros content. apply keeps_file_bind; [|intros added; apply keeps_file_ret].
  apply keeps_file_add_to_knowledge. rewrite <- Hjoin.
  apply join_upload_folder_not_knowledge.
Qed.

End UploadMore.

(** ** Learning from uploads and from pages *)

Section Learning.
Context `{Env}.







End Learning.

Section UploadLearns.
Context `{Env}.


End UploadLearns.

(** ** The route that learns from a page *)

Section LearnUrlMore.
Context `{Env} `{Web}.

(** X26. A request that [learn_url] answers with 400 stores nothing: a blank
    address, a page that cannot be fetched and a text of fewer than 20
    characters leave the world as it was. *)
Theorem learn_url_refusal_stores_nothing (request_json : value) (w w' : world)
    (resp : response) :
  learn_url request_json w = (Ok resp, w') →
  status resp = 400%nat →
  w' = w.
Proof.
  unfold learn_url. unfold bind at 1, lift at 1.
  destruct (get_url request_json) as [url|e]; [|done].
  unfold bind at 1, lift at 1. destruct (value_strip url) as [[|c u]|e]; [|
    |done].
  { by intros [= <- <-]. }
  unfold bind at 1, try_except at 1, bind at 1, fetch at 1.
  destruct (requests_get _ _) as [page|e]; unfold ret at 1; [|by intros [= <- <-]].
  destruct (_ <? _)%nat; [by intros [= <- <-]|].
  unfold bind. destruct (add_to_knowledge _ w) as [[added|e] w1]; [|done].
  by intros [= <- <-].
Qed.


End LearnUrlMore.

(** ** The theorems at work on examples *)

Lemma add_to_knowledge_appends_witness :
  let text := str "Hello world. This is fine! Ok?" in
  let w1 := (add_to_knowledge (H:=example_env) text empty_world).2 in
  2%nat = length [str "Hello world."; str "This is fine!"]
  ∧ load_knowledge (H:=example_env) w1
    = (Ok (corpus_value ([] ++ [str "Hello world."; str "This is fine!"])), w1).
Proof.
  intros text w1.
  apply (add_to_knowledge_appends (H:=example_env) text [] empty_world
           (World (<[KNOWLEDGE_FILE := Utf8 (str "[]")]> ∅) 0) eq_refl 2%nat w1).
  reflexivity.
Defined.

Lemma add_to_knowledge_adds_trimmed_witness :
  let text := str "  Hello world.   This is fine!  Ok? " in
  let w1 := (add_to_knowledge (H:=example_env) text empty_world).2 in
  ∃ new, load_knowledge (H:=example_env) w1 = (Ok (corpus_value ([] ++ new)), w1)
         ∧ ∀ s, s ∈ new → (5 < length s)%nat ∧ Py.strip s = s ∧ s ∉ [].
Proof.
  intros text w1.
  apply (add_to_knowledge_adds_trimmed (H:=example_env) text [] empty_world
           (World (<[KNOWLEDGE_FILE := Utf8 (str "[]")]> ∅) 0) eq_refl 2%nat w1).
  reflexivity.
Defined.

Lemma add_to_knowledge_not_a_list_witness :
  let w := World (<[KNOWLEDGE_FILE := Utf8 (str "{}")]> ∅) 0 in
  ∃ e, add_to_knowledge (H:=example_env) (str "Hello world.") w = (Raise e, w).
Proof.
  intros w.
  apply (add_to_knowledge_not_a_list (H:=example_env) (str "Hello world.") (PyDict []) w w);
    [reflexivity|discriminate].
Defined.

Lemma add_to_knowledge_only_knowledge_file_witness :
  let w := World (<[str "notes.txt" := Utf8 (str "kept")]> ∅) 0 in
  files (add_to_knowledge (H:=example_env) (str "Hello world.") w).2 !! str "notes.txt"
  = files w !! str "notes.txt".
Proof.
  intros w.
  apply (add_to_knowledge_only_knowledge_file (H:=example_env)). discriminate.
Defined.

Lemma add_to_knowledge_NoDup_distinct_witness :
  let text := str "Hello world. This is fine! Ok?" in
  let w1 := (add_to_knowledge (H:=example_env) text empty_world).2 in
  ∃ K', load_knowledge (H:=example_env) w1 = (Ok (corpus_value K'), w1) ∧ NoDup K'.
Proof.
  intros text w1.
  apply (add_to_knowledge_NoDup_distinct (H:=example_env) text [] empty_world
           (World (<[KNOWLEDGE_FILE := Utf8 (str "[]")]> ∅) 0) eq_refl
           (NoDup_nil_2 (A:=pystr))) with (n := 2%nat);
    [|reflexivity].
  apply (bool_decide_unpack _). vm_compute. exact I.
Defined.

Lemma best_knowledge_match_few_words_witness :
  best_knowledge_match (H:=example_env) (str "Hello there")
    (corpus_value [str "hello there my friend"; str "there, hello"]) empty_world
  = (Ok None, empty_world).
Proof.
  apply (best_knowledge_match_few_words (H:=example_env)). vm_compute. lia.
Defined.

Lemma best_knowledge_match_not_a_string_witness :
  best_knowledge_match (H:=example_env) (str "the quick brown fox")
    (PyList [PyStr (str "The quick brown fox jumps."); PyInt 7]) empty_world
  = (Raise AttributeError, empty_world).
Proof.
  apply (best_knowledge_match_not_a_string (H:=example_env) _ _ (PyInt 7));
    [|discriminate].
  apply elem_of_cons. right. apply elem_of_cons. by left.
Defined.

Lemma save_session_load_session_witness :
  let l := [turn_of (str "hi") (str "Hello!") (str "2025-01-01T00:00:00")] in
  ∃ w1, save_session (H:=example_env) (PyList l) empty_world = (Ok (), w1)
        ∧ (∀ path, path ≠ SESSION_FILE → files w1 !! path = files empty_world !! path)
        ∧ load_session (H:=example_env) w1 = (Ok (PyList l), w1)
        ∧ get_session (H:=example_env) w1 = (Ok (jsonify (PyList l)), w1).
Proof.
  intros l. apply (save_session_load_session (H:=example_env) l empty_world).
  constructor; [reflexivity|constructor].
Defined.

Lemma save_session_timestamped_copies_witness :
  let l := [turn_of (str "hi") (str "Hello!") (str "2025-01-01T00:00:00")] in
  let w := World (<[SESSION_FILE := Utf8 (Json.dumps (H:=example_env) (PyList l))]> ∅) 0 in
  let name := str "sessions/session_20250101_000000.json" in
  ∃ w1, save_session_timestamped (H:=example_env) w = (Ok name, w1)
        ∧ save_session_route (H:=example_env) w
          = (Ok (message_of ([0x1f4be] ++ str " Session saved as " ++ name ++ str ".")), w1)
        ∧ files w1 !! name = files w !! SESSION_FILE
        ∧ (∀ path, path ≠ name → files w1 !! path = files w !! path).
Proof.
  intros l w name.
  apply (save_session_timestamped_copies (H:=example_env) l w);
    [constructor; [reflexivity|constructor]|reflexivity].
Defined.

Lemma save_session_stamps_witness :
  let l := [PyDict [(str "user", PyStr (str "hi"))];
            turn_of (str "hi") (str "Hello!") (str "2024-12-31T23:59:59")] in
  let w' := (save_session (H:=example_env) (PyList l) empty_world).2 in
  ∃ l', files w' = <[SESSION_FILE := Utf8 (Json.dumps (H:=example_env) (PyList l'))]> ∅
        ∧ length l' = length l
        ∧ Forall2 (stamped (H:=example_env)) l l'.
Proof.
  intros l w'.
  apply (save_session_stamps (H:=example_env) l empty_world w'). reflexivity.
Defined.


Lemma chat_records_turn_witness :
  let request_json := PyDict [(str "message", PyStr (str " hi there "))] in
  ∃ reply stored n,
    reply_of (MODEL_ERROR ++ str "model not loaded") = reply_of reply
    ∧ files (chat (H:=example_env) request_json empty_world).2 !! SESSION_FILE
      = Some (Utf8 (Json.dumps (H:=example_env) (PyList (stored ++
          [turn_of (Py.strip (str " hi there ")) reply
             (now_isoformat (Env:=example_env) n)])))).
Proof.
  intros request_json.
  apply (chat_records_turn (H:=example_env) request_json (str " hi there ") empty_world);
    [reflexivity|discriminate|reflexivity].
Defined.

Lemma chat_knowledge_reply_witness :
  let sentence := str "The quick brown fox jumps over the lazy dog." in
  let w := World (<[KNOWLEDGE_FILE :=
                      Utf8 (Json.dumps (H:=example_env) (corpus_value [sentence]))]> ∅) 0 in
  let request_json := PyDict [(str "message", PyStr (str " quick brown fox? "))] in
  ∃ stored w',
    chat (H:=example_env) request_json w = (Ok (reply_of sentence), w')
    ∧ files w' !! SESSION_FILE
      = Some (Utf8 (Json.dumps (H:=example_env) (PyList (stored ++
          [turn_of (Py.strip (str " quick brown fox? ")) sentence
             (str "2025-01-01T00:00:00")])))).
Proof.
  intros sentence w request_json.
  apply (chat_knowledge_reply (H:=example_env) request_json (str " quick brown fox? ")
           sentence (corpus_value [sentence]) [] w w);
    first [reflexivity | discriminate | constructor].
Defined.

Lemma chat_completion_reply_witness :
  let request_json := PyDict [(str "message", PyStr (str " hi there "))] in
  ∃ stored w',
    chat (H:=answering_env) request_json empty_world
    = (Ok (reply_of (Py.strip (str " Hello there! "))), w')
    ∧ files w' !! SESSION_FILE
      = Some (Utf8 (Json.dumps (H:=answering_env) (PyList (stored ++
          [turn_of (Py.strip (str " hi there ")) (Py.strip (str " Hello there! "))
             (str "2025-01-01T00:00:00")])))).
Proof.
  intros request_json.
  apply (chat_completion_reply (H:=answering_env) request_json (str " hi there ")
           (str " Hello there! ") (PyList [])
           [(str "id", PyStr (str "cmpl-1"));
            (str "choices",
             PyList [PyDict [(str "text", PyStr (str " Hello there! "));
                             (str "index", PyInt 0)]])]
           [(str "text", PyStr (str " Hello there! ")); (str "index", PyInt 0)]
           [] [] empty_world (World (<[KNOWLEDGE_FILE := Utf8 (str "[]")]> ∅) 0));
    first [reflexivity | discriminate | constructor].
Defined.

Lemma chat_bad_request_witness :
  chat (H:=example_env) (PyDict [(str "message", PyInt 5)]) empty_world
  = (Raise AttributeError, empty_world).
Proof.
  apply (chat_bad_request (H:=example_env)). intros message. discriminate.
Defined.

Lemma upload_file_refusal_stores_nothing_witness :
  let file := FileStorage (str "index.HTML") (Utf8 (str "<p>Hello world.</p>")) None in
  (upload_file (H:=example_env) (Some file) empty_world).2 = empty_world.
Proof.
  intros file.
  eapply (upload_file_refusal_stores_nothing (H:=example_env) (Some file) empty_world);
    [reflexivity|right; reflexivity].
Defined.

Lemma extract_text_of_upload_witness :
  extract_text (H:=example_env) (str "One   two.") (Some (str "notes.txt"))
  = Py.strip (Re.sub_whitespace (str "One   two.")).
Proof.
  apply (extract_text_of_upload (H:=example_env)).
  unfold ALLOWED_EXTENSIONS. rewrite !elem_of_union, !elem_of_singleton.
  left. left. reflexivity.
Defined.

Lemma upload_file_stores_payload_witness :
  let file := FileStorage (str "NOTES.TXT") (Utf8 (str "The quick brown fox.")) None in
  files (upload_file (H:=example_env) (Some file) empty_world).2
    !! OsPath.join UPLOAD_FOLDER (str "notes.txt")
  = Some (Utf8 (str "The quick brown fox.")).
Proof.
  intros file.
  apply (upload_file_stores_payload (H:=example_env) file empty_world);
    [discriminate| |reflexivity].
  unfold ALLOWED_EXTENSIONS. rewrite !elem_of_union, !elem_of_singleton.
  left. left. reflexivity.
Defined.

Lemma upload_file_absolute_name_witness :
  let file := FileStorage (str "/srv/app/notes.py") (Utf8 (str "print(1)")) None in
  files (upload_file (H:=example_env) (Some file) empty_world).2 !! str "/srv/app/notes.py"
  = Some (Utf8 (str "print(1)")).
Proof.
  intros file.
  apply (upload_file_absolute_name (H:=example_env) file empty_world);
    [discriminate|reflexivity| |reflexivity].
  unfold ALLOWED_EXTENSIONS. rewrite !elem_of_union, !elem_of_singleton.
  left. right. reflexivity.
Defined.


Lemma learn_url_refusal_stores_nothing_witness :
  (learn_url (H:=example_env) (H0:=example_web)
     (PyDict [(str "url", PyStr (str "http://example.test/missing"))]) empty_world).2
  = empty_world.
Proof.
  eapply (learn_url_refusal_stores_nothing (H:=example_env) (H0:=example_web)
            (PyDict [(str "url", PyStr (str "http://example.test/missing"))]) empty_world);
    reflexivity.
Defined.

